(** * Probity probes: configuration, directions, projection and persistence

    A shallow embedding of [probity/probes/linear_probe.py]: the probe
    configurations, the five probe classes with [get_direction], [encode],
    [forward], [normalize_vector] and their losses, the fits of the three
    closed-form classes, the fit and the direction of
    [SklearnLogisticProbe], the binary and JSON persistence paths of
    [BaseProbe], and the [ProbeSet] container with its directory format;
    and of the batching loop of [probity/collection/collectors.py].

    Conventions of the embedding
    - Python exceptions are values of [exn]; a method that may raise returns a
      [result], and statements are sequenced with the bind of that monad, in
      the order in which Python evaluates them.
    - A [torch.Tensor] or numpy array is its shape together with its
      row-major contents.  Entries are real numbers: float32 rounding,
      infinities and NaN are not represented, so every statement below is one
      of exact arithmetic (a division by zero yields 0 where Python would
      yield inf or NaN).
    - A file is represented by what is written to it: the JSON document for
      [save_json]/[load_json], the pickled dictionary for [save]/[load];
      the path is assumed writable, except that creating a directory with
      the empty name fails, as it does on every file system.  [ProbeSet.save]
      writes several files and runs on a file system that records the
      directories and the files that exist.
    - The scikit-learn estimators are arguments of the fits that call them:
      a function from the activations to the fitted attributes the probe
      reads.  The gradient descent that trains a [LinearProbe] or a
      [LogisticProbe] is outside the module; its effect is a probe with other
      weights and, after the first forward pass in training mode, with the
      standardisation buffers set.
    - Sizes are natural numbers ([nn.Linear] rejects negative ones). *)

From Stdlib Require Import Reals Lra Lia List ZArith Ascii String.
From stdpp Require Import base strings gmap pretty.

Set Warnings "-register-all".

(* ===================================================================== *)
(** ** Python values: exceptions, results, JSON documents                 *)
(* ===================================================================== *)

Inductive exn_class : Set :=
  | AttributeError | UnboundLocalError | ValueError | RuntimeError
  | TypeError | IndexError | KeyError | UnpicklingError | FileNotFoundError.

(** An exception: its class and its message.  Where the source formats a
    value into the message (a path, a list of dimensions), the message
    keeps the literal part only. *)
Record exn : Set := Exn { exn_cls : exn_class; exn_msg : string }.

Inductive result (A : Type) : Type :=
  | Ok (a : A)
  | Raise (e : exn).
Arguments Ok {A} a.
Arguments Raise {A} e.

Definition bind {A B : Type} (m : result A) (f : A -> result B) : result B :=
  match m with
  | Ok a => f a
  | Raise e => Raise e
  end.

Notation "x <- m ;; k" := (bind m (fun x => k))
  (at level 62, m at next level, right associativity, only parsing).

(** [mapM] for [result], left to right: the first exception wins, as in a
    list comprehension. *)
Fixpoint traverse {A B : Type} (f : A -> result B) (l : list A) : result (list B) :=
  match l with
  | [] => Ok []
  | a :: l' => b <- f a;; bs <- traverse f l';; Ok (b :: bs)
  end.

Inductive json : Type :=
  | JNull
  | JBool (b : bool)
  | JInt (n : Z)
  | JNum (x : R)
  | JStr (s : string)
  | JList (l : list json)
  | JObj (m : gmap string json).

#[export] Instance R_eq_dec : EqDecision R := Req_dec_T.

(** Python truthiness of a JSON value ([not v] is its negation). *)
Definition truthy (v : json) : bool :=
  match v with
  | JNull => false
  | JBool b => b
  | JInt n => negb (Z.eqb n 0)
  | JNum x => negb (bool_decide (x = 0%R))
  | JStr s => negb (String.eqb s "")
  | JList l => match l with [] => false | _ => true end
  | JObj m => match map_to_list m with [] => false | _ => true end
  end.

Definition is_str (k : string) (v : json) : bool :=
  match v with JStr s => String.eqb s k | _ => false end.

Fixpoint substring_of (k s : string) : bool :=
  String.prefix k s ||
  match s with
  | EmptyString => false
  | String _ s' => substring_of k s'
  end.

(** [k in v] for a string [k]: key membership on a dict, element membership
    on a list, substring test on a string, TypeError otherwise. *)
Definition py_in (k : string) (v : json) : result bool :=
  match v with
  | JObj m => Ok (bool_decide (is_Some (m !! k)))
  | JList l => Ok (existsb (is_str k) l)
  | JStr s => Ok (substring_of k s)
  | _ => Raise (Exn TypeError "argument of this type is not iterable")
  end.

(** [v[k]] for a string [k]. *)
Definition py_item (k : string) (v : json) : result json :=
  match v with
  | JObj m => match m !! k with
              | Some x => Ok x
              | None => Raise (Exn KeyError k)
              end
  | _ => Raise (Exn TypeError "indices must be integers or slices, not str")
  end.

(** [v[0]] on a list. *)
Definition py_item0 (v : json) : result json :=
  match v with
  | JList (x :: _) => Ok x
  | JList [] => Raise (Exn IndexError "list index out of range")
  | JObj _ => Raise (Exn KeyError "0")
  | JStr (String c _) => Ok (JStr (String c EmptyString))
  | JStr EmptyString => Raise (Exn IndexError "string index out of range")
  | _ => Raise (Exn TypeError "object is not subscriptable")
  end.

Definition is_list (v : json) : bool :=
  match v with JList _ => true | _ => false end.

(* ===================================================================== *)
(** ** Tensors                                                             *)
(* ===================================================================== *)

Record tensor : Type := Tensor { shape : list nat; data : list R }.

Definition numel (s : list nat) : nat := fold_right Nat.mul 1 s.

(** The contents fill the shape. *)
Definition wf (t : tensor) : Prop := length (data t) = numel (shape t).

Definition rsum (l : list R) : R := fold_right Rplus 0%R l.
Definition at_ (l : list R) (i : nat) : R := nth i l 0%R.
Definition slice (i d : nat) (l : list R) : list R := firstn d (skipn (i * d) l).
Definition sumsq (l : list R) : R := rsum (map (fun x => (x * x)%R) l).
Definition eps : R := 1e-8%R.

Definition vec (l : list R) : tensor := Tensor [length l] l.
Definition scalar (x : R) : tensor := Tensor [] [x].
Definition zeros (s : list nat) : tensor := Tensor s (repeat 0%R (numel s)).

(** [t.shape[0]] *)
Definition shape0 (t : tensor) : result nat :=
  match shape t with
  | n :: _ => Ok n
  | [] => Raise (Exn IndexError "tuple index out of range")
  end.

(** [t.squeeze(0)]: drops the leading dimension when it has size one. *)
Definition squeeze0 (t : tensor) : tensor :=
  match shape t with
  | 1 :: s => Tensor s (data t)
  | _ => t
  end.

(** [t.squeeze()]: drops every dimension of size one. *)
Definition squeeze (t : tensor) : tensor :=
  Tensor (filter (fun n => n <> 1) (shape t)) (data t).

(** [t.unsqueeze(0)] *)
Definition unsqueeze0 (t : tensor) : tensor := Tensor (1 :: shape t) (data t).

(** Broadcasting of two shapes, both given innermost dimension first. *)
Fixpoint bcast_rev (r1 r2 : list nat) : option (list nat) :=
  match r1, r2 with
  | [], r => Some r
  | r, [] => Some r
  | a :: r1', b :: r2' =>
      if Nat.eqb a b then cons a <$> bcast_rev r1' r2'
      else if Nat.eqb a 1 then cons b <$> bcast_rev r1' r2'
      else if Nat.eqb b 1 then cons a <$> bcast_rev r1' r2'
      else None
  end.

(** Position, in an operand of (reversed) shape [q], of the entry that is
    broadcast to flat position [i] of a result of (reversed) shape [r]. *)
Fixpoint offset_rev (q r : list nat) (i : nat) : nat :=
  match q, r with
  | qk :: q', rk :: r' =>
      (if Nat.eqb qk 1 then 0 else Nat.modulo i rk)
      + qk * offset_rev q' r' (Nat.div i rk)
  | _, _ => 0
  end.

(** An elementwise binary operation with broadcasting. *)
Definition broadcast2 (f : R -> R -> R) (a b : tensor) : result tensor :=
  match bcast_rev (rev (shape a)) (rev (shape b)) with
  | Some r =>
      Ok (Tensor (rev r)
            (map (fun i => f (at_ (data a) (offset_rev (rev (shape a)) r i))
                             (at_ (data b) (offset_rev (rev (shape b)) r i)))
                 (seq 0 (numel r))))
  | None =>
      Raise (Exn RuntimeError
        "The size of tensor a must match the size of tensor b at non-singleton dimension")
  end.

Definition tdiv : tensor -> tensor -> result tensor := broadcast2 Rdiv.
Definition tsub : tensor -> tensor -> result tensor := broadcast2 Rminus.

(** [t + c] for a Python float [c]. *)
Definition add_scalar (t : tensor) (c : R) : tensor :=
  Tensor (shape t) (map (fun x => (x + c)%R) (data t)).

(** [torch.norm(t)]: the 2-norm of all entries, a 0-dimensional tensor. *)
Definition norm (t : tensor) : tensor := scalar (sqrt (sumsq (data t))).

(** [torch.norm(t, dim=1, keepdim=True)] *)
Definition norm_dim1 (t : tensor) : result tensor :=
  match shape t with
  | a :: b :: rest =>
      let m := numel rest in
      Ok (Tensor (a :: 1 :: rest)
            (flat_map (fun i =>
               map (fun k =>
                  sqrt (sumsq (map (fun j => at_ (data t) ((i * b + j) * m + k))
                                   (seq 0 b))))
                   (seq 0 m))
               (seq 0 a)))
  | _ => Raise (Exn IndexError "Dimension out of range")
  end.

(** Contraction of two index ranges of sizes [d1] and [d2] over a shared
    einsum subscript; a range of size one is broadcast. *)
Definition bdot (d1 d2 : nat) (a b : list R) : R :=
  rsum (map (fun j => (at_ a (if Nat.eqb d1 1 then 0 else j)
                       * at_ b (if Nat.eqb d2 1 then 0 else j))%R)
            (seq 0 (Nat.max d1 d2))).

Definition contractible (d1 d2 : nat) : bool :=
  Nat.eqb d1 d2 || Nat.eqb d1 1 || Nat.eqb d2 1.

Definition einsum_shape_error : exn :=
  Exn RuntimeError
    "einsum(): the number of subscripts in the equation does not match the number of dimensions for operand".
Definition einsum_size_error : exn :=
  Exn RuntimeError "einsum(): operands do not broadcast with remapped shapes".

(** [torch.einsum("...d,d->...", acts, direction)] *)
Definition einsum_d (acts direction : tensor) : result tensor :=
  match shape direction with
  | [d] =>
      match rev (shape acts) with
      | d' :: lead =>
          if contractible d' d then
            Ok (Tensor (rev lead)
                  (map (fun i => bdot d' d (slice i d' (data acts)) (data direction))
                       (seq 0 (numel lead))))
          else Raise einsum_size_error
      | [] => Raise einsum_shape_error
      end
  | _ => Raise einsum_shape_error
  end.

(** [torch.einsum("...d,nd->...n", acts, weight_matrix)] *)
Definition einsum_nd (acts w : tensor) : result tensor :=
  match shape w with
  | [n; d] =>
      match rev (shape acts) with
      | d' :: lead =>
          if contractible d' d then
            Ok (Tensor (rev lead ++ [n])
                  (flat_map (fun i =>
                     map (fun j => bdot d' d (slice i d' (data acts))
                                             (slice j d (data w)))
                         (seq 0 n))
                     (seq 0 (numel lead))))
          else Raise einsum_size_error
      | [] => Raise einsum_shape_error
      end
  | _ => Raise einsum_shape_error
  end.

(** [torch.matmul(x, direction)] for a one-dimensional right operand, the
    shape every [fit] below produces; other ranks of the right operand are
    outside this embedding and reported as a shape error. *)
Definition matmul_vec (x direction : tensor) : result tensor :=
  match shape direction with
  | [d] =>
      match rev (shape x) with
      | d' :: lead =>
          if Nat.eqb d' d then
            Ok (Tensor (rev lead)
                  (map (fun i => bdot d' d (slice i d' (data x)) (data direction))
                       (seq 0 (numel lead))))
          else Raise (Exn RuntimeError "size mismatch")
      | [] => Raise (Exn RuntimeError "both arguments to matmul need to be at least 1D")
      end
  | _ => Raise (Exn RuntimeError "matmul: right operand is not a vector")
  end.

Definition same_shape (s : list nat) (t : tensor) : bool :=
  bool_decide (shape t = s).

(** [torch.stack(ts)]: a new leading dimension. *)
Definition stack (ts : list tensor) : result tensor :=
  match ts with
  | [] => Raise (Exn RuntimeError "stack expects a non-empty TensorList")
  | t :: _ =>
      if forallb (same_shape (shape t)) ts then
        Ok (Tensor (length ts :: shape t) (flat_map data ts))
      else Raise (Exn RuntimeError "stack expects each tensor to be equal size")
  end.

(** [torch.stack(ts, dim=-1)]: a new trailing dimension. *)
Definition stack_last (ts : list tensor) : result tensor :=
  match ts with
  | [] => Raise (Exn RuntimeError "stack expects a non-empty TensorList")
  | t :: _ =>
      if forallb (same_shape (shape t)) ts then
        Ok (Tensor (shape t ++ [length ts])
              (flat_map (fun i => map (fun u => at_ (data u) i) ts)
                        (seq 0 (numel (shape t)))))
      else Raise (Exn RuntimeError "stack expects each tensor to be equal size")
  end.

(** [y == c]: the boolean mask, in the shape of [y]. *)
Definition eq_mask (y : tensor) (c : R) : list bool :=
  map (fun v => bool_decide (v = c)) (data y).

Fixpoint select_rows (m : nat) (mask : list bool) (l : list R) : list (list R) :=
  match mask with
  | [] => []
  | b :: mask' =>
      (if b then [firstn m l] else []) ++ select_rows m mask' (skipn m l)
  end.

(** [x[mask]] for a boolean mask whose shape [ms] is a prefix of that of
    [x]: the selected blocks, stacked along a new leading dimension. *)
Definition index_mask (x : tensor) (ms : list nat) (mask : list bool) : result tensor :=
  let rest := skipn (length ms) (shape x) in
  if bool_decide (firstn (length ms) (shape x) = ms) then
    let rows := select_rows (numel rest) mask (data x) in
    Ok (Tensor (length rows :: rest) (concat rows))
  else Raise (Exn IndexError "The shape of the mask does not match the shape of the indexed tensor").

(** [t.mean(dim=0)].  For a leading dimension of size 0 torch returns NaN
    in every entry, which a real number cannot hold: the value here (0) is
    then not the one of the code, and the statements that go through
    [mean0] assume a leading dimension that is not 0. *)
Definition mean0 (t : tensor) : result tensor :=
  match shape t with
  | n :: rest =>
      let m := numel rest in
      Ok (Tensor rest
            (map (fun j => (rsum (map (fun i => at_ (data t) (i * m + j)) (seq 0 n))
                            / INR n)%R)
                 (seq 0 m)))
  | [] => Raise (Exn IndexError "Dimension out of range")
  end.

(** [t[i]] for an integer [i]: block [i] along the leading dimension. *)
Definition index0 (t : tensor) (i : nat) : result tensor :=
  match shape t with
  | n :: rest =>
      if Nat.ltb i n then Ok (Tensor rest (slice i (numel rest) (data t)))
      else Raise (Exn IndexError "index out of bounds")
  | [] => Raise (Exn IndexError "too many indices")
  end.

Definition tmul : tensor -> tensor -> result tensor := broadcast2 Rmult.

(** [np.mean(t)]: the mean of all entries. *)
Definition mean_all (t : tensor) : R := (rsum (data t) / INR (length (data t)))%R.

Fixpoint argmax_from (best_i : nat) (best : R) (i : nat) (l : list R) : nat :=
  match l with
  | [] => best_i
  | v :: l' =>
      if Rlt_dec best v then argmax_from i v (S i) l'
      else argmax_from best_i best (S i) l'
  end.

Fixpoint argmin_from (best_i : nat) (best : R) (i : nat) (l : list R) : nat :=
  match l with
  | [] => best_i
  | v :: l' =>
      if Rlt_dec v best then argmin_from i v (S i) l'
      else argmin_from best_i best (S i) l'
  end.

(** [np.argmax(l)] and [np.argmin(l)]: the first position of an extremum. *)
Definition argmax (l : list R) : result nat :=
  match l with
  | [] => Raise (Exn ValueError "attempt to get argmax of an empty sequence")
  | v :: l' => Ok (argmax_from 0 v 1 l')
  end.
Definition argmin (l : list R) : result nat :=
  match l with
  | [] => Raise (Exn ValueError "attempt to get argmin of an empty sequence")
  | v :: l' => Ok (argmin_from 0 v 1 l')
  end.

(** [np.dot(x, components.T)] for matrices [x] of shape [N, d] and
    [components] of shape [c, d]: entry [(i, j)] is the projection of row
    [i] of [x] on component [j]. *)
Definition dot_transposed (x components : tensor) : result tensor :=
  match shape x, shape components with
  | [n; d], [c; d'] =>
      if Nat.eqb d d' then
        Ok (Tensor [n; c]
              (flat_map (fun i =>
                 map (fun j => bdot d d (slice i d (data x))
                                        (slice j d (data components)))
                     (seq 0 c))
                 (seq 0 n)))
      else Raise (Exn ValueError "shapes not aligned")
  | _, _ => Raise (Exn ValueError "shapes not aligned")
  end.

(** Row [j] of [t.T] for a matrix [t]: its column [j]. *)
Definition column (t : tensor) (j : nat) : list R :=
  match shape t with
  | [n; c] => map (fun i => at_ (data t) (i * c + j)) (seq 0 n)
  | _ => []
  end.

Definition mean_list (l : list R) : R := (rsum l / INR (length l))%R.

(** Entry [(0, 1)] of [np.corrcoef(a, b)] for two vectors of one length:
    the covariance over the product of the standard deviations, clipped to
    [-1, 1].  With fewer than two entries, or when one of the two vectors
    is constant, numpy divides zero by zero and returns NaN: the value here
    (0) is then not the one of the code, and the statements that go through
    [corrcoef01] assume two entries at least and two vectors that vary, or
    a value that is not 0. *)
Definition corrcoef01 (a b : list R) : R :=
  let da := map (fun v => (v - mean_list a)%R) a in
  let db := map (fun v => (v - mean_list b)%R) b in
  let ddof := INR (length a - 1) in
  let c00 := (sumsq da / ddof)%R in
  let c11 := (sumsq db / ddof)%R in
  let c01 := (rsum (zip_with Rmult da db) / ddof)%R in
  Rmax (-1) (Rmin 1 (c01 / sqrt c00 / sqrt c11)).

(** [np.sign] *)
Definition sign (v : R) : R :=
  if Rlt_dec v 0 then (-1)%R else if Rlt_dec 0 v then 1%R else 0%R.

(** [t.tolist()] *)
Fixpoint tolist_aux (s : list nat) (d : list R) : json :=
  match s with
  | [] => JNum (at_ d 0)
  | n :: s' =>
      JList (map (fun i => tolist_aux s' (slice i (numel s') d)) (seq 0 n))
  end.
Definition tolist (t : tensor) : json := tolist_aux (shape t) (data t).

(** Stacking the already converted elements of a nested list. *)
Definition stack_parsed (rs : list (result tensor)) : result tensor :=
  match rs with
  | [] => Ok (Tensor [0] [])
  | _ =>
      ts <- traverse (fun r => r) rs;;
      match stack ts with
      | Ok t => Ok t
      | Raise _ => Raise (Exn ValueError "expected sequence of equal length")
      end
  end.

(** [torch.tensor(v)] on a value read from JSON: the values and the
    shape.  The element type of a tensor is not represented: a list of JSON
    integers (or booleans) gives the tensor of their values, which torch
    holds as int64 (or bool) and on which the floating-point operations of
    a later [get_direction] or [encode] can raise; the statements below are
    about documents whose numbers are floats, as [tolist] writes them.
    [None] and a dict raise RuntimeError ("Could not infer dtype"), a
    string TypeError (for a string at the head of a list torch reports
    ValueError instead). *)
Fixpoint tensor_of_json (v : json) : result tensor :=
  match v with
  | JNum x => Ok (scalar x)
  | JInt n => Ok (scalar (IZR n))
  | JBool b => Ok (scalar (if b then 1%R else 0%R))
  | JList l => stack_parsed (map tensor_of_json l)
  | JStr _ => Raise (Exn TypeError "new(): invalid data type 'str'")
  | JNull | JObj _ => Raise (Exn RuntimeError "Could not infer dtype")
  end.

(* ===================================================================== *)
(** ** Configurations                                                      *)
(* ===================================================================== *)

(** The fields a configuration dataclass adds to [ProbeConfig]. *)
Inductive config_ext : Type :=
  | BaseCfg
  | LinearCfg (loss_type : string) (normalize_weights bias : bool) (output_size : nat)
  | LogisticCfg (normalize_weights bias : bool) (output_size : nat)
  | KMeansCfg (n_clusters n_init : nat) (normalize_weights : bool) (random_state : Z)
  | PCACfg (n_components : nat) (normalize_weights : bool)
  | MeanDiffCfg (normalize_weights : bool).

Record ProbeConfig : Type := {
  input_size : nat;
  device : string;
  model_name : string;
  hook_point : string;
  hook_layer : Z;
  hook_head_index : option Z;
  name : string;
  dataset_path : option string;
  prepend_bos : bool;
  context_size : Z;
  dtype : string;
  additional_info : gmap string json;
  ext : config_ext
}.

Definition set_additional_info (c : ProbeConfig) (ai : gmap string json) : ProbeConfig :=
  {| input_size := input_size c; device := device c; model_name := model_name c;
     hook_point := hook_point c; hook_layer := hook_layer c;
     hook_head_index := hook_head_index c; name := name c;
     dataset_path := dataset_path c; prepend_bos := prepend_bos c;
     context_size := context_size c; dtype := dtype c;
     additional_info := ai; ext := ext c |}.

(** The dataclass defaults; the default device depends on the machine. *)
Definition default_config (cuda_available : bool) (dim : nat) (e : config_ext) : ProbeConfig :=
  {| input_size := dim;
     device := if cuda_available then "cuda" else "cpu";
     model_name := "unknown_model"; hook_point := "unknown_hook";
     hook_layer := 0; hook_head_index := None; name := "unnamed_probe";
     dataset_path := None; prepend_bos := true; context_size := 128;
     dtype := "float32"; additional_info := ∅; ext := e |}.

Definition no_attribute (a : string) : exn := Exn AttributeError a.

Definition cfg_normalize_weights (c : ProbeConfig) : result bool :=
  match ext c with
  | BaseCfg => Raise (no_attribute "normalize_weights")
  | LinearCfg _ n _ _ | LogisticCfg n _ _ | KMeansCfg _ _ n _
  | PCACfg _ n | MeanDiffCfg n => Ok n
  end.

Definition cfg_output_size (c : ProbeConfig) : result nat :=
  match ext c with
  | LinearCfg _ _ _ o | LogisticCfg _ _ o => Ok o
  | _ => Raise (no_attribute "output_size")
  end.

Definition cfg_bias (c : ProbeConfig) : result bool :=
  match ext c with
  | LinearCfg _ _ b _ | LogisticCfg _ b _ => Ok b
  | _ => Raise (no_attribute "bias")
  end.

Definition cfg_kmeans (c : ProbeConfig) : result (nat * nat * Z) :=
  match ext c with
  | KMeansCfg k n _ r => Ok (k, n, r)
  | PCACfg _ _ | MeanDiffCfg _ | BaseCfg | LinearCfg _ _ _ _ | LogisticCfg _ _ _ =>
      Raise (no_attribute "n_clusters")
  end.

Definition cfg_n_components (c : ProbeConfig) : result nat :=
  match ext c with
  | PCACfg n _ => Ok n
  | _ => Raise (no_attribute "n_components")
  end.

(* ===================================================================== *)
(** ** Probes                                                              *)
(* ===================================================================== *)

Inductive probe_class : Set :=
  | LinearProbe | LogisticProbe | KMeansProbe | PCAProbe | MeanDifferenceProbe.

Definition class_name (k : probe_class) : string :=
  match k with
  | LinearProbe => "LinearProbe"
  | LogisticProbe => "LogisticProbe"
  | KMeansProbe => "KMeansProbe"
  | PCAProbe => "PCAProbe"
  | MeanDifferenceProbe => "MeanDifferenceProbe"
  end.

(** The two classes trained by gradient descent own an [nn.Linear]. *)
Definition gradient_based (k : probe_class) : bool :=
  match k with
  | LinearProbe | LogisticProbe => true
  | _ => false
  end.

(** [nn.Linear]: the weight of shape [out, in] and the optional bias. *)
Record Linear : Type := { weight : tensor; bias : option tensor }.

(** The state of a probe object.  [linear], [feature_mean], [feature_std]
    and [direction] are [None] both when the attribute is absent and when
    it holds Python's [None]; the scikit-learn estimators are not part of
    the state. *)
Record probe : Type := {
  cls : probe_class;
  config : ProbeConfig;
  probe_name : string;
  linear : option Linear;
  feature_mean : option tensor;
  feature_std : option tensor;
  direction : option tensor
}.

Definition set_config (p : probe) (c : ProbeConfig) : probe :=
  {| cls := cls p; config := c; probe_name := probe_name p; linear := linear p;
     feature_mean := feature_mean p; feature_std := feature_std p;
     direction := direction p |}.
Definition set_name (p : probe) (n : string) : probe :=
  {| cls := cls p; config := config p; probe_name := n; linear := linear p;
     feature_mean := feature_mean p; feature_std := feature_std p;
     direction := direction p |}.
Definition set_linear (p : probe) (l : option Linear) : probe :=
  {| cls := cls p; config := config p; probe_name := probe_name p; linear := l;
     feature_mean := feature_mean p; feature_std := feature_std p;
     direction := direction p |}.
Definition set_feature_mean (p : probe) (t : option tensor) : probe :=
  {| cls := cls p; config := config p; probe_name := probe_name p; linear := linear p;
     feature_mean := t; feature_std := feature_std p; direction := direction p |}.
Definition set_feature_std (p : probe) (t : option tensor) : probe :=
  {| cls := cls p; config := config p; probe_name := probe_name p; linear := linear p;
     feature_mean := feature_mean p; feature_std := t; direction := direction p |}.
Definition set_direction (p : probe) (t : option tensor) : probe :=
  {| cls := cls p; config := config p; probe_name := probe_name p; linear := linear p;
     feature_mean := feature_mean p; feature_std := feature_std p; direction := t |}.

(** [BaseProbe.__init__]: [config.name or "unnamed_probe"]. *)
Definition base_name (c : ProbeConfig) : string :=
  if String.eqb (name c) "" then "unnamed_probe" else name c.

Definition base_init (k : probe_class) (c : ProbeConfig) : probe :=
  {| cls := k; config := c; probe_name := base_name c; linear := None;
     feature_mean := None; feature_std := None; direction := None |}.

(** [__init__] of the five classes.  [init i] is the [i]-th value drawn by
    [kaiming_uniform_] for a [LinearProbe]; a [LogisticProbe] starts from
    zero weights, and every bias from zero. *)
Definition new (k : probe_class) (init : nat -> R) (c : ProbeConfig) : result probe :=
  let p := base_init k c in
  match k with
  | LinearProbe =>
      o <- cfg_output_size c;;
      b <- cfg_bias c;;
      Ok (set_linear p (Some
        {| weight := Tensor [o; input_size c] (map init (seq 0 (o * input_size c)));
           bias := if b then Some (zeros [o]) else None |}))
  | LogisticProbe =>
      o <- cfg_output_size c;;
      b <- cfg_bias c;;
      Ok (set_linear p (Some
        {| weight := zeros [o; input_size c];
           bias := if b then Some (zeros [o]) else None |}))
  | KMeansProbe => _ <- cfg_kmeans c;; Ok p
  | PCAProbe => _ <- cfg_n_components c;; Ok p
  | MeanDifferenceProbe => Ok p
  end.

Definition not_fitted (method : string) : exn :=
  Exn RuntimeError ("Must call fit() before " ++ method ++ "()").

(** The exceptions the spec calls NotFitted. *)
Definition is_not_fitted (e : exn) : bool :=
  match exn_cls e with
  | RuntimeError => String.prefix "Must call fit() before " (exn_msg e)
  | _ => false
  end.

Definition self_linear (p : probe) : result Linear :=
  match linear p with
  | Some l => Ok l
  | None => Raise (no_attribute "linear")
  end.

(** [additional_info.get(flag, False)], as a condition. *)
Definition flag (c : ProbeConfig) (k : string) : bool :=
  truthy (default (JBool false) (additional_info c !! k)).

(** The first transform of [get_direction]: division by the standardisation
    scale, unless the direction is flagged as already unscaled. *)
Definition unscale (p : probe) (direction : tensor) : result tensor :=
  match feature_std p with
  | Some std =>
      if negb (flag (config p) "is_unscaled") then tdiv direction (squeeze std)
      else Ok direction
  | None => Ok direction
  end.

(** The second transform: division by the norm plus [1e-8], per output row
    when there are several, unless flagged as already normalised. *)
Definition normalize_direction (p : probe) (direction : tensor) : result tensor :=
  nw <- cfg_normalize_weights (config p);;
  if nw && negb (flag (config p) "is_normalized") then
    o <- cfg_output_size (config p);;
    if Nat.ltb 1 o then
      norms <- norm_dim1 direction;;
      tdiv direction (add_scalar norms eps)
    else tdiv direction (add_scalar (norm direction) eps)
  else Ok direction.

(** [LinearProbe.get_direction] and [LogisticProbe.get_direction] (the two
    bodies are the same). *)
Definition gradient_get_direction (p : probe) : result tensor :=
  lin <- self_linear p;;
  direction <- unscale p (weight lin);;
  direction <- normalize_direction p direction;;
  o <- cfg_output_size (config p);;
  Ok (if Nat.eqb o 1 then squeeze0 direction else direction).

(** [get_direction] of [KMeansProbe], [PCAProbe] and [MeanDifferenceProbe]. *)
Definition fitted_get_direction (p : probe) : result tensor :=
  match direction p with
  | None => Raise (not_fitted "get_direction")
  | Some d => Ok d
  end.

Definition get_direction (p : probe) : result tensor :=
  if gradient_based (cls p) then gradient_get_direction p
  else fitted_get_direction p.

(** [BaseProbe.encode] *)
Definition encode (p : probe) (acts : tensor) : result tensor :=
  direction <- get_direction p;;
  einsum_d acts direction.

(** [forward] of [KMeansProbe], [PCAProbe] and [MeanDifferenceProbe]. *)
Definition fitted_forward (p : probe) (x : tensor) : result tensor :=
  match direction p with
  | None => Raise (not_fitted "forward")
  | Some d => matmul_vec x d
  end.

(** [MeanDifferenceProbe.fit] *)
Definition MeanDifferenceProbe_fit (p : probe) (x y : tensor) : result probe :=
  let pos_mask := eq_mask y 1 in
  let neg_mask := eq_mask y 0 in
  x_pos <- index_mask x (shape y) pos_mask;;
  pos_mean <- mean0 x_pos;;
  x_neg <- index_mask x (shape y) neg_mask;;
  neg_mean <- mean0 x_neg;;
  direction <- tsub pos_mean neg_mean;;
  nw <- cfg_normalize_weights (config p);;
  direction <- (if nw then tdiv direction (add_scalar (norm direction) eps)
                else Ok direction);;
  Ok (set_direction p (Some direction)).

(** The label mean of every cluster, the loop of [KMeansProbe.fit]:
    a cluster without members keeps the initial 0. *)
Definition cluster_label (labels : list nat) (y : tensor) (i : nat) : result R :=
  let mask := map (Nat.eqb i) labels in
  if existsb (fun b => b) mask then
    members <- index_mask y [length labels] mask;;
    Ok (mean_all members)
  else Ok 0%R.

(** [KMeansProbe.fit].  [kmeans] stands for [self.kmeans.fit]: applied to
    the activations it returns [cluster_centers_] and [labels_], or raises. *)
Definition KMeansProbe_fit (kmeans : tensor -> result (tensor * list nat))
    (p : probe) (x y : tensor) : result probe :=
  fitted <- kmeans x;;
  let centroids := fst fitted in
  let labels := snd fitted in
  cfg <- cfg_kmeans (config p);;
  let n_clusters := fst (fst cfg) in
  cluster_labels <- traverse (cluster_label labels y) (seq 0 n_clusters);;
  i_pos <- argmax cluster_labels;;
  pos_centroid <- index0 centroids i_pos;;
  i_neg <- argmin cluster_labels;;
  neg_centroid <- index0 centroids i_neg;;
  direction <- tsub pos_centroid neg_centroid;;
  nw <- cfg_normalize_weights (config p);;
  direction <- (if nw then tdiv direction (add_scalar (norm direction) eps)
                else Ok direction);;
  Ok (set_direction p (Some direction)).

(** [np.sign(np.corrcoef(proj, y)[0, 1])] for one projection.  The labels
    have to be a vector as long as the projection (the input contract);
    other shapes are rejected here. *)
Definition correlation_sign (y : tensor) (proj : list R) : result R :=
  match shape y with
  | [n] =>
      if Nat.eqb n (length proj) then Ok (sign (corrcoef01 proj (data y)))
      else Raise (Exn ValueError "all the input array dimensions must match")
  | _ => Raise (Exn ValueError "all the input array dimensions must match")
  end.

(** [PCAProbe.fit].  [pca] stands for [self.pca.fit]: applied to the
    activations it returns [components_], or raises. *)
Definition PCAProbe_fit (pca : tensor -> result tensor)
    (p : probe) (x y : tensor) : result probe :=
  components <- pca x;;
  projections <- dot_transposed x components;;
  n_components <- shape0 components;;
  signs <- traverse (fun j => correlation_sign y (column projections j))
                    (seq 0 n_components);;
  components <- tmul components (Tensor [length signs; 1] signs);;
  direction <- index0 components 0;;
  nw <- cfg_normalize_weights (config p);;
  direction <- (if nw then tdiv direction (add_scalar (norm direction) eps)
                else Ok direction);;
  Ok (set_direction p (Some direction)).

(* ===================================================================== *)
(** ** Binary persistence                                                  *)
(* ===================================================================== *)

(** [state_dict()]: the parameters of [linear] and the registered buffers
    that are not [None].  An entry is [None] when its key is absent. *)
Record state_dict : Type := {
  sd_weight : option tensor;        (* "linear.weight" *)
  sd_bias : option tensor;          (* "linear.bias" *)
  sd_feature_mean : option tensor;  (* "feature_mean" *)
  sd_feature_std : option tensor    (* "feature_std" *)
}.

Definition get_state_dict (p : probe) : state_dict :=
  {| sd_weight := match linear p with Some l => Some (weight l) | None => None end;
     sd_bias := match linear p with Some l => bias l | None => None end;
     sd_feature_mean := feature_mean p;
     sd_feature_std := feature_std p |}.

(** One key of [load_state_dict] in its default strict mode: [expected] is
    the entry of the receiving module, [given] the one of the loaded
    dictionary. *)
Definition load_entry (expected given : option tensor) : result (option tensor) :=
  match expected, given with
  | Some e, Some g =>
      if bool_decide (shape e = shape g) then Ok (Some g)
      else Raise (Exn RuntimeError "size mismatch")
  | Some _, None => Raise (Exn RuntimeError "Missing key(s) in state_dict")
  | None, Some _ => Raise (Exn RuntimeError "Unexpected key(s) in state_dict")
  | None, None => Ok None
  end.

Definition load_state_dict (p : probe) (sd : state_dict) : result probe :=
  let own := get_state_dict p in
  w <- load_entry (sd_weight own) (sd_weight sd);;
  b <- load_entry (sd_bias own) (sd_bias sd);;
  m <- load_entry (sd_feature_mean own) (sd_feature_mean sd);;
  s <- load_entry (sd_feature_std own) (sd_feature_std sd);;
  let p1 := match w with
            | Some w' => set_linear p (Some {| weight := w'; bias := b |})
            | None => p
            end in
  Ok (set_feature_std (set_feature_mean p1 m) s).

(** The dictionary [save] hands to [torch.save].  A key that another writer
    may have left out is an option. *)
Record checkpoint : Type := {
  ck_state_dict : option state_dict;
  ck_config : ProbeConfig;
  ck_direction : option tensor;
  ck_probe_type : string
}.

(** The [additional_info] that [save] and [save_json] assemble: a copy of
    the one in the configuration, with the buffers and the bias added. *)
Definition collect_additional_info (p : probe) : gmap string json :=
  let ai := additional_info (config p) in
  let ai := match feature_mean p with
            | Some t => <["feature_mean" := tolist t]> ai
            | None => ai
            end in
  let ai := match feature_std p with
            | Some t => <["feature_std" := tolist t]> ai
            | None => ai
            end in
  match linear p with
  | Some {| bias := Some b |} => <["bias" := tolist b]> ai
  | _ => ai
  end.

(** [BaseProbe.save]: the probe after the call, and the file contents. *)
Definition save (p : probe) : result (probe * checkpoint) :=
  direction <- get_direction p;;
  let p' := set_config p (set_additional_info (config p) (collect_additional_info p)) in
  Ok (p', {| ck_state_dict := Some (get_state_dict p');
             ck_config := config p';
             ck_direction := Some direction;
             ck_probe_type := class_name (cls p') |}).

(** [path.endswith(suffix)] *)
Definition endswith (path suffix : string) : bool :=
  let n := String.length path in
  let k := String.length suffix in
  Nat.leb k n && String.eqb (substring (n - k) k path) suffix.

(* ===================================================================== *)
(** ** Paths                                                               *)
(* ===================================================================== *)

(** The character [/] occurs in [s]. *)
Fixpoint has_slash (s : string) : bool :=
  match s with
  | EmptyString => false
  | String c s' => Ascii.eqb c "/" || has_slash s'
  end.

(** [s[:s.rfind("/") + 1]]: [s] up to its last [/], empty without one. *)
Fixpoint upto_last_slash (s : string) : string :=
  match s with
  | EmptyString => EmptyString
  | String c s' =>
      if has_slash s' then String c (upto_last_slash s')
      else if Ascii.eqb c "/" then String c EmptyString
      else EmptyString
  end.

(** [s.rstrip("/")] *)
Fixpoint rstrip_slashes (s : string) : string :=
  match s with
  | EmptyString => EmptyString
  | String c s' =>
      match rstrip_slashes s' with
      | EmptyString => if Ascii.eqb c "/" then EmptyString else String c EmptyString
      | String c' r => String c (String c' r)
      end
  end.

(** [os.path.dirname(path)] on a POSIX system: the path up to its last
    [/], without its trailing slashes unless it consists of slashes. *)
Definition dirname (path : string) : string :=
  let head := upto_last_slash path in
  match rstrip_slashes head with
  | EmptyString => head
  | String c r => String c r
  end.

(** [os.makedirs(name, exist_ok=True)], as far as its outcome is the same
    on every file system: the empty name, which [dirname] returns for a
    path without a directory part, raises FileNotFoundError.  Any other
    directory is assumed to exist or to be creatable. *)
Definition makedirs (name : string) : result unit :=
  if String.eqb name "" then
    Raise (Exn FileNotFoundError "[Errno 2] No such file or directory")
  else Ok tt.

(* ===================================================================== *)
(** ** JSON persistence                                                    *)
(* ===================================================================== *)

Definition opt_json {A : Type} (f : A -> json) (o : option A) : json :=
  match o with
  | Some a => f a
  | None => JNull
  end.

(** [BaseProbe.save_json]: the path written to and the document written.
    The folder of the path is created before anything is read of the
    probe, which fails for a path without a directory part; the file
    itself is assumed writable. *)
Definition save_json (p : probe) (path : string) : result (string * json) :=
  let path := if endswith path ".json" then path else (path ++ ".json")%string in
  _ <- makedirs (dirname path);;
  lin <- self_linear p;;
  let raw_weight := squeeze0 (weight lin) in
  dim <- shape0 raw_weight;;
  let c := config p in
  let additional_info :=
    <["is_unscaled" := JBool true]>
      (<["is_normalized" := JBool true]> (collect_additional_info p)) in
  let metadata : gmap string json :=
    <["additional_info" := JObj additional_info]>
    (<["device" := JStr (device c)]>
    (<["dtype" := JStr (dtype c)]>
    (<["context_size" := JInt (context_size c)]>
    (<["prepend_bos" := JBool (prepend_bos c)]>
    (<["dataset_path" := opt_json JStr (dataset_path c)]>
    (<["probe_type" := JStr (class_name (cls p))]>
    (<["vector_dimension" := JInt (Z.of_nat dim)]>
    (<["vector_name" := JStr (probe_name p)]>
    (<["hook_head_index" := opt_json JInt (hook_head_index c)]>
    (<["hook_layer" := JInt (hook_layer c)]>
    (<["hook_point" := JStr (hook_point c)]>
    (<["model_name" := JStr (model_name c)]> ∅)))))))))))) in
  Ok (path, JObj (<["metadata" := JObj metadata]>
                 (<["vector" := tolist raw_weight]> ∅))).

(** The configuration fields are typed in this embedding, while Python would
    store whatever JSON value the metadata holds.  A metadata field of
    another JSON type is rejected here with this error; no statement below
    rests on that case. *)
Definition ill_typed (k : string) : exn := Exn TypeError k.

(** [metadata.get(k)] *)
Definition md_get (metadata : json) (k : string) : result (option json) :=
  match metadata with
  | JObj m => Ok (m !! k)
  | _ => Raise (no_attribute "get")
  end.

Definition get_str (md : json) (k dflt : string) : result string :=
  v <- md_get md k;;
  match v with
  | None => Ok dflt
  | Some (JStr s) => Ok s
  | Some _ => Raise (ill_typed k)
  end.

Definition get_int (md : json) (k : string) (dflt : Z) : result Z :=
  v <- md_get md k;;
  match v with
  | None => Ok dflt
  | Some (JInt n) => Ok n
  | Some _ => Raise (ill_typed k)
  end.

Definition get_bool (md : json) (k : string) (dflt : bool) : result bool :=
  v <- md_get md k;;
  match v with
  | None => Ok dflt
  | Some (JBool b) => Ok b
  | Some _ => Raise (ill_typed k)
  end.

Definition get_opt_int (md : json) (k : string) : result (option Z) :=
  v <- md_get md k;;
  match v with
  | None | Some JNull => Ok None
  | Some (JInt n) => Ok (Some n)
  | Some _ => Raise (ill_typed k)
  end.

Definition get_opt_str (md : json) (k : string) : result (option string) :=
  v <- md_get md k;;
  match v with
  | None | Some JNull => Ok None
  | Some (JStr s) => Ok (Some s)
  | Some _ => Raise (ill_typed k)
  end.

Definition get_dict (md : json) (k : string) : result (gmap string json) :=
  v <- md_get md k;;
  match v with
  | None => Ok ∅
  | Some (JObj m) => Ok m
  | Some _ => Raise (ill_typed k)
  end.

(** The configuration dataclass [load_json] instantiates for each class. *)
Definition default_ext (k : probe_class) : config_ext :=
  match k with
  | LinearProbe => LinearCfg "mse" true false 1
  | LogisticProbe => LogisticCfg true true 1
  | KMeansProbe => KMeansCfg 2 10 true 42
  | PCAProbe => PCACfg 1 true
  | MeanDifferenceProbe => MeanDiffCfg true
  end.

(** The configuration built from the metadata of the current format. *)
Definition config_of_metadata (k : probe_class) (dim : nat) (md : json) : result ProbeConfig :=
  model_name <- get_str md "model_name" "unknown_model";;
  hook_point <- get_str md "hook_point" "unknown_hook";;
  hook_layer <- get_int md "hook_layer" 0;;
  hook_head_index <- get_opt_int md "hook_head_index";;
  name <- get_str md "vector_name" "unnamed_probe";;
  dataset_path <- get_opt_str md "dataset_path";;
  prepend_bos <- get_bool md "prepend_bos" true;;
  context_size <- get_int md "context_size" 128;;
  dtype <- get_str md "dtype" "float32";;
  device <- get_str md "device" "cpu";;
  ai <- get_dict md "additional_info";;
  let ai := match ai !! "is_normalized" with
            | None => <["is_unscaled" := JBool true]> (<["is_normalized" := JBool true]> ai)
            | Some _ => ai
            end in
  Ok {| input_size := dim; device := device; model_name := model_name;
        hook_point := hook_point; hook_layer := hook_layer;
        hook_head_index := hook_head_index; name := name;
        dataset_path := dataset_path; prepend_bos := prepend_bos;
        context_size := context_size; dtype := dtype;
        additional_info := ai; ext := default_ext k |}.

(** Reading the local variable [metadata], which only the branch of the
    current format assigns. *)
Definition read_metadata (metadata : option json) : result json :=
  match metadata with
  | Some md => Ok md
  | None => Raise (Exn UnboundLocalError "metadata")
  end.

(** [k in md and k' in md[k]] *)
Definition has_nested (md : json) (k k' : string) : result bool :=
  b <- py_in k md;;
  if b then (inner <- py_item k md;; py_in k' inner) else Ok false.

(** [torch.tensor(md[k][k'])] *)
Definition nested_tensor (md : json) (k k' : string) : result tensor :=
  inner <- py_item k md;;
  v <- py_item k' inner;;
  tensor_of_json v.

(** The first half of [load_json]: the vector, the metadata if the branch
    taken binds it, and the configuration. *)
Definition parse_document (cuda_available : bool) (k : probe_class) (doc : json)
    (config : option ProbeConfig) : result (tensor * option json * ProbeConfig) :=
  has_vector <- py_in "vector" doc;;
  new_format <- (if has_vector then py_in "metadata" doc else Ok false);;
  if new_format then
    v <- py_item "vector" doc;;
    vector <- tensor_of_json v;;
    metadata <- py_item "metadata" doc;;
    config <- match config with
              | Some c => Ok c
              | None => dim <- shape0 vector;; config_of_metadata k dim metadata
              end;;
    Ok (vector, Some metadata, config)
  else
    has_vectors <- py_in "vectors" doc;;
    vectors_list <- (if has_vectors then (vs <- py_item "vectors" doc;; Ok (is_list vs))
                     else Ok false);;
    vector <-
      (if vectors_list then
         vs <- py_item "vectors" doc;; v <- py_item0 vs;; tensor_of_json v
       else
         has_direction <- py_in "direction" doc;;
         if has_direction then (v <- py_item "direction" doc;; tensor_of_json v)
         else if is_list doc then tensor_of_json doc
         else Raise (Exn ValueError "Unrecognized JSON format"));;
    config <- match config with
              | Some c => Ok c
              | None => dim <- shape0 vector;; Ok (default_config cuda_available dim BaseCfg)
              end;;
    Ok (vector, None, config).

(** The second half: the probe is built and the vector, the bias and the
    buffers are set on it. *)
Definition install_vector (k : probe_class) (init : nat -> R) (vector : tensor)
    (metadata : option json) (config : ProbeConfig) : result probe :=
  probe <- new k init config;;
  probe <-
    match linear probe with
    | Some lin =>
        let lin := {| weight := unsqueeze0 vector; bias := bias lin |} in
        match bias lin with
        | Some _ =>
            md <- read_metadata metadata;;
            has_bias <- has_nested md "additional_info" "bias";;
            if has_bias then
              bias_data <- nested_tensor md "additional_info" "bias";;
              Ok (set_linear probe (Some {| weight := weight lin; bias := Some bias_data |}))
            else Ok (set_linear probe (Some lin))
        | None => Ok (set_linear probe (Some lin))
        end
    | None => Ok (set_direction probe (Some vector))
    end;;
  md <- read_metadata metadata;;
  has_info <- py_in "additional_info" md;;
  probe <-
    (if has_info then
       info <- py_item "additional_info" md;;
       has_mean <- py_in "feature_mean" info;;
       probe <- (if has_mean then
                   mean_data <- nested_tensor md "additional_info" "feature_mean";;
                   Ok (set_feature_mean probe (Some mean_data))
                 else Ok probe);;
       has_std <- py_in "feature_std" info;;
       if has_std then
         std_data <- nested_tensor md "additional_info" "feature_std";;
         Ok (set_feature_std probe (Some std_data))
       else Ok probe
     else Ok probe);;
  Ok (set_name probe (name config)).

(** [BaseProbe.load_json], as a class method of class [k], on the document
    read from the file. *)
Definition load_json (cuda_available : bool) (k : probe_class) (init : nat -> R)
    (doc : json) (config : option ProbeConfig) : result probe :=
  parsed <- parse_document cuda_available k doc config;;
  let '(vector, metadata, config) := parsed in
  install_vector k init vector metadata config.

(** What a path holds: a file written by [torch.save] or a JSON file. *)
Inductive file : Type :=
  | Pickled (data : checkpoint)
  | JsonText (doc : json).

(** [BaseProbe.load], as a class method of class [k]. *)
Definition load (cuda_available : bool) (k : probe_class) (init : nat -> R)
    (path : string) (f : file) : result probe :=
  if endswith path ".json" then
    match f with
    | JsonText doc => load_json cuda_available k init doc None
    | Pickled _ => Raise (Exn ValueError "the file is not a JSON document")
    end
  else
    match f with
    | JsonText _ => Raise (Exn UnpicklingError "invalid load key")
    | Pickled data =>
        probe <- new k init (ck_config data);;
        probe <-
          match ck_state_dict data with
          | Some sd => load_state_dict probe sd
          | None =>
              match ck_direction data with
              | Some direction =>
                  match linear probe with
                  | Some lin =>
                      Ok (set_linear probe
                            (Some {| weight := unsqueeze0 direction; bias := bias lin |}))
                  | None => Ok (set_direction probe (Some direction))
                  end
              | None => Ok probe
              end
          end;;
        Ok (set_name probe (name (ck_config data)))
    end.

(* ===================================================================== *)
(** ** ProbeSet                                                            *)
(* ===================================================================== *)

(** The three convenience attributes exist only when the list of probes is
    not empty. *)
Record ProbeSet : Type := {
  probes : list probe;
  set_model_name : option string;
  set_hook_point : option string;
  set_hook_layer : option Z
}.

(** [ProbeSet.__init__] *)
Definition ProbeSet_init (ps : list probe) : result ProbeSet :=
  dims <- traverse (fun p => d <- get_direction p;; shape0 d) ps;;
  if Nat.ltb 1 (length (remove_dups dims)) then
    Raise (Exn ValueError "All probes must have the same input dimension")
  else
    Ok {| probes := ps;
          set_model_name := model_name <$> (config <$> head ps);
          set_hook_point := hook_point <$> (config <$> head ps);
          set_hook_layer := hook_layer <$> (config <$> head ps) |}.

(** [ProbeSet.encode] *)
Definition ProbeSet_encode (s : ProbeSet) (acts : tensor) : result tensor :=
  directions <- traverse get_direction (probes s);;
  weight_matrix <- stack directions;;
  einsum_nd acts weight_matrix.


(* ===================================================================== *)
(** ** Normalisation in place and forward passes                           *)
(* ===================================================================== *)

(** A shape split at dimension [dim]: the dimensions before it, its size
    and the dimensions after it. *)
Definition split_dim (dim : nat) (s : list nat) : option (list nat * nat * list nat) :=
  match skipn dim s with
  | len :: inner => Some (firstn dim s, len, inner)
  | [] => None
  end.

(** The entries of [d] along a dimension of size [len] and stride [inner],
    in block [a] at inner position [b]. *)
Definition fibre (d : list R) (len inner a b : nat) : list R :=
  map (fun i => at_ d ((a * len + i) * inner + b)) (seq 0 len).

(** [torch.nn.functional.normalize(t, p=2, dim=dim)] with its default
    [eps = 1e-12]: every entry is divided by the 2-norm along [dim], the
    norm being raised to [1e-12] where it is smaller.  A 0-dimensional
    tensor counts as a vector of one entry. *)
Definition F_normalize (dim : nat) (t : tensor) : result tensor :=
  match split_dim dim (match shape t with [] => [1] | s => s end) with
  | Some (_, len, inner_shape) =>
      let inner := numel inner_shape in
      Ok (Tensor (shape t)
            (map (fun idx =>
                    (at_ (data t) idx
                     / Rmax (sqrt (sumsq (fibre (data t) len inner
                                            (idx / (len * inner)) (idx mod inner))))
                            1e-12)%R)
                 (seq 0 (numel (shape t)))))
  | None => Raise (Exn IndexError "Dimension out of range")
  end.

(** [BaseProbe.normalize_vector].  The direction is computed first, for
    its exceptions only; then the weights of [linear] are normalised row
    by row, or else the stored direction along its first dimension. *)
Definition normalize_vector (p : probe) : result probe :=
  _ <- get_direction p;;
  match linear p with
  | Some lin =>
      w <- F_normalize 1 (weight lin);;
      Ok (set_linear p (Some {| weight := w; bias := bias lin |}))
  | None =>
      if gradient_based (cls p) then Ok p
      else
        match direction p with
        | Some d => d' <- F_normalize 0 d;; Ok (set_direction p (Some d'))
        | None => Raise (no_attribute "norm")
        end
  end.

(** [x.mean(0, keepdim=True)] *)
Definition mean0_keepdim (x : tensor) : tensor :=
  match shape x with
  | n :: rest =>
      let m := numel rest in
      Tensor (1 :: rest)
        (map (fun j => mean_list (fibre (data x) n m 0 j)) (seq 0 m))
  | [] => x
  end.

(** [x.std(0, keepdim=True)]: the unbiased estimate.  With fewer than two
    rows torch yields NaN, which has no counterpart here. *)
Definition std0_keepdim (x : tensor) : tensor :=
  match shape x with
  | n :: rest =>
      let m := numel rest in
      Tensor (1 :: rest)
        (map (fun j =>
                let col := fibre (data x) n m 0 j in
                sqrt (sumsq (map (fun v => (v - mean_list col)%R) col) / INR (n - 1)))
             (seq 0 m))
  | [] => scalar (sqrt (0 / 0))
  end.

(** [self.linear(x)]: [x] times the transposed weight matrix, plus the
    bias.  The weight is a matrix [out, in] and the bias a vector [out],
    as [nn.Linear] creates them; other ranks are outside this embedding
    and reported as a shape error. *)
Definition linear_apply (lin : Linear) (x : tensor) : result tensor :=
  match shape (weight lin) with
  | [o; d] =>
      match rev (shape x) with
      | d' :: lead =>
          if Nat.eqb d' d then
            let out (b : nat -> R) :=
              Tensor (rev lead ++ [o])
                (flat_map (fun i =>
                   map (fun j => (bdot d d (slice i d (data x))
                                           (slice j d (data (weight lin))) + b j)%R)
                       (seq 0 o))
                   (seq 0 (numel lead))) in
            match bias lin with
            | None => Ok (out (fun _ => 0%R))
            | Some b =>
                if bool_decide (shape b = [o]) then Ok (out (at_ (data b)))
                else Raise (Exn RuntimeError "linear: bias is not a vector of out_features entries")
            end
          else Raise (Exn RuntimeError "mat1 and mat2 shapes cannot be multiplied")
      | [] => Raise (Exn RuntimeError "both arguments to matmul need to be at least 1D")
      end
  | _ => Raise (Exn RuntimeError "linear: weight is not a matrix")
  end.

(** [LinearProbe.forward] and [LogisticProbe.forward] (the two bodies are
    the same).  [training] is the mode of the module.  The buffers are
    assigned before anything can raise, so the state after the call is
    returned beside the outcome. *)
Definition gradient_forward (training : bool) (p : probe) (x : tensor)
    : probe * result tensor :=
  let p := match feature_mean p with
           | None =>
               if training then
                 set_feature_std (set_feature_mean p (Some (mean0_keepdim x)))
                                 (Some (add_scalar (std0_keepdim x) eps))
               else p
           | Some _ => p
           end in
  (p,
   x <- match feature_mean p with
        | Some m =>
            centred <- tsub x m;;
            match feature_std p with
            | Some s => tdiv centred s
            | None => Raise (Exn TypeError "unsupported operand type(s) for /: 'Tensor' and 'NoneType'")
            end
        | None => Ok x
        end;;
   lin <- self_linear p;;
   linear_apply lin x).

(** [forward] of the five classes. *)
Definition forward (training : bool) (p : probe) (x : tensor) : probe * result tensor :=
  if gradient_based (cls p) then gradient_forward training p x
  else (p, fitted_forward p x).


(* ===================================================================== *)
(** ** Losses and the compatibility shim                                   *)
(* ===================================================================== *)

Definition cfg_loss_type (c : ProbeConfig) : result string :=
  match ext c with
  | LinearCfg l _ _ _ => Ok l
  | _ => Raise (no_attribute "loss_type")
  end.

(** [2 * target - 1] *)
Definition rescale_target (t : tensor) : tensor :=
  Tensor (shape t) (map (fun v => (2 * v - 1)%R) (data t)).

(** [nn.MSELoss()(pred, target)]: the operands are broadcast against each
    other, and the squared differences averaged. *)
Definition mse_loss (pred target : tensor) : result R :=
  sq <- broadcast2 (fun a b => ((a - b) * (a - b))%R) pred target;;
  Ok (mean_all sq).

(** [torch.mean(torch.relu(1 - pred * target))] *)
Definition hinge_loss (pred target : tensor) : result R :=
  prod <- tmul pred target;;
  Ok (mean_all (Tensor (shape prod) (map (fun v => Rmax 0 (1 - v)) (data prod)))).

(** [nn.BCEWithLogitsLoss()(pred, target)]: the mean of
    [(1 - t) * x + log(1 + exp(-x))]; the two sizes have to agree. *)
Definition bce_with_logits (pred target : tensor) : result R :=
  if bool_decide (shape target = shape pred) then
    Ok (mean_all (Tensor (shape pred)
                    (zip_with (fun x t => ((1 - t) * x + ln (1 + exp (- x)))%R)
                              (data pred) (data target))))
  else Raise (Exn ValueError "Target size must be the same as input size").

(** [l2_lambda * torch.norm(self.linear.weight)**2] with [l2_lambda = 0.01] *)
Definition l2_reg (p : probe) : result R :=
  lin <- self_linear p;;
  let n := sqrt (sumsq (data (weight lin))) in
  Ok (0.01 * (n * n))%R.

(** A loss function returned by [get_loss_fn]: a closure over the probe,
    whose weights it reads when it is called; it is applied to the state
    of the probe at that time, the predictions and the targets. *)
Definition loss_fn : Type := probe -> tensor -> tensor -> result tensor.

(** [LinearProbe.get_loss_fn].  [cosine_embedding_loss] stands for
    [nn.CosineEmbeddingLoss()]. *)
Definition LinearProbe_get_loss_fn
    (cosine_embedding_loss : tensor -> tensor -> tensor -> result R)
    (p : probe) : result loss_fn :=
  loss_type <- cfg_loss_type (config p);;
  if String.eqb loss_type "mse" then
    Ok (fun self pred target =>
          let target := rescale_target target in
          mse <- mse_loss pred target;;
          reg <- l2_reg self;;
          Ok (scalar (mse + reg)))
  else if String.eqb loss_type "hinge" then
    Ok (fun self pred target =>
          let target := rescale_target target in
          hinge <- hinge_loss pred target;;
          reg <- l2_reg self;;
          Ok (scalar (hinge + reg)))
  else if String.eqb loss_type "cosine" then
    Ok (fun self pred target =>
          let target := rescale_target target in
          loss <- cosine_embedding_loss pred target target;;
          reg <- l2_reg self;;
          Ok (scalar (loss + reg)))
  else Raise (Exn ValueError "Unknown loss type").

(** [LogisticProbe.get_loss_fn] *)
Definition LogisticProbe_get_loss_fn (p : probe) : result loss_fn :=
  Ok (fun self pred target =>
        bce <- bce_with_logits pred target;;
        reg <- l2_reg self;;
        Ok (scalar (bce + reg))).

(** Python's [a or b] for an optional string [a]: [None] and the empty
    string both give [b]. *)
Definition str_or (a : option string) (b : string) : string :=
  match a with
  | Some s => if String.eqb s "" then b else s
  | None => b
  end.

(** [BaseProbe.to_probe_vector]: the probe after the call, which is also
    the value returned.  [kw_name] and [kw_additional_info] are the two
    keyword arguments the method reads; an argument left out is [None]. *)
Definition to_probe_vector (p : probe) (arg_model_name arg_hook_point : option string)
    (arg_hook_layer : option Z) (kw_name : option string)
    (kw_additional_info : option (gmap string json)) : probe :=
  let c := config p in
  let ai := match kw_additional_info with
            | Some extra => extra ∪ additional_info c
            | None => additional_info c
            end in
  let ai := match feature_mean p with
            | Some t => <["feature_mean" := tolist t]> ai
            | None => ai
            end in
  let ai := match feature_std p with
            | Some t => <["feature_std" := tolist t]> ai
            | None => ai
            end in
  {| cls := cls p;
     config :=
       {| input_size := input_size c; device := device c;
          model_name := str_or arg_model_name (model_name c);
          hook_point := str_or arg_hook_point (hook_point c);
          hook_layer := default (hook_layer c) arg_hook_layer;
          hook_head_index := hook_head_index c;
          name := default (name c) kw_name;
          dataset_path := dataset_path c; prepend_bos := prepend_bos c;
          context_size := context_size c; dtype := dtype c;
          additional_info := ai; ext := ext c |};
     probe_name := default (probe_name p) kw_name;
     linear := linear p; feature_mean := feature_mean p;
     feature_std := feature_std p; direction := direction p |}.


(* ===================================================================== *)
(** ** Collection of activations ([probity/collection/collectors.py])      *)
(* ===================================================================== *)

(** [range(0, n, step)] *)
Definition range_step (n : nat) (step : Z) : result (list nat) :=
  if Z.eqb step 0 then Raise (Exn ValueError "range() arg 3 must not be zero")
  else if Z.ltb step 0 then Ok []
  else
    let s := Z.to_nat step in
    Ok (map (fun k => k * s) (seq 0 ((n + s - 1) / s))).

(** [list(range(batch_start, min(batch_start + batch_size, n)))] *)
Definition batch_indices (n : nat) (batch_size : Z) (batch_start : nat) : list nat :=
  let batch_end := Z.min (Z.of_nat batch_start + batch_size) (Z.of_nat n) in
  seq batch_start (Z.to_nat (batch_end - Z.of_nat batch_start)).

(** The dictionary [all_activations]: the hooks in the order of their
    insertion, each with the list of its tensors. *)
Definition activations : Type := list (string * list tensor).

(** [all_activations[hook].append(t)], after the entry has been created
    when it was missing. *)
Fixpoint append_activation (d : activations) (hook : string) (t : tensor) : activations :=
  match d with
  | [] => [(hook, [t])]
  | (k, ts) :: d' =>
      if String.eqb k hook then (k, ts ++ [t]) :: d'
      else (k, ts) :: append_activation d' hook t
  end.

(** [cache[hook]] *)
Definition cache_item (cache : gmap string tensor) (hook : string) : result tensor :=
  match cache !! hook with
  | Some t => Ok t
  | None => Raise (Exn KeyError hook)
  end.

(** The loop over the hook points, for the cache of one batch. *)
Fixpoint store_batch (cache : gmap string tensor) (hook_points : list string)
    (d : activations) : result activations :=
  match hook_points with
  | [] => Ok d
  | hook :: rest =>
      t <- cache_item cache hook;;
      store_batch cache rest (append_activation d hook t)
  end.

(** [torch.cat(ts, dim=0)].  A tensor of shape [[0]] is skipped (the
    legacy rule of [torch.cat]); the others need the same shape after the
    leading dimension. *)
Definition cat0 (ts : list tensor) : result tensor :=
  match ts with
  | [] => Raise (Exn RuntimeError "torch.cat(): expected a non-empty list of Tensors")
  | _ =>
      if existsb (fun t => bool_decide (shape t = [])) ts then
        Raise (Exn RuntimeError "zero-dimensional tensor cannot be concatenated")
      else
        match filter (fun t => shape t <> [0]) ts with
        | [] => Ok (Tensor [0] [])
        | t :: others =>
            let kept := t :: others in
            if forallb (fun u => bool_decide (tail (shape u) = tail (shape t))) kept then
              Ok (Tensor (fold_right Nat.add 0 (map (fun u => hd 0 (shape u)) kept)
                          :: tail (shape t))
                         (flat_map data kept))
            else Raise (Exn RuntimeError "Sizes of tensors must match except in dimension 0")
        end
  end.

(** What [collect] reads of the dataset: the number of examples, and the
    tensors and the list it builds from the token lengths, the labels and
    the label texts of the examples. *)
Record Dataset : Type := {
  n_examples : nat;
  token_lengths : result tensor;
  example_labels : result tensor;
  example_label_texts : result (list string)
}.

(** The arguments [collect] passes to [ActivationStore], the dataset
    itself apart. *)
Record ActivationStore : Type := {
  store_raw_activations : tensor;
  store_hook_point : string;
  store_example_indices : list nat;
  store_sequence_lengths : tensor;
  store_hidden_size : nat;
  store_labels : tensor;
  store_label_texts : list string
}.

Section Collector.

(** The model on one batch: [dataset.get_batch_tensors] on the indices
    of the batch followed by [self.model.run_with_cache] with the hook
    points as filter; the outcome is the cache, or an exception. *)
Variable run_with_cache : list nat -> result (gmap string tensor).
Variable hook_points : list string.
Variable batch_size : Z.
Variable dataset : Dataset.

(** The loop over the batches. *)
Fixpoint collect_batches (starts : list nat) (d : activations) : result activations :=
  match starts with
  | [] => Ok d
  | batch_start :: rest =>
      cache <- run_with_cache (batch_indices (n_examples dataset) batch_size batch_start);;
      d <- store_batch cache hook_points d;;
      collect_batches rest d
  end.

(** The first half of [collect]: the dictionary [all_activations] after
    the loop. *)
Definition collect_activations : result activations :=
  starts <- range_step (n_examples dataset) batch_size;;
  collect_batches starts [].

(** One [ActivationStore(...)] of the final dictionary. *)
Definition make_store (entry : string * list tensor) : result (string * ActivationStore) :=
  raw <- cat0 (snd entry);;
  lengths <- token_lengths dataset;;
  hidden <- match snd entry with
            | t :: _ =>
                match rev (shape t) with
                | h :: _ => Ok h
                | [] => Raise (Exn IndexError "tuple index out of range")
                end
            | [] => Raise (Exn IndexError "list index out of range")
            end;;
  labels <- example_labels dataset;;
  texts <- example_label_texts dataset;;
  Ok (fst entry,
      {| store_raw_activations := raw;
         store_hook_point := fst entry;
         store_example_indices := seq 0 (n_examples dataset);
         store_sequence_lengths := lengths;
         store_hidden_size := hidden;
         store_labels := labels;
         store_label_texts := texts |}).

(** [TransformerLensCollector.collect]: the stores, in the order in
    which the hooks entered the dictionary. *)
Definition collect : result (list (string * ActivationStore)) :=
  acts <- collect_activations;;
  traverse make_store acts.

End Collector.


(* ===================================================================== *)
(** ** Persistence of a ProbeSet                                           *)
(* ===================================================================== *)




(** Reading an attribute that [__init__] sets on some paths only. *)
Definition get_attr {A : Type} (a : option A) (attr : string) : result A :=
  match a with
  | Some x => Ok x
  | None => Raise (no_attribute attr)
  end.













Section ProbeSetLoad.

(** The machine, the initialisation of new weights, and the file system:
    [read path] is the content of the file at [path], or the exception
    that opening it raises. *)
Variable cuda_available : bool.
Variable init : nat -> R.
Variable read : string -> result file.



End ProbeSetLoad.

(** [ProbeSet.__getitem__] for an integer index: a negative index counts
    from the end. *)
Definition ProbeSet_getitem (s : ProbeSet) (idx : Z) : result probe :=
  let n := Z.of_nat (length (probes s)) in
  let i := if Z.ltb idx 0 then (idx + n)%Z else idx in
  if Z.ltb i 0 then Raise (Exn IndexError "list index out of range")
  else
    match probes s !! Z.to_nat i with
    | Some p => Ok p
    | None => Raise (Exn IndexError "list index out of range")
    end.



(* ===================================================================== *)
(** ** The scikit-learn logistic probe                                     *)
(* ===================================================================== *)

(** The fields of [SklearnLogisticProbeConfig] that the probe itself reads;
    [bias], [max_iter] and [random_state] go to the [LogisticRegression]
    estimator, which is an argument of the fit below. *)
Record SklearnLogisticProbeConfig : Type := {
  sk_standardize : bool;
  sk_normalize_weights : bool
}.

(** The state of a [SklearnLogisticProbe].  [scaler] is [None] when the
    configuration does not standardise, and otherwise holds the [scale_]
    of the [StandardScaler] once that is fitted; [coef_] is the one of the
    [LogisticRegression], once that is fitted. *)
Record SklearnLogisticProbe : Type := {
  sk_config : SklearnLogisticProbeConfig;
  scaler : option (option tensor);
  coef_ : option tensor
}.

(** [SklearnLogisticProbe.__init__] *)
Definition SklearnLogisticProbe_init (c : SklearnLogisticProbeConfig)
    : SklearnLogisticProbe :=
  {| sk_config := c;
     scaler := if sk_standardize c then Some None else None;
     coef_ := None |}.

(** [SklearnLogisticProbe.fit].  [fit_transform] stands for
    [self.scaler.fit_transform]: it returns [scale_] and the standardised
    activations; [logistic_regression] stands for [self.model.fit] and
    returns [coef_]. *)
Definition SklearnLogisticProbe_fit
    (fit_transform : tensor -> result (tensor * tensor))
    (logistic_regression : tensor -> tensor -> result tensor)
    (p : SklearnLogisticProbe) (x y : tensor) : result SklearnLogisticProbe :=
  scaled <- match scaler p with
            | Some _ => r <- fit_transform x;; Ok (Some (Some (fst r)), snd r)
            | None => Ok (None, x)
            end;;
  coef <- logistic_regression (snd scaled) y;;
  Ok {| sk_config := sk_config p; scaler := fst scaled; coef_ := Some coef |}.

(** [a / b] on numpy arrays. *)
Definition np_divide (a b : tensor) : result tensor :=
  match broadcast2 Rdiv a b with
  | Ok t => Ok t
  | Raise _ => Raise (Exn ValueError "operands could not be broadcast together")
  end.

(** [SklearnLogisticProbe.get_direction] *)
Definition SklearnLogisticProbe_get_direction (p : SklearnLogisticProbe)
    : result tensor :=
  coefs <- get_attr (coef_ p) "coef_";;
  coef <- index0 coefs 0;;
  coef <- match scaler p with
          | Some fitted => scale <- get_attr fitted "scale_";; np_divide coef scale
          | None => Ok coef
          end;;
  if sk_normalize_weights (sk_config p) then tdiv coef (add_scalar (norm coef) eps)
  else Ok coef.

(* ===================================================================== *)
(** ** Notions used in the statements                                      *)
(* ===================================================================== *)

(** The L2 norm of a list of entries. *)
Definition l2 (l : list R) : R := sqrt (sumsq l).

(** Row [i] of a tensor whose rows have [d] entries. *)
Definition row (d i : nat) (t : tensor) : list R := slice i d (data t).

(** [a] and [b] agree within [tol] in every coordinate. *)
Definition close_within (tol : R) (a b : list R) : Prop :=
  length a = length b /\
  forall i, (i < length a)%nat -> (Rabs (at_ a i - at_ b i) <= tol)%R.

(** The computation raises a not-fitted error. *)
Definition raises_not_fitted {A : Type} (r : result A) : Prop :=
  exists e, r = Raise e /\ is_not_fitted e = true.

(** A computation none of whose exceptions is a not-fitted error. *)
Definition never_not_fitted {A : Type} (r : result A) : Prop :=
  forall e, r = Raise e -> is_not_fitted e = false.

Definition all_equal (l : list nat) : Prop :=
  forall a b, In a l -> In b l -> a = b.

(** The norm of [d] is that of [delta] over itself plus [1e-8], hence
    within [1e-4] of 1 when the norm of [delta] is at least [1e-4]. *)
Definition normalized_from (delta d : tensor) : Prop :=
  l2 (data d) = (l2 (data delta) / (l2 (data delta) + eps))%R /\
  ((1e-4 <= l2 (data delta))%R -> (Rabs (l2 (data d) - 1) <= 1e-4)%R).

(** A probe whose direction is a well-formed vector of length [n]. *)
Definition has_direction (p : probe) (d : tensor) (n : nat) : Prop :=
  get_direction p = Ok d /\ shape d = [n] /\ wf d.

(** The scores of one probe, for a direction [d] of length [n] and
    activations of shape [lead ++ [n]]. *)
Definition scores (acts : tensor) (lead : list nat) (n : nat) (d : tensor) : tensor :=
  Tensor lead
    (map (fun i => bdot n n (slice i n (data acts)) (data d)) (seq 0 (numel lead))).

(** The keys [save] and [save_json] set in [additional_info]. *)
Definition saved_keys : list string := ["feature_mean"; "feature_std"; "bias"].

(** The difference of the class means, the first half of
    [MeanDifferenceProbe.fit]. *)
Definition class_mean_difference (x y : tensor) : result tensor :=
  x_pos <- index_mask x (shape y) (eq_mask y 1);;
  pos_mean <- mean0 x_pos;;
  x_neg <- index_mask x (shape y) (eq_mask y 0);;
  neg_mean <- mean0 x_neg;;
  tsub pos_mean neg_mean.

(** The difference of the two extreme centroids, the first half of
    [KMeansProbe.fit]. *)
Definition centroid_difference (kmeans : tensor -> result (tensor * list nat))
    (p : probe) (x y : tensor) : result tensor :=
  fitted <- kmeans x;;
  let centroids := fst fitted in
  let labels := snd fitted in
  cfg <- cfg_kmeans (config p);;
  let n_clusters := fst (fst cfg) in
  cluster_labels <- traverse (cluster_label labels y) (seq 0 n_clusters);;
  i_pos <- argmax cluster_labels;;
  pos_centroid <- index0 centroids i_pos;;
  i_neg <- argmin cluster_labels;;
  neg_centroid <- index0 centroids i_neg;;
  tsub pos_centroid neg_centroid.

(** The first component with its sign, the first half of [PCAProbe.fit]. *)
Definition signed_component (pca : tensor -> result tensor) (x y : tensor) : result tensor :=
  components <- pca x;;
  projections <- dot_transposed x components;;
  n_components <- shape0 components;;
  signs <- traverse (fun j => correlation_sign y (column projections j))
                    (seq 0 n_components);;
  components <- tmul components (Tensor [length signs; 1] signs);;
  index0 components 0.

(** The second half of the three closed-form fits: the normalisation and
    the assignment of the direction. *)
Definition store_direction (p : probe) (delta : tensor) : result probe :=
  nw <- cfg_normalize_weights (config p);;
  direction <- (if nw then tdiv delta (add_scalar (norm delta) eps) else Ok delta);;
  Ok (set_direction p (Some direction)).


(** The state of a gradient-based probe agrees with its configuration, as
    after construction and any number of optimizer steps: a weight of
    shape [output_size, input_size] and a bias of shape [output_size]
    exactly when the configuration asks for one. *)
Definition state_matches_config (p : probe) (lin : Linear) (o : nat) : Prop :=
  gradient_based (cls p) = true /\
  linear p = Some lin /\
  direction p = None /\
  cfg_output_size (config p) = Ok o /\
  shape (weight lin) = [o; input_size (config p)] /\
  match bias lin with
  | Some b => cfg_bias (config p) = Ok true /\ shape b = [o]
  | None => cfg_bias (config p) = Ok false
  end.











(** A sequence of forward passes, each with the mode of the module at the
    time of the call: the state after the last one. *)
Definition after_forward_passes (p : probe) (calls : list (bool * tensor)) : probe :=
  fold_left (fun q call => fst (forward (fst call) q (snd call))) calls p.

(** The first batch passed in training mode. *)
Definition first_training_batch (calls : list (bool * tensor)) : option tensor :=
  snd <$> List.find fst calls.


(** The norms [F.normalize] divides the rows of a matrix of [o] rows by. *)
Definition clamped_row_norms (o n : nat) (w : tensor) : list R :=
  map (fun r => Rmax (l2 (row n r w)) 1e-12) (seq 0 o).


(** Entry [j] of the bias of [lin], 0 when it has none. *)
Definition bias_entry (lin : Linear) (j : nat) : R :=
  match bias lin with
  | Some b => at_ (data b) j
  | None => 0%R
  end.


(** The penalty [0.01 * ||W||^2] of the losses. *)
Definition penalty (lin : Linear) : R := (0.01 * sumsq (data (weight lin)))%R.


(** The batches of [collect]: the index lists handed to the model, in the
    order of the loop. *)
Definition batches_of (n : nat) (batch_size : Z) : list (list nat) :=
  match range_step n batch_size with
  | Ok starts => map (batch_indices n batch_size) starts
  | Raise _ => []
  end.

(** The model succeeds on every batch, and its cache holds, for every hook
    point [h], the tensor [act h b] for the batch [b]. *)
Definition model_returns (run_with_cache : list nat -> result (gmap string tensor))
    (hook_points : list string) (act : string -> list nat -> tensor) : Prop :=
  forall b, exists cache,
    run_with_cache b = Ok cache /\
    forall h, In h hook_points -> cache !! h = Some (act h b).

(** The store [collect] builds for the hook [h], when the activations of a
    batch [b] are [act h b], of shape [length b :: rest h]. *)
Definition collected_store (dataset : Dataset) (batch_size : Z)
    (act : string -> list nat -> tensor) (rest : string -> list nat)
    (lengths labels : tensor) (texts : list string) (h : string) : ActivationStore :=
  let batches := batches_of (n_examples dataset) batch_size in
  {| store_raw_activations :=
       Tensor (n_examples dataset :: rest h) (flat_map (fun b => data (act h b)) batches);
     store_hook_point := h;
     store_example_indices := seq 0 (n_examples dataset);
     store_sequence_lengths := lengths;
     store_hidden_size := List.last (rest h) (length (hd [] batches));
     store_labels := labels;
     store_label_texts := texts |}.













(** The projections of the [n] rows of [x] on the first row of
    [components], the rows having [d] entries. *)
Definition first_projection (x components : tensor) (n d : nat) : list R :=
  map (fun i => bdot d d (slice i d (data x)) (slice 0 d (data components))) (seq 0 n).


(** [d.shape[0]], the number [ProbeSet.__init__] compares. *)
Definition leading_dim (d : tensor) : nat := List.hd 0 (shape d).

(** The weight row of a probe with one output after the first transform
    of [get_direction]: divided entry by entry by the standard deviation
    when there is one and the row is not flagged as unscaled. *)
Definition unscaled_row (p : probe) (lin : Linear) (n : nat) : list R :=
  match feature_std p with
  | Some s =>
      if flag (config p) "is_unscaled" then data (weight lin)
      else map (fun j => (at_ (data (weight lin)) j / at_ (data s) j)%R) (seq 0 n)
  | None => data (weight lin)
  end.

(** The direction of a probe with one output, from its current weights:
    the unscaled row, divided by its norm plus [1e-8] when the
    configuration normalises and the row is not flagged as normalised. *)
Definition current_direction (p : probe) (lin : Linear) (n : nat) (nw : bool) : list R :=
  let u := unscaled_row p lin n in
  if nw && negb (flag (config p) "is_normalized")
  then map (fun v => (v / (l2 u + eps))%R) u
  else u.

(** The standard deviation of the probe, when it has one, is a row of [n]
    entries none of which is zero (a forward pass in training mode stores
    the deviation plus [1e-8]). *)
Definition usable_std (p : probe) (n : nat) : Prop :=
  forall s, feature_std p = Some s ->
    shape s = [1; n] /\ Forall (fun v => v <> 0%R) (data s).

(** Both labels occur in [y]. *)
Definition both_classes (y : tensor) : Prop :=
  In 1%R (data y) /\ In 0%R (data y).

(** The correlation of [a] and [b] is a number: there are two entries at
    least and neither vector is constant. *)
Definition correlation_defined (a b : list R) : Prop :=
  2 <= length a /\
  sumsq (map (fun v => (v - mean_list a)%R) a) <> 0%R /\
  sumsq (map (fun v => (v - mean_list b)%R) b) <> 0%R.

(** The [scale_] of the scaler of a [SklearnLogisticProbe], once fitted. *)
Definition fitted_scale (p : SklearnLogisticProbe) : option tensor :=
  match scaler p with
  | Some (Some s) => Some s
  | _ => None
  end.

(** The first row of [coef], of [n] entries, divided entry by entry by
    the scale when there is one. *)
Definition unscaled_coef (coef : tensor) (scale : option tensor) (n : nat) : tensor :=
  let row := slice 0 n (data coef) in
  Tensor [n]
    (match scale with
     | Some s => map (fun j => (at_ row j / at_ (data s) j)%R) (seq 0 n)
     | None => row
     end).

(* ===================================================================== *)
(** ** Probes and data of the examples                                     *)
(* ===================================================================== *)

(** A default configuration for two-dimensional activations on a machine
    without CUDA. *)
Definition example_config (e : config_ext) : ProbeConfig := default_config false 2 e.

(** A fitted [MeanDifferenceProbe] with the given direction. *)
Definition fitted_with (l : list R) : probe :=
  set_direction (base_init MeanDifferenceProbe (example_config (MeanDiffCfg false)))
                (Some (vec l)).

(** A fitted [MeanDifferenceProbe] with a zero direction of length [n]. *)
Definition fitted_example (n : nat) : probe :=
  set_direction (base_init MeanDifferenceProbe (example_config (MeanDiffCfg false)))
                (Some (zeros [n])).

Definition example_set : ProbeSet :=
  {| probes := [fitted_with [1%R; 0%R]; fitted_with [0%R; 1%R]];
     set_model_name := Some "unknown_model";
     set_hook_point := Some "unknown_hook";
     set_hook_layer := Some 0%Z |}.

(** A trained [LinearProbe] for two-dimensional activations: the weights
    are those given, there is no bias and no standardisation buffer. *)
Definition trained_linear (e : config_ext) (w : tensor) : probe :=
  set_linear (base_init LinearProbe (example_config e))
             (Some {| weight := w; bias := None |}).

(** A trained [LinearProbe] with [normalize_weights = true] and the weight
    row [(3, 4)], of norm 5. *)
Definition trained_3_4 : probe :=
  trained_linear (LinearCfg "mse" true false 1) (Tensor [1; 2] [3%R; 4%R]).

(** A trained [LinearProbe] with two outputs, and one activation row. *)
Definition two_output_probe : probe :=
  trained_linear (LinearCfg "mse" true false 2) (Tensor [2; 2] [3%R; 4%R; 0%R; 5%R]).
Definition one_row : tensor := Tensor [1; 2] [1%R; 2%R].

(** A trained [LogisticProbe] with its default bias. *)
Definition trained_logistic : probe :=
  set_linear (base_init LogisticProbe (example_config (LogisticCfg false true 1)))
             (Some {| weight := Tensor [1; 2] [3%R; 4%R];
                      bias := Some (Tensor [1] [0%R]) |}).

(** An unfitted [MeanDifferenceProbe] with [normalize_weights = true], and
    activations and labels in which both classes have the same mean. *)
Definition unfitted_mean_difference : probe :=
  base_init MeanDifferenceProbe (example_config (MeanDiffCfg true)).
Definition equal_means_x : tensor := Tensor [2; 2] [1%R; 2%R; 1%R; 2%R].
Definition equal_means_y : tensor := Tensor [2] [1%R; 0%R].

(** Outcomes of the scikit-learn estimators used in the examples: two
    centroids with the cluster of each row, and one principal component. *)
Definition example_kmeans (x : tensor) : result (tensor * list nat) :=
  Ok (Tensor [2; 2] [0%R; 0%R; 3%R; 4%R], [0; 1]).
Definition example_pca (x : tensor) : result tensor :=
  Ok (Tensor [1; 2] [3%R; 4%R]).
Definition identity_rows : tensor := Tensor [2; 2] [1%R; 0%R; 0%R; 1%R].

(** The three legacy shapes of a JSON file. *)
Definition legacy_vectors : json :=
  JObj (<["vectors" := JList [JList [JNum 1%R; JNum 2%R]; JList [JNum 3%R; JNum 4%R]]]> ∅).
Definition legacy_direction : json :=
  JObj (<["direction" := JList [JNum 1%R; JNum 2%R]]> ∅).
Definition legacy_bare : json := JList [JNum 1%R; JNum 2%R].


(** A JSON document of the current format, with empty metadata. *)
Definition minimal_document : json :=
  JObj (<["metadata" := JObj ∅]> (<["vector" := JList [JNum 3%R; JNum 4%R]]> ∅)).

(** A [LinearProbe] after a forward pass in training mode: both
    standardisation buffers are set. *)
Definition standardised_probe : probe :=
  set_feature_std
    (set_feature_mean (trained_linear (LinearCfg "mse" false false 1)
                                      (Tensor [1; 2] [3%R; 4%R]))
                      (Some (Tensor [1; 2] [0%R; 0%R])))
    (Some (Tensor [1; 2] [1%R; 2%R])).


(** A [LinearProbeConfig] with the loss type ["l1"], one of the three the
    dataclass declares. *)
Definition l1_config : ProbeConfig := example_config (LinearCfg "l1" true false 1).

(** An outcome of [nn.CosineEmbeddingLoss()] for the examples. *)
Definition example_cosine_loss (input1 input2 target : tensor) : result R := Ok 0%R.


(** A dataset of three examples and a model whose cache holds, for the
    hook ["resid"], one row per example of the batch: the index of the
    example. *)
Definition example_dataset : Dataset :=
  {| n_examples := 3;
     token_lengths := Ok (Tensor [3] [2%R; 2%R; 2%R]);
     example_labels := Ok (Tensor [3] [0%R; 1%R; 0%R]);
     example_label_texts := Ok ["a"; "b"; "a"] |}.
Definition example_act (h : string) (b : list nat) : tensor :=
  Tensor [length b; 1] (map INR b).
Definition example_model (b : list nat) : result (gmap string tensor) :=
  Ok (<["resid" := example_act "resid" b]> ∅).





(** A [LinearProbe] with [o] outputs for activations of width [n]: the
    weights are zero, and the configuration does not normalise. *)
Definition multi_output (o n : nat) : probe :=
  set_linear (base_init LinearProbe (default_config false n (LinearCfg "mse" false false o)))
             (Some {| weight := zeros [o; n]; bias := None |}).

(** Outcomes of the scikit-learn scaler and logistic regression used in
    the examples. *)
Definition example_scaler (x : tensor) : result (tensor * tensor) :=
  Ok (Tensor [2] [1%R; 2%R], x).
Definition example_regression (x y : tensor) : result tensor :=
  Ok (Tensor [1; 2] [3%R; 8%R]).

(** One step through two computations that start with the same bind. *)
Ltac step_bind :=
  match goal with
  | |- bind ?m _ = _ => destruct m; simpl; [|reflexivity]
  end.

(* ===================================================================== *)
(** ** Lists, sums and shapes                                              *)
(* ===================================================================== *)

Lemma numel_app (s1 s2 : list nat) : numel (s1 ++ s2) = numel s1 * numel s2.
Proof.
  induction s1 as [|a s1 IH]; simpl.
  - lia.
  - rewrite IH. lia.
Qed.

Lemma numel_rev (s : list nat) : numel (rev s) = numel s.
Proof.
  induction s as [|a s IH]; simpl; [reflexivity|].
  rewrite numel_app, IH. simpl. lia.
Qed.

Lemma nth_map_seq {A : Type} (f : nat -> A) (n i : nat) (d : A) :
  i < n -> nth i (map f (seq 0 n)) d = f i.
Proof.
  intros Hi.
  rewrite (nth_indep _ d (f 0)) by (rewrite length_map, length_seq; exact Hi).
  rewrite (map_nth f (seq 0 n) 0 i), seq_nth by exact Hi. reflexivity.
Qed.

Lemma map_at_seq (l : list R) (n : nat) :
  length l = n -> map (fun i => at_ l i) (seq 0 n) = l.
Proof.
  intros <-. apply (nth_ext _ _ 0%R 0%R).
  - now rewrite length_map, length_seq.
  - intros i Hi. rewrite length_map, length_seq in Hi.
    now rewrite nth_map_seq.
Qed.

Lemma map_seq_ext {A : Type} (f g : nat -> A) (a n : nat) :
  (forall i, a <= i < a + n -> f i = g i) -> map f (seq a n) = map g (seq a n).
Proof.
  intros H. apply map_ext_in. intros i Hi. apply in_seq in Hi. apply H. lia.
Qed.

Lemma offset_rev_nil (r : list nat) (i : nat) : offset_rev [] r i = 0.
Proof. reflexivity. Qed.

Lemma offset_rev_id (r : list nat) :
  forall i, i < numel r -> offset_rev r r i = i.
Proof.
  induction r as [|a r IH]; simpl; intros i Hi.
  - lia.
  - assert (Ha : a <> 0) by (intros ->; simpl in Hi; lia).
    rewrite IH by (apply Nat.Div0.div_lt_upper_bound; exact Hi).
    destruct (Nat.eqb_spec a 1) as [->|Hne].
    + rewrite Nat.div_1_r. lia.
    + pose proof (Nat.div_mod_eq i a). lia.
Qed.

Lemma bcast_rev_nil_r (r : list nat) : bcast_rev r [] = Some r.
Proof. destruct r; reflexivity. Qed.

Lemma bcast_rev_same (r : list nat) : bcast_rev r r = Some r.
Proof.
  induction r as [|a r IH]; simpl; [reflexivity|].
  now rewrite Nat.eqb_refl, IH.
Qed.

(** Division of a well-formed tensor by a 0-dimensional one. *)
Lemma tdiv_scalar (t : tensor) (c : R) :
  wf t ->
  tdiv t (scalar c) = Ok (Tensor (shape t) (map (fun x => (x / c)%R) (data t))).
Proof.
  intros Hwf. unfold tdiv, broadcast2, scalar; simpl.
  rewrite bcast_rev_nil_r, rev_involutive. do 2 f_equal.
  transitivity (map (fun x => (x / c)%R)
                  (map (fun i => at_ (data t) i) (seq 0 (numel (rev (shape t)))))).
  - rewrite map_map. apply map_seq_ext. intros i Hi.
    rewrite offset_rev_id by lia. reflexivity.
  - rewrite map_at_seq; [reflexivity|]. rewrite numel_rev. exact Hwf.
Qed.

Lemma nth_zip_with_minus (l l' : list R) :
  forall i, length l' = length l -> i < length l ->
  nth i (zip_with Rminus l l') 0%R = (nth i l 0 - nth i l' 0)%R.
Proof.
  revert l'. induction l as [|x l IH]; intros l' i Hl Hi; simpl in Hi; [lia|].
  destruct l' as [|y l']; [discriminate|].
  destruct i; simpl; [reflexivity|]. apply IH; simpl in *; lia.
Qed.

(** Subtraction of two well-formed vectors of the same length. *)
Lemma tsub_vec (a b : tensor) (d : nat) :
  shape a = [d] -> shape b = [d] -> wf a -> wf b ->
  tsub a b = Ok (Tensor [d] (zip_with Rminus (data a) (data b))).
Proof.
  intros Ha Hb Wa Wb. unfold tsub, broadcast2. rewrite Ha, Hb. simpl rev.
  rewrite bcast_rev_same. simpl rev. do 2 f_equal.
  unfold wf in Wa, Wb. rewrite Ha in Wa. rewrite Hb in Wb. simpl in Wa, Wb.
  apply (nth_ext _ _ 0%R 0%R).
  - rewrite length_map, length_seq, length_zip_with. simpl. lia.
  - intros i Hi. rewrite length_map, length_seq in Hi.
    rewrite nth_map_seq by exact Hi.
    rewrite offset_rev_id by exact Hi. unfold at_.
    simpl in Hi. symmetry. apply nth_zip_with_minus; lia.
Qed.

Lemma rsum_app (l1 l2 : list R) : rsum (l1 ++ l2) = (rsum l1 + rsum l2)%R.
Proof.
  induction l1 as [|x l1 IH]; simpl; [lra|]. rewrite IH. lra.
Qed.

Lemma rsum_const (c : R) (l : list nat) (f : nat -> R) :
  (forall i, In i l -> f i = c) -> rsum (map f l) = (INR (length l) * c)%R.
Proof.
  intros H. induction l as [|a l IH].
  - simpl. lra.
  - change (rsum (map f (a :: l))) with (f a + rsum (map f l))%R.
    rewrite IH by (intros i Hi; apply H; now right).
    rewrite (H a) by now left.
    change (length (a :: l)) with (S (length l)). rewrite S_INR. lra.
Qed.

Lemma sumsq_nonneg (l : list R) : (0 <= sumsq l)%R.
Proof.
  unfold sumsq. induction l as [|x l IH]; simpl; [lra|].
  pose proof (Rle_0_sqr x) as Hx. unfold Rsqr in Hx. lra.
Qed.

Lemma sumsq_scale (l : list R) (c : R) :
  c <> 0%R -> sumsq (map (fun x => (x / c)%R) l) = (sumsq l / (c * c))%R.
Proof.
  intros Hc. unfold sumsq. induction l as [|x l IH]; simpl.
  - field. exact Hc.
  - rewrite IH. field. exact Hc.
Qed.

Lemma l2_nonneg (l : list R) : (0 <= l2 l)%R.
Proof. apply sqrt_pos. Qed.

(** Dividing every entry by a positive number divides the norm by it. *)
Lemma l2_scale (l : list R) (c : R) :
  (0 < c)%R -> l2 (map (fun x => (x / c)%R) l) = (l2 l / c)%R.
Proof.
  intros Hc. unfold l2. rewrite sumsq_scale by lra.
  rewrite sqrt_div_alt by nra.
  rewrite sqrt_square by lra. reflexivity.
Qed.

Lemma eps_pos : (0 < eps)%R.
Proof. unfold eps. lra. Qed.

(** The norm after the division by the norm plus [1e-8]. *)
Lemma l2_normalized (l : list R) :
  l2 (map (fun x => (x / (l2 l + eps))%R) l) = (l2 l / (l2 l + eps))%R.
Proof.
  apply l2_scale. pose proof (l2_nonneg l). pose proof eps_pos. lra.
Qed.

Lemma normalized_near_one (n : R) :
  (1e-4 <= n)%R -> (Rabs (n / (n + eps) - 1) <= 1e-4)%R.
Proof.
  intros Hn. pose proof eps_pos as He. unfold eps in *.
  replace (n / (n + 1e-8) - 1)%R with (- (1e-8 / (n + 1e-8)))%R by (field; lra).
  rewrite Rabs_Ropp, Rabs_right.
  - apply Rmult_le_reg_r with (n + 1e-8)%R; [lra|].
    unfold Rdiv. rewrite Rmult_assoc, Rinv_l by lra. lra.
  - apply Rle_ge. apply Rlt_le. apply Rdiv_lt_0_compat; lra.
Qed.

(* ===================================================================== *)
(** ** The result monad                                                    *)
(* ===================================================================== *)

Lemma bind_ok {A B : Type} (m : result A) (f : A -> result B) (b : B) :
  bind m f = Ok b -> exists a, m = Ok a /\ f a = Ok b.
Proof. destruct m as [a|e]; simpl; [eauto|discriminate]. Qed.

Lemma bind_raise {A B : Type} (m : result A) (f : A -> result B) (e : exn) :
  bind m f = Raise e -> m = Raise e \/ exists a, m = Ok a /\ f a = Raise e.
Proof. destruct m as [a|e']; simpl; [eauto|]. intros [= ->]. now left. Qed.

Lemma nnf_ok {A : Type} (a : A) : never_not_fitted (Ok a).
Proof. intros e H. discriminate. Qed.

Lemma nnf_bind {A B : Type} (m : result A) (f : A -> result B) :
  never_not_fitted m -> (forall a, never_not_fitted (f a)) ->
  never_not_fitted (bind m f).
Proof.
  intros Hm Hf e He. apply bind_raise in He as [He|(a & _ & He)].
  - now apply Hm.
  - now apply (Hf a).
Qed.

Lemma nnf_if {A : Type} (b : bool) (r1 r2 : result A) :
  never_not_fitted r1 -> never_not_fitted r2 ->
  never_not_fitted (if b then r1 else r2).
Proof. now destruct b. Qed.

Lemma nnf_cfg_normalize_weights c : never_not_fitted (cfg_normalize_weights c).
Proof. unfold cfg_normalize_weights. destruct (ext c); intros e [= <-]; reflexivity. Qed.

Lemma nnf_cfg_output_size c : never_not_fitted (cfg_output_size c).
Proof. unfold cfg_output_size. destruct (ext c); intros e [= <-]; reflexivity. Qed.

Lemma nnf_broadcast2 f a b : never_not_fitted (broadcast2 f a b).
Proof.
  unfold broadcast2. destruct (bcast_rev _ _); intros e [= <-]; reflexivity.
Qed.

Lemma nnf_norm_dim1 t : never_not_fitted (norm_dim1 t).
Proof.
  unfold norm_dim1. destruct (shape t) as [|a [|b rest]]; intros e [= <-]; reflexivity.
Qed.

Lemma nnf_einsum_d acts d : never_not_fitted (einsum_d acts d).
Proof.
  unfold einsum_d.
  destruct (shape d) as [|n [|? ?]]; try (intros e [= <-]; reflexivity).
  destruct (rev (shape acts)); [intros e [= <-]; reflexivity|].
  destruct (contractible _ _); intros e [= <-]; reflexivity.
Qed.

Lemma nnf_gradient_get_direction p : never_not_fitted (gradient_get_direction p).
Proof.
  unfold gradient_get_direction.
  apply nnf_bind.
  { unfold self_linear. destruct (linear p); intros e [= <-]; reflexivity. }
  intros lin. apply nnf_bind.
  { unfold unscale. destruct (feature_std p); [|apply nnf_ok].
    apply nnf_if; [apply nnf_broadcast2|apply nnf_ok]. }
  intros d. apply nnf_bind.
  { unfold normalize_direction. apply nnf_bind; [apply nnf_cfg_normalize_weights|].
    intros nw. apply nnf_if; [|apply nnf_ok].
    apply nnf_bind; [apply nnf_cfg_output_size|]. intros o.
    apply nnf_if; [|apply nnf_broadcast2].
    apply nnf_bind; [apply nnf_norm_dim1|]. intros norms. apply nnf_broadcast2. }
  intros d'. apply nnf_bind; [apply nnf_cfg_output_size|]. intros o. apply nnf_ok.
Qed.

(* ===================================================================== *)
(** ** Directions of gradient-based probes                                 *)
(* ===================================================================== *)

Lemma wf_scalar (x : R) : wf (scalar x).
Proof. reflexivity. Qed.

(** The direction of a single-output gradient probe, given the outcome [u]
    of the unscaling step. *)
Lemma gradient_get_direction_single (p : probe) (lin : Linear) (u : tensor)
    (n : nat) (nw : bool) :
  linear p = Some lin ->
  unscale p (weight lin) = Ok u ->
  shape u = [1; n] -> wf u ->
  cfg_output_size (config p) = Ok 1 ->
  cfg_normalize_weights (config p) = Ok nw ->
  gradient_get_direction p =
    Ok (Tensor [n]
          (if nw && negb (flag (config p) "is_normalized")
           then map (fun x => (x / (l2 (data u) + eps))%R) (data u)
           else data u)).
Proof.
  intros Hlin Hu Hs Hwf Ho Hnw.
  unfold gradient_get_direction, self_linear. rewrite Hlin. simpl.
  rewrite Hu. simpl. unfold normalize_direction. rewrite Hnw. simpl.
  destruct (nw && negb (flag (config p) "is_normalized")).
  - rewrite Ho. simpl.
    change (add_scalar (norm u) eps) with (scalar (l2 (data u) + eps)).
    rewrite tdiv_scalar by exact Hwf. simpl.
    unfold squeeze0. simpl. rewrite Hs. reflexivity.
  - simpl. rewrite Ho. simpl. unfold squeeze0. rewrite Hs.
    destruct u; reflexivity.
Qed.

(** [encode] against a vector direction of matching length. *)
Lemma einsum_d_vector (acts d : tensor) (lead : list nat) (n : nat) :
  shape d = [n] -> shape acts = lead ++ [n] ->
  einsum_d acts d =
    Ok (Tensor lead
          (map (fun i => bdot n n (slice i n (data acts)) (data d))
               (seq 0 (numel lead)))).
Proof.
  intros Hd Ha. unfold einsum_d. rewrite Hd, Ha, rev_app_distr. simpl.
  unfold contractible. rewrite Nat.eqb_refl. simpl.
  now rewrite rev_involutive, numel_rev.
Qed.

(* ===================================================================== *)
(** ** Construction                                                        *)
(* ===================================================================== *)

Lemma new_closed_form (k : probe_class) (init : nat -> R) (c : ProbeConfig) (p : probe) :
  gradient_based k = false -> new k init c = Ok p ->
  cls p = k /\ config p = c /\ direction p = None.
Proof.
  intros Hk Hnew. destruct k; try discriminate; simpl in Hnew.
  - destruct (cfg_kmeans c); simpl in Hnew; [|discriminate].
    injection Hnew as <-. now repeat split.
  - destruct (cfg_n_components c); simpl in Hnew; [|discriminate].
    injection Hnew as <-. now repeat split.
  - injection Hnew as <-. now repeat split.
Qed.

Lemma wf_zeros (s : list nat) : wf (zeros s).
Proof. unfold wf, zeros. simpl. apply repeat_length. Qed.

Lemma new_gradient (k : probe_class) (init : nat -> R) (c : ProbeConfig) (p : probe) :
  gradient_based k = true -> new k init c = Ok p ->
  cls p = k /\ config p = c /\ feature_std p = None /\ direction p = None /\
  exists lin o,
    linear p = Some lin /\ cfg_output_size c = Ok o /\
    shape (weight lin) = [o; input_size c] /\ wf (weight lin).
Proof.
  intros Hk Hnew. destruct k; try discriminate; simpl in Hnew.
  - destruct (cfg_output_size c) as [o|] eqn:Ho; simpl in Hnew; [|discriminate].
    destruct (cfg_bias c) as [b|]; simpl in Hnew; [|discriminate].
    injection Hnew as <-. repeat split. eexists _, o. repeat split.
    unfold wf. simpl. rewrite length_map, length_seq. lia.
  - destruct (cfg_output_size c) as [o|] eqn:Ho; simpl in Hnew; [|discriminate].
    destruct (cfg_bias c) as [b|]; simpl in Hnew; [|discriminate].
    injection Hnew as <-. repeat split. eexists _, o. repeat split.
    apply wf_zeros.
Qed.

Lemma output_size_normalize_weights (c : ProbeConfig) (o : nat) :
  cfg_output_size c = Ok o -> exists nw, cfg_normalize_weights c = Ok nw.
Proof.
  unfold cfg_output_size, cfg_normalize_weights.
  destruct (ext c); intros H; try discriminate; eauto.
Qed.

(** A gradient-based probe with one output is usable right after its
    construction. *)
Lemma fresh_gradient_direction (k : probe_class) (init : nat -> R) (c : ProbeConfig)
    (p : probe) :
  gradient_based k = true -> new k init c = Ok p -> cfg_output_size c = Ok 1 ->
  exists d, get_direction p = Ok d /\ shape d = [input_size c] /\ wf d.
Proof.
  intros Hk Hnew Ho.
  destruct (new_gradient k init c p Hk Hnew)
    as (Hcls & Hcfg & Hstd & _ & lin & o & Hlin & Ho' & Hs & Hwf).
  rewrite Ho in Ho'. injection Ho' as <-.
  destruct (output_size_normalize_weights c 1 Ho) as [nw Hnw].
  unfold get_direction. rewrite Hcls, Hk.
  rewrite (gradient_get_direction_single p lin (weight lin) (input_size c) nw);
    try (rewrite ?Hcfg; assumption).
  - eexists. split; [reflexivity|]. split; [reflexivity|].
    unfold wf in *. rewrite Hs in Hwf. simpl in *.
    destruct (nw && _); [rewrite length_map|]; lia.
  - unfold unscale. now rewrite Hstd.
Qed.

(* ===================================================================== *)
(** ** Construction of a ProbeSet                                          *)
(* ===================================================================== *)

Lemma traverse_Forall2 {A B : Type} (f : A -> result B) (l : list A) (bs : list B) :
  Forall2 (fun a b => f a = Ok b) l bs -> traverse f l = Ok bs.
Proof.
  induction 1 as [|a b l bs Hab _ IH]; simpl; [reflexivity|].
  now rewrite Hab, IH.
Qed.

Lemma all_equal_remove_dups (l : list nat) :
  all_equal l <-> length (remove_dups l) <= 1.
Proof.
  split.
  - intros Heq. pose proof (NoDup_remove_dups l) as Hnd.
    destruct (remove_dups l) as [|a [|b m]] eqn:E; simpl; try lia.
    exfalso.
    assert (Ha : a ∈ remove_dups l) by (rewrite E; set_solver).
    assert (Hb : b ∈ remove_dups l) by (rewrite E; set_solver).
    apply (proj1 (elem_of_remove_dups l a)), (proj1 (list_elem_of_In l a)) in Ha.
    apply (proj1 (elem_of_remove_dups l b)), (proj1 (list_elem_of_In l b)) in Hb.
    pose proof (Heq a b Ha Hb) as ->.
    apply NoDup_cons in Hnd as [Hnotin _]. apply Hnotin. set_solver.
  - intros Hlen a b Ha Hb.
    apply (proj2 (list_elem_of_In l a)), (proj2 (elem_of_remove_dups l a)) in Ha.
    apply (proj2 (list_elem_of_In l b)), (proj2 (elem_of_remove_dups l b)) in Hb.
    destruct (remove_dups l) as [|c [|c' m]]; simpl in Hlen; try lia.
    + inversion Ha.
    + apply list_elem_of_singleton in Ha, Hb. congruence.
Qed.

Lemma dims_of_directions (ps : list probe) (ds : list nat) :
  Forall2 (fun p n => exists d, has_direction p d n) ps ds ->
  traverse (fun p => d <- get_direction p;; shape0 d) ps = Ok ds.
Proof.
  intros H. apply traverse_Forall2.
  eapply Forall2_impl; [exact H|].
  intros p n (d & Hd & Hs & _). simpl. rewrite Hd. simpl.
  unfold shape0. now rewrite Hs.
Qed.

Lemma fitted_example_direction (n : nat) :
  exists d, has_direction (fitted_example n) d n.
Proof.
  exists (zeros [n]). split; [reflexivity|]. split; [reflexivity|]. apply wf_zeros.
Qed.

(* ===================================================================== *)
(** ** C8: batched projection of a ProbeSet                                *)
(* ===================================================================== *)

Lemma slice_0_app (n : nat) (l1 l2 : list R) :
  length l1 = n -> slice 0 n (l1 ++ l2) = l1.
Proof.
  intros <-. unfold slice. change (0 * length l1) with 0.
  change (skipn 0 (l1 ++ l2)) with (l1 ++ l2). apply take_app_length.
Qed.

Lemma slice_S_app (n j : nat) (l1 l2 : list R) :
  length l1 = n -> slice (S j) n (l1 ++ l2) = slice j n l2.
Proof.
  intros <-. unfold slice. f_equal.
  replace (S j * length l1) with (j * length l1 + length l1) by lia.
  rewrite <- skipn_skipn. f_equal.
  rewrite skipn_app, Nat.sub_diag, skipn_all. reflexivity.
Qed.

Lemma lookup_map_Some {A B : Type} (f : A -> B) (l : list A) (j : nat) (x : A) :
  l !! j = Some x -> map f l !! j = Some (f x).
Proof.
  revert j. induction l as [|a l IH]; intros [|j] H; try discriminate.
  - now injection H as ->.
  - now apply IH.
Qed.

Lemma flat_map_seq_ext {B : Type} (f g : nat -> list B) (a n : nat) :
  (forall i, a <= i < a + n -> f i = g i) ->
  flat_map f (seq a n) = flat_map g (seq a n).
Proof.
  revert a. induction n as [|n IH]; intros a H; [reflexivity|].
  simpl. rewrite (H a) by lia. f_equal. apply IH. intros i Hi. apply H. lia.
Qed.

(** The rows of a stack of vectors are the vectors. *)
Lemma map_slices_stack {B : Type} (g : list R -> B) (n : nat) (ds : list tensor) :
  Forall (fun d => length (data d) = n) ds ->
  map (fun j => g (slice j n (flat_map data ds))) (seq 0 (length ds))
  = map (fun d => g (data d)) ds.
Proof.
  induction 1 as [|d ds Hd _ IH]; [reflexivity|].
  simpl length. simpl seq. simpl flat_map. simpl map.
  rewrite slice_0_app by exact Hd. f_equal.
  rewrite <- seq_shift, map_map. rewrite <- IH.
  apply map_ext. intros j. now rewrite slice_S_app.
Qed.

(** Entry [(i, j)] of a concatenation of [n] rows of width [k]. *)
Lemma nth_flat_map_rows (f : nat -> list R) (k : nat) :
  (forall i, length (f i) = k) ->
  forall n a i j, i < n -> j < k ->
  nth (i * k + j) (flat_map f (seq a n)) 0%R = nth j (f (a + i)) 0%R.
Proof.
  intros Hlen. induction n as [|n IH]; intros a i j Hi Hj; [lia|].
  simpl. destruct i as [|i].
  - simpl. rewrite app_nth1 by (rewrite Hlen; exact Hj). now rewrite Nat.add_0_r.
  - rewrite app_nth2 by (rewrite Hlen; simpl; lia).
    rewrite Hlen. replace (S i * k + j - k) with (i * k + j) by (simpl; lia).
    rewrite IH by lia. f_equal. f_equal. lia.
Qed.

Lemma stack_vectors (ds : list tensor) (n : nat) :
  ds <> [] -> Forall (fun d => shape d = [n]) ds ->
  stack ds = Ok (Tensor [length ds; n] (flat_map data ds)).
Proof.
  intros Hne Hall. unfold stack. destruct ds as [|d ds']; [contradiction|].
  assert (Hd : shape d = [n]) by (now inversion Hall).
  rewrite Hd.
  assert (Hfa : forallb (same_shape [n]) (d :: ds') = true).
  { apply forallb_forall. intros t Ht. rewrite Forall_forall in Hall.
    unfold same_shape. apply bool_decide_eq_true. apply Hall.
    now apply list_elem_of_In. }
  now rewrite Hfa.
Qed.

Lemma stack_last_same_shape (ts : list tensor) (s : list nat) :
  ts <> [] -> Forall (fun t => shape t = s) ts ->
  stack_last ts =
    Ok (Tensor (s ++ [length ts])
          (flat_map (fun i => map (fun u => at_ (data u) i) ts) (seq 0 (numel s)))).
Proof.
  intros Hne Hall. unfold stack_last. destruct ts as [|t ts']; [contradiction|].
  assert (Ht : shape t = s) by (now inversion Hall).
  rewrite Ht.
  assert (Hfa : forallb (same_shape s) (t :: ts') = true).
  { apply forallb_forall. intros u Hu. rewrite Forall_forall in Hall.
    unfold same_shape. apply bool_decide_eq_true. apply Hall.
    now apply list_elem_of_In. }
  now rewrite Hfa.
Qed.

(** Claim C8.  For a non-empty set of probes whose directions are vectors
    of one length [n], and activations whose last dimension is [n],
    [ProbeSet.encode] returns the individual [encode] results stacked along
    a new trailing dimension, in the order of the probes: entry [(i, j)] of
    the result is entry [i] of the scores of probe [j]. *)
Theorem C8_probeset_encode (s : ProbeSet) (acts : tensor) (ds : list tensor)
    (n : nat) (lead : list nat) :
  probes s <> [] ->
  Forall2 (fun p d => has_direction p d n) (probes s) ds ->
  shape acts = lead ++ [n] ->
  exists rs r,
    traverse (fun p => encode p acts) (probes s) = Ok rs /\
    stack_last rs = Ok r /\
    ProbeSet_encode s acts = Ok r /\
    shape r = lead ++ [length (probes s)] /\
    forall j p, probes s !! j = Some p ->
      exists rj, encode p acts = Ok rj /\
        forall i, i < numel lead ->
          at_ (data r) (i * length (probes s) + j) = at_ (data rj) i.
Proof.
  intros Hne Hdirs Hacts.
  pose proof (Forall2_length _ _ _ Hdirs) as Hlen.
  assert (Hds : ds <> []) by (intros ->; destruct (probes s); [congruence|discriminate]).
  assert (Hshape : Forall (fun d => shape d = [n]) ds).
  { apply Forall_forall. intros d Hd.
    apply list_elem_of_lookup in Hd as [j Hj].
    destruct (Forall2_lookup_r _ _ _ _ _ Hdirs Hj) as (p & _ & _ & Hs & _). exact Hs. }
  assert (Hwidth : Forall (fun d => length (data d) = n) ds).
  { apply Forall_forall. intros d Hd.
    apply list_elem_of_lookup in Hd as [j Hj].
    destruct (Forall2_lookup_r _ _ _ _ _ Hdirs Hj) as (p & _ & _ & Hs & Hwf).
    unfold wf in Hwf. rewrite Hs in Hwf. simpl in Hwf. lia. }
  assert (Henc : Forall2 (fun p r => encode p acts = Ok r) (probes s)
                         (map (scores acts lead n) ds)).
  { apply Forall2_fmap_r. eapply Forall2_impl; [exact Hdirs|].
    intros p d (Hd & Hs & _). simpl. unfold encode. rewrite Hd. simpl.
    now apply einsum_d_vector. }
  set (rs := map (scores acts lead n) ds).
  assert (Hrs : stack_last rs =
                Ok (Tensor (lead ++ [length rs])
                      (flat_map (fun i => map (fun u => at_ (data u) i) rs)
                                (seq 0 (numel lead))))).
  { apply stack_last_same_shape.
    - subst rs. destruct ds; [contradiction|discriminate].
    - subst rs. apply Forall_forall. intros t Ht. apply list_elem_of_fmap in Ht.
      now destruct Ht as (d & -> & _). }
  assert (Hk : length rs = length (probes s)).
  { subst rs. rewrite length_map. lia. }
  eexists rs, _. split; [now apply traverse_Forall2|]. split; [exact Hrs|].
  split; [|split].
  - unfold ProbeSet_encode.
    rewrite (traverse_Forall2 get_direction (probes s) ds)
      by (eapply Forall2_impl; [exact Hdirs|]; now intros p d (Hd & _)).
    simpl. rewrite (stack_vectors ds n Hds Hshape). simpl.
    unfold einsum_nd. simpl. rewrite Hacts, rev_app_distr. simpl.
    unfold contractible. rewrite Nat.eqb_refl. simpl.
    rewrite rev_involutive, numel_rev, Hk, Hlen. do 2 f_equal.
    apply flat_map_seq_ext. intros i Hi.
    rewrite (map_slices_stack (fun w => bdot n n (slice i n (data acts)) w) n ds Hwidth).
    subst rs. rewrite map_map. apply map_ext_in. intros d Hd. unfold scores, at_. simpl.
    rewrite nth_map_seq by lia. reflexivity.
  - simpl. now rewrite Hk.
  - intros j p Hj.
    destruct (Forall2_lookup_l _ _ _ _ _ Henc Hj) as (rj & Hrj & Hpj).
    exists rj. split; [exact Hpj|]. intros i Hi. simpl. unfold at_ at 1.
    rewrite <- Hk.
    rewrite (nth_flat_map_rows (fun i => map (fun u => at_ (data u) i) rs) (length rs))
      by (try (intros; apply length_map); try assumption;
          apply lookup_lt_Some in Hrj; exact Hrj).
    simpl. erewrite (nth_lookup_Some _ j); [reflexivity|].
    exact (lookup_map_Some (fun u : tensor => at_ (data u) i) rs j rj Hrj).
Qed.

Lemma fitted_with_direction (l : list R) :
  has_direction (fitted_with l) (vec l) (length l).
Proof.
  split; [reflexivity|]. split; [reflexivity|]. unfold wf, vec. simpl. lia.
Qed.

Lemma C8_probeset_encode_witness :
  exists r, ProbeSet_encode example_set (Tensor [1; 2] [3%R; 4%R]) = Ok r
            /\ shape r = [1; 2].
Proof.
  destruct (C8_probeset_encode example_set (Tensor [1; 2] [3%R; 4%R])
              [vec [1%R; 0%R]; vec [0%R; 1%R]] 2 [1])
    as (rs & r & _ & _ & Hr & Hs & _).
  - discriminate.
  - repeat constructor.
  - reflexivity.
  - exists r. split; [exact Hr|exact Hs].
Defined.

(* ===================================================================== *)
(** ** C7: the mean-difference fit                                         *)
(* ===================================================================== *)

Lemma slice_0 (m : nat) (l : list R) : slice 0 m l = firstn m l.
Proof. reflexivity. Qed.

Lemma slice_S_skipn (m i : nat) (l : list R) :
  slice (S i) m l = slice i m (skipn m l).
Proof.
  unfold slice. f_equal. rewrite skipn_skipn. f_equal. lia.
Qed.

Lemma select_rows_all (m : nat) (v : list R) :
  forall (bs : list bool) (l : list R),
  (forall i, i < length bs -> nth i bs false = true -> slice i m l = v) ->
  Forall (fun r => r = v) (select_rows m bs l).
Proof.
  induction bs as [|b bs IH]; intros l H; simpl; [constructor|].
  apply Forall_app. split.
  - destruct b; [|constructor].
    constructor; [|constructor]. rewrite <- slice_0. apply H; simpl; [lia|reflexivity].
  - apply IH. intros i Hi Hb. rewrite <- slice_S_skipn. apply H; simpl; [lia|exact Hb].
Qed.

Lemma select_rows_nonempty (m : nat) :
  forall (bs : list bool) (l : list R) (i : nat),
  nth i bs false = true -> 1 <= length (select_rows m bs l).
Proof.
  induction bs as [|b bs IH]; intros l i Hi.
  - destruct i; discriminate.
  - simpl. rewrite length_app. destruct i as [|i].
    + simpl in Hi. subst b. simpl. lia.
    + simpl in Hi. pose proof (IH (skipn m l) i Hi). lia.
Qed.

Lemma all_eq_repeat {A : Type} (v : A) (rows : list A) :
  Forall (fun r => r = v) rows -> rows = repeat v (length rows).
Proof.
  induction 1 as [|r rows -> _ IH]; simpl; [reflexivity|]. now rewrite <- IH.
Qed.

Lemma concat_repeat_flat_map (v : list R) (k : nat) :
  concat (repeat v k) = flat_map (fun _ => v) (seq 0 k).
Proof.
  generalize 0. induction k as [|k IH]; intros a; simpl; [reflexivity|].
  now rewrite <- IH.
Qed.

(** The mean over [k >= 1] copies of a row is that row. *)
Lemma mean0_const_rows (k d : nat) (v : list R) :
  1 <= k -> length v = d ->
  mean0 (Tensor [k; d] (concat (repeat v k))) = Ok (Tensor [d] v).
Proof.
  intros Hk Hv. unfold mean0. simpl. rewrite Nat.mul_1_r. do 2 f_equal.
  transitivity (map (fun j => at_ v j) (seq 0 d)); [|now apply map_at_seq].
  apply map_seq_ext. intros j Hj.
  rewrite (rsum_const (at_ v j)).
  - rewrite length_seq. field. apply not_0_INR. lia.
  - intros i Hi. apply in_seq in Hi. unfold at_.
    rewrite concat_repeat_flat_map.
    rewrite (nth_flat_map_rows (fun _ => v) d) by (trivial; lia). reflexivity.
Qed.

Lemma nth_eq_mask (y : tensor) (c : R) (i : nat) :
  i < length (data y) ->
  nth i (eq_mask y c) false = true <-> at_ (data y) i = c.
Proof.
  intros Hi. unfold eq_mask, at_.
  rewrite (nth_indep _ false (bool_decide (0%R = c)))
    by (rewrite length_map; exact Hi).
  rewrite (map_nth (fun v => bool_decide (v = c))).
  apply bool_decide_eq_true.
Qed.

(** The mean of the rows of [x] with label [c], when they all equal [v]
    and there is at least one. *)
Lemma class_mean (x y : tensor) (c : R) (v : list R) (N d : nat) :
  shape x = [N; d] -> shape y = [N] -> wf y -> length v = d ->
  (forall i, i < N -> at_ (data y) i = c -> row d i x = v) ->
  (exists i, i < N /\ at_ (data y) i = c) ->
  bind (index_mask x (shape y) (eq_mask y c)) mean0 = Ok (Tensor [d] v).
Proof.
  intros Hx Hy Hwf Hv Hrows (i0 & Hi0 & Hc0).
  unfold wf in Hwf. rewrite Hy in Hwf. simpl in Hwf. rewrite Nat.mul_1_r in Hwf.
  unfold index_mask. rewrite Hx, Hy. simpl length. simpl firstn. simpl skipn.
  rewrite bool_decide_eq_true_2 by reflexivity. simpl numel. rewrite Nat.mul_1_r.
  assert (Hlen : length (eq_mask y c) = N) by (unfold eq_mask; now rewrite length_map).
  pose proof (select_rows_all d v (eq_mask y c) (data x)) as Hall.
  pose proof (select_rows_nonempty d (eq_mask y c) (data x) i0) as Hne.
  set (rows := select_rows d (eq_mask y c) (data x)) in *.
  assert (Hrep : rows = repeat v (length rows)).
  { apply all_eq_repeat, Hall.
    intros i Hi Hm. rewrite Hlen in Hi. apply Hrows; [exact Hi|].
    apply nth_eq_mask; [lia|exact Hm]. }
  simpl. rewrite Hrep at 2.
  apply mean0_const_rows; [|exact Hv].
  apply Hne. apply nth_eq_mask; [lia|exact Hc0].
Qed.

(** Claim C7.  A [MeanDifferenceProbe] with [normalize_weights = false],
    fitted on activations [x] of shape [N, d] and labels [y] of shape [N]
    in which every row labelled 1 is [v1], every row labelled 0 is [v0] and
    both labels occur, has the direction [v1 - v0]. *)
Theorem C7_mean_difference (p : probe) (x y : tensor) (v1 v0 : list R) (N d : nat) :
  cls p = MeanDifferenceProbe ->
  cfg_normalize_weights (config p) = Ok false ->
  shape x = [N; d] -> shape y = [N] -> wf y ->
  length v1 = d -> length v0 = d ->
  (forall i, i < N -> at_ (data y) i = 1%R -> row d i x = v1) ->
  (forall i, i < N -> at_ (data y) i = 0%R -> row d i x = v0) ->
  (exists i, i < N /\ at_ (data y) i = 1%R) ->
  (exists i, i < N /\ at_ (data y) i = 0%R) ->
  exists p',
    MeanDifferenceProbe_fit p x y = Ok p' /\
    get_direction p' = Ok (Tensor [d] (zip_with Rminus v1 v0)).
Proof.
  intros Hcls Hnw Hx Hy Hwf Hv1 Hv0 Hpos Hneg Hsome1 Hsome0.
  pose proof (class_mean x y 1%R v1 N d Hx Hy Hwf Hv1 Hpos Hsome1) as Hm1.
  pose proof (class_mean x y 0%R v0 N d Hx Hy Hwf Hv0 Hneg Hsome0) as Hm0.
  unfold MeanDifferenceProbe_fit.
  destruct (index_mask x (shape y) (eq_mask y 1)) as [xp|]; [|discriminate].
  simpl in Hm1 |- *. rewrite Hm1. simpl.
  destruct (index_mask x (shape y) (eq_mask y 0)) as [xn|]; [|discriminate].
  simpl in Hm0 |- *. rewrite Hm0. simpl.
  rewrite (tsub_vec (Tensor [d] v1) (Tensor [d] v0) d)
    by (try reflexivity; unfold wf; simpl; lia).
  simpl. rewrite Hnw. simpl.
  eexists. split; [reflexivity|].
  unfold get_direction. simpl. rewrite Hcls. reflexivity.
Qed.

Lemma C7_mean_difference_witness :
  exists p',
    MeanDifferenceProbe_fit
      (base_init MeanDifferenceProbe (example_config (MeanDiffCfg false)))
      (Tensor [2; 2] [1%R; 2%R; 3%R; 5%R]) (Tensor [2] [1%R; 0%R]) = Ok p' /\
    get_direction p' = Ok (Tensor [2] [(1 - 3)%R; (2 - 5)%R]).
Proof.
  apply (C7_mean_difference
           (base_init MeanDifferenceProbe (example_config (MeanDiffCfg false)))
           (Tensor [2; 2] [1%R; 2%R; 3%R; 5%R]) (Tensor [2] [1%R; 0%R])
           [1%R; 2%R] [3%R; 5%R] 2 2); try reflexivity.
  - intros [|[|i]] Hi Hy; simpl in *; [reflexivity| |lia].
    unfold at_ in Hy. simpl in Hy. lra.
  - intros [|[|i]] Hi Hy; simpl in *; [|reflexivity|lia].
    unfold at_ in Hy. simpl in Hy. lra.
  - exists 0. split; [lia|reflexivity].
  - exists 1. split; [lia|reflexivity].
Defined.

(* ===================================================================== *)
(** ** The norm of a normalised direction                                  *)
(* ===================================================================== *)

Lemma fit_unfold (p : probe) (x y : tensor) :
  MeanDifferenceProbe_fit p x y =
    (delta <- class_mean_difference x y;;
     nw <- cfg_normalize_weights (config p);;
     direction <- (if nw then tdiv delta (add_scalar (norm delta) eps) else Ok delta);;
     Ok (set_direction p (Some direction))).
Proof.
  unfold MeanDifferenceProbe_fit, class_mean_difference.
  destruct (index_mask x (shape y) (eq_mask y 1)) as [xp|]; [simpl|reflexivity].
  destruct (mean0 xp) as [pm|]; [simpl|reflexivity].
  destruct (index_mask x (shape y) (eq_mask y 0)) as [xn|]; [simpl|reflexivity].
  destruct (mean0 xn) as [nm|]; [simpl|reflexivity].
  reflexivity.
Qed.

Lemma broadcast2_wf (f : R -> R -> R) (a b t : tensor) :
  broadcast2 f a b = Ok t -> wf t.
Proof.
  unfold broadcast2. destruct (bcast_rev _ _) as [r|]; [|discriminate].
  intros [= <-]. unfold wf. simpl. now rewrite length_map, length_seq, numel_rev.
Qed.

Lemma class_mean_difference_wf (x y delta : tensor) :
  class_mean_difference x y = Ok delta -> wf delta.
Proof.
  unfold class_mean_difference. intros H.
  repeat (apply bind_ok in H as (? & _ & H)).
  now apply broadcast2_wf in H.
Qed.

(** Division by the norm plus [1e-8], on a well-formed tensor. *)
Lemma normalize_by_norm (t : tensor) :
  wf t ->
  tdiv t (add_scalar (norm t) eps) =
    Ok (Tensor (shape t) (map (fun v => (v / (l2 (data t) + eps))%R) (data t))).
Proof.
  intros Hwf. change (add_scalar (norm t) eps) with (scalar (l2 (data t) + eps)).
  now apply tdiv_scalar.
Qed.

Lemma fit_normalized (p : probe) (x y delta : tensor) :
  cfg_normalize_weights (config p) = Ok true ->
  class_mean_difference x y = Ok delta ->
  MeanDifferenceProbe_fit p x y =
    Ok (set_direction p
          (Some (Tensor (shape delta)
                   (map (fun v => (v / (l2 (data delta) + eps))%R) (data delta))))).
Proof.
  intros Hnw Hd. rewrite fit_unfold, Hd. simpl. rewrite Hnw. simpl.
  rewrite normalize_by_norm by (eapply class_mean_difference_wf; exact Hd).
  reflexivity.
Qed.

Lemma class_mean_difference_const (x y : tensor) (v1 v0 : list R) (N d : nat) :
  shape x = [N; d] -> shape y = [N] -> wf y ->
  length v1 = d -> length v0 = d ->
  (forall i, i < N -> at_ (data y) i = 1%R -> row d i x = v1) ->
  (forall i, i < N -> at_ (data y) i = 0%R -> row d i x = v0) ->
  (exists i, i < N /\ at_ (data y) i = 1%R) ->
  (exists i, i < N /\ at_ (data y) i = 0%R) ->
  class_mean_difference x y = Ok (Tensor [d] (zip_with Rminus v1 v0)).
Proof.
  intros Hx Hy Hwf Hv1 Hv0 Hpos Hneg Hsome1 Hsome0.
  pose proof (class_mean x y 1%R v1 N d Hx Hy Hwf Hv1 Hpos Hsome1) as Hm1.
  pose proof (class_mean x y 0%R v0 N d Hx Hy Hwf Hv0 Hneg Hsome0) as Hm0.
  unfold class_mean_difference.
  destruct (index_mask x (shape y) (eq_mask y 1)) as [xp|]; [|discriminate].
  simpl in Hm1 |- *. rewrite Hm1. simpl.
  destruct (index_mask x (shape y) (eq_mask y 0)) as [xn|]; [|discriminate].
  simpl in Hm0 |- *. rewrite Hm0. simpl.
  apply tsub_vec; try reflexivity; unfold wf; simpl; lia.
Qed.

Lemma seq_as_map (a n : nat) : seq a n = map (fun j => a + j) (seq 0 n).
Proof.
  revert a. induction n as [|n IH]; intros a; simpl; [reflexivity|].
  rewrite Nat.add_0_r. f_equal. rewrite (IH (S a)), (IH 1), map_map.
  apply map_ext. intros j. lia.
Qed.

Lemma slice_map_seq {A : Type} (g : nat -> A) (r n o : nat) :
  r < o ->
  firstn n (skipn (r * n) (map g (seq 0 (o * n)))) = map g (seq (r * n) n).
Proof.
  intros Hr. rewrite skipn_map, firstn_map, skipn_seq. f_equal. simpl.
  replace (o * n - r * n) with (n + (o - r - 1) * n) by nia.
  rewrite seq_app. apply take_app_length'. now rewrite length_seq.
Qed.

Lemma slice_as_map (l : list R) (r n o : nat) :
  length l = o * n -> r < o ->
  slice r n l = map (fun j => at_ l (r * n + j)) (seq 0 n).
Proof.
  intros Hl Hr. unfold slice.
  rewrite <- (map_at_seq l (o * n) Hl) at 1.
  rewrite slice_map_seq by exact Hr.
  rewrite (seq_as_map (r * n) n), map_map. reflexivity.
Qed.

Lemma flat_map_singleton {A B : Type} (g : A -> B) (l : list A) :
  flat_map (fun a => [g a]) l = map g l.
Proof. induction l as [|a l IH]; simpl; [reflexivity|]. now rewrite IH. Qed.

(** The row norms of a matrix. *)
Lemma norm_dim1_rows (u : tensor) (o n : nat) :
  shape u = [o; n] -> wf u ->
  norm_dim1 u = Ok (Tensor [o; 1] (map (fun i => l2 (row n i u)) (seq 0 o))).
Proof.
  intros Hs Hwf. unfold wf in Hwf. rewrite Hs in Hwf. simpl in Hwf.
  rewrite Nat.mul_1_r in Hwf.
  unfold norm_dim1. rewrite Hs. simpl numel. simpl seq at 1. do 2 f_equal.
  rewrite <- flat_map_singleton. apply flat_map_seq_ext. intros i Hi. simpl.
  f_equal. unfold l2, row. do 2 f_equal.
  rewrite (slice_as_map (data u) i n o) by (trivial; lia).
  apply map_ext. intros j. f_equal. lia.
Qed.

(** Division of the rows of a matrix by a column. *)
Lemma tdiv_rows (u c : tensor) (o n : nat) :
  shape u = [o; n] -> shape c = [o; 1] ->
  tdiv u c =
    Ok (Tensor [o; n]
          (map (fun i => (at_ (data u) i / at_ (data c) (i / n))%R) (seq 0 (o * n)))).
Proof.
  intros Hu Hc. unfold tdiv, broadcast2. rewrite Hu, Hc. simpl rev.
  assert (Hb : bcast_rev [n; o] [1; o] = Some [n; o]).
  { simpl. rewrite Nat.eqb_refl. destruct (Nat.eqb n 1); reflexivity. }
  rewrite Hb. simpl rev. simpl numel. rewrite Nat.mul_1_r.
  replace (n * o) with (o * n) by lia. do 2 f_equal.
  apply map_seq_ext. intros i Hi.
  rewrite offset_rev_id by (simpl; lia). f_equal. f_equal.
  simpl. assert (Hn : n <> 0) by (intros ->; lia).
  assert (Hq : i / n < o) by (apply Nat.Div0.div_lt_upper_bound; lia).
  destruct (Nat.eqb_spec o 1) as [->|Ho].
  - assert (i / n = 0) by lia. lia.
  - rewrite Nat.mod_small by exact Hq. lia.
Qed.

Lemma row_of_quotient (u c : list R) (r o n : nat) :
  length u = o * n -> r < o ->
  slice r n (map (fun i => (at_ u i / at_ c (i / n))%R) (seq 0 (o * n)))
  = map (fun v => (v / at_ c r)%R) (slice r n u).
Proof.
  intros Hu Hr. unfold slice at 1. rewrite slice_map_seq by exact Hr.
  rewrite (slice_as_map u r n o Hu Hr), map_map, (seq_as_map (r * n) n), map_map.
  apply map_seq_ext. intros j Hj. f_equal. f_equal.
  assert (Hn : n <> 0) by lia.
  rewrite Nat.div_add_l by exact Hn. rewrite Nat.div_small by lia. lia.
Qed.

(** The direction of a gradient probe with several outputs: every row of
    the unscaled weights divided by its norm plus [1e-8]. *)
Lemma gradient_get_direction_multi (p : probe) (lin : Linear) (u : tensor) (o n : nat) :
  linear p = Some lin ->
  unscale p (weight lin) = Ok u ->
  shape u = [o; n] -> wf u -> 1 < o ->
  cfg_output_size (config p) = Ok o ->
  cfg_normalize_weights (config p) = Ok true ->
  flag (config p) "is_normalized" = false ->
  exists d,
    gradient_get_direction p = Ok d /\ shape d = [o; n] /\
    forall r, r < o ->
      row n r d = map (fun v => (v / (l2 (row n r u) + eps))%R) (row n r u).
Proof.
  intros Hlin Hu Hs Hwf Ho Hos Hnw Hflag.
  unfold gradient_get_direction, self_linear. rewrite Hlin. simpl.
  rewrite Hu. simpl. unfold normalize_direction. rewrite Hnw, Hflag. simpl.
  rewrite Hos. simpl. destruct (Nat.ltb_spec 1 o) as [_|]; [|lia].
  rewrite (norm_dim1_rows u o n Hs Hwf). simpl.
  erewrite tdiv_rows; [|exact Hs|reflexivity]. simpl.
  destruct (Nat.eqb_spec o 1) as [->|_]; [lia|].
  eexists. split; [reflexivity|]. split; [reflexivity|].
  intros r Hr. unfold row. simpl.
  unfold wf in Hwf. rewrite Hs in Hwf. simpl in Hwf. rewrite Nat.mul_1_r in Hwf.
  rewrite (row_of_quotient (data u) _ r o n Hwf Hr).
  apply map_ext. intros v. f_equal. unfold at_.
  rewrite (nth_indep _ 0%R (0 + eps)%R)
    by (rewrite !length_map, length_seq; exact Hr).
  rewrite (map_nth (fun x => (x + eps)%R)). f_equal.
  now rewrite nth_map_seq.
Qed.

Lemma mean_difference_fit_split (p : probe) (x y : tensor) :
  MeanDifferenceProbe_fit p x y
  = bind (class_mean_difference x y) (store_direction p).
Proof.
  unfold MeanDifferenceProbe_fit, class_mean_difference, store_direction.
  repeat step_bind. reflexivity.
Qed.

Lemma kmeans_fit_split (kmeans : tensor -> result (tensor * list nat))
    (p : probe) (x y : tensor) :
  KMeansProbe_fit kmeans p x y
  = bind (centroid_difference kmeans p x y) (store_direction p).
Proof.
  unfold KMeansProbe_fit, centroid_difference, store_direction.
  repeat step_bind. reflexivity.
Qed.

Lemma pca_fit_split (pca : tensor -> result tensor) (p : probe) (x y : tensor) :
  PCAProbe_fit pca p x y = bind (signed_component pca x y) (store_direction p).
Proof.
  unfold PCAProbe_fit, signed_component, store_direction.
  repeat step_bind. reflexivity.
Qed.

Lemma length_slice (l : list R) (i m n : nat) :
  length l = n * m -> i < n -> length (slice i m l) = m.
Proof.
  intros Hl Hi. unfold slice. rewrite length_firstn, length_skipn, Hl. nia.
Qed.

Lemma index0_wf (t r : tensor) (i : nat) :
  wf t -> index0 t i = Ok r -> wf r.
Proof.
  unfold wf, index0. intros Hwf H.
  destruct (shape t) as [|n rest]; [discriminate|].
  destruct (Nat.ltb_spec i n) as [Hi|]; [|discriminate].
  injection H as <-. simpl in *. now apply (length_slice _ _ _ n).
Qed.

Lemma centroid_difference_wf kmeans p x y delta :
  centroid_difference kmeans p x y = Ok delta -> wf delta.
Proof.
  unfold centroid_difference. intros H.
  repeat (apply bind_ok in H as (? & _ & H)).
  now apply broadcast2_wf in H.
Qed.

Lemma signed_component_wf pca x y delta :
  signed_component pca x y = Ok delta -> wf delta.
Proof.
  unfold signed_component. intros H.
  do 4 (apply bind_ok in H as (? & _ & H)).
  apply bind_ok in H as (scaled & Hscaled & H).
  apply broadcast2_wf in Hscaled. now apply (index0_wf scaled delta 0).
Qed.

(** What the second half of a closed-form fit stores when
    [normalize_weights] is true. *)
Lemma store_direction_normalized (p p' : probe) (delta : tensor) :
  gradient_based (cls p) = false ->
  cfg_normalize_weights (config p) = Ok true ->
  wf delta ->
  store_direction p delta = Ok p' ->
  get_direction p' =
    Ok (Tensor (shape delta)
          (map (fun v => (v / (l2 (data delta) + eps))%R) (data delta))).
Proof.
  intros Hk Hnw Hwf. unfold store_direction. rewrite Hnw. simpl.
  rewrite normalize_by_norm by exact Hwf. simpl. intros [= <-].
  unfold get_direction. simpl. now rewrite Hk.
Qed.

Lemma near_one_after_normalizing (l : list R) :
  (1e-4 <= l2 l)%R ->
  (Rabs (l2 (map (fun v => (v / (l2 l + eps))%R) l) - 1) <= 1e-4)%R.
Proof.
  intros H. rewrite l2_normalized. now apply normalized_near_one.
Qed.

Lemma closed_form_fit_norm (raw : result tensor) (p p' : probe) :
  gradient_based (cls p) = false ->
  cfg_normalize_weights (config p) = Ok true ->
  (forall delta, raw = Ok delta -> wf delta) ->
  bind raw (store_direction p) = Ok p' ->
  exists delta d,
    raw = Ok delta /\ get_direction p' = Ok d /\ normalized_from delta d.
Proof.
  intros Hk Hnw Hwf Hfit. apply bind_ok in Hfit as (delta & Hraw & Hstore).
  eexists delta, _. split; [exact Hraw|]. split.
  - apply (store_direction_normalized p p' delta Hk Hnw (Hwf delta Hraw) Hstore).
  - unfold normalized_from. simpl.
    split; [apply l2_normalized|apply near_one_after_normalizing].
Qed.

(** The two fits that go through scikit-learn return on well-shaped
    data. *)
Lemma kmeans_fit_returns :
  exists p' d,
    KMeansProbe_fit example_kmeans
      (base_init KMeansProbe (example_config (KMeansCfg 2 10 true 42)))
      identity_rows (Tensor [2] [0%R; 1%R]) = Ok p' /\
    get_direction p' = Ok d /\ shape d = [2].
Proof.
  unfold KMeansProbe_fit. simpl. unfold cluster_label. simpl.
  unfold index_mask. simpl. unfold mean_all. simpl.
  destruct (Rlt_dec _ _) as [_|H]; [|exfalso; apply H; lra].
  destruct (Rlt_dec _ _) as [H|_]; [exfalso; lra|].
  simpl. unfold index0. simpl.
  eexists _, _. split; [reflexivity|]. split; reflexivity.
Qed.

Lemma pca_fit_returns :
  exists p' d,
    PCAProbe_fit example_pca
      (base_init PCAProbe (example_config (PCACfg 1 true)))
      identity_rows (Tensor [2] [1%R; 0%R]) = Ok p' /\
    get_direction p' = Ok d /\ shape d = [2].
Proof.
  eexists _, _. split; [reflexivity|]. split; reflexivity.
Qed.

Lemma l2_3_4 : l2 [3%R; 4%R] = 5%R.
Proof.
  unfold l2, sumsq. simpl.
  replace (3 * 3 + (4 * 4 + 0))%R with (5 * 5)%R by lra.
  apply sqrt_square. lra.
Qed.

Lemma equal_means_difference :
  class_mean_difference equal_means_x equal_means_y
  = Ok (Tensor [2] [(1 - 1)%R; (2 - 2)%R]).
Proof.
  apply (class_mean_difference_const equal_means_x equal_means_y
           [1%R; 2%R] [1%R; 2%R] 2 2); try reflexivity.
  - intros [|[|i]] Hi Hy; simpl in *; [reflexivity| |lia].
    unfold at_ in Hy. simpl in Hy. lra.
  - intros [|[|i]] Hi Hy; simpl in *; [|reflexivity|lia].
    unfold at_ in Hy. simpl in Hy. lra.
  - exists 0. split; [lia|reflexivity].
  - exists 1. split; [lia|reflexivity].
Qed.

(** Counterexample to claim C5 as stated: fitted with
    [normalize_weights = true] on two classes with the same mean, a
    [MeanDifferenceProbe] has the zero direction, whose norm is 0. *)
Lemma C5_counterexample :
  exists p' d,
    MeanDifferenceProbe_fit unfitted_mean_difference equal_means_x equal_means_y = Ok p' /\
    cfg_normalize_weights (config p') = Ok true /\
    get_direction p' = Ok d /\
    l2 (data d) = 0%R /\
    ~ (Rabs (l2 (data d) - 1) <= 1e-4)%R.
Proof.
  eexists _, _. split.
  { apply fit_normalized; [reflexivity|apply equal_means_difference]. }
  split; [reflexivity|]. split; [reflexivity|].
  assert (H0 : l2 [(1 - 1)%R; (2 - 2)%R] = 0%R).
  { unfold l2, sumsq. simpl.
    replace ((1 - 1) * (1 - 1) + ((2 - 2) * (2 - 2) + 0))%R with 0%R by lra.
    apply sqrt_0. }
  assert (H : l2 (map (fun v => (v / (l2 [(1 - 1)%R; (2 - 2)%R] + eps))%R)
                      [(1 - 1)%R; (2 - 2)%R]) = 0%R).
  { rewrite l2_normalized, H0. unfold eps. lra. }
  cbn [data]. split; [exact H|]. rewrite H.
  intros Hc. rewrite Rabs_left in Hc by lra. lra.
Qed.

(* ===================================================================== *)
(** ** C4: encode with several outputs                                     *)
(* ===================================================================== *)

(** With several outputs the direction is the whole matrix. *)
Lemma gradient_direction_matrix (p : probe) (lin : Linear) (u : tensor) (o n : nat)
    (nw : bool) :
  linear p = Some lin ->
  unscale p (weight lin) = Ok u ->
  shape u = [o; n] -> wf u -> 1 < o ->
  cfg_output_size (config p) = Ok o ->
  cfg_normalize_weights (config p) = Ok nw ->
  exists d, gradient_get_direction p = Ok d /\ shape d = [o; n].
Proof.
  intros Hlin Hu Hs Hwf Ho Hos Hnw.
  destruct (nw && negb (flag (config p) "is_normalized")) eqn:E.
  - apply andb_true_iff in E as [-> Hf]. apply negb_true_iff in Hf.
    destruct (gradient_get_direction_multi p lin u o n Hlin Hu Hs Hwf Ho Hos Hnw Hf)
      as (d & Hd & Hsd & _).
    now exists d.
  - exists u. split; [|exact Hs].
    unfold gradient_get_direction, self_linear. rewrite Hlin. simpl.
    rewrite Hu. simpl. unfold normalize_direction. rewrite Hnw. simpl.
    rewrite E. simpl. rewrite Hos. simpl.
    destruct (Nat.eqb_spec o 1) as [->|_]; [lia|reflexivity].
Qed.

(** [encode] contracts against a vector only. *)
Lemma encode_matrix_direction (p : probe) (d acts : tensor) (o n : nat) :
  get_direction p = Ok d -> shape d = [o; n] ->
  encode p acts = Raise einsum_shape_error.
Proof.
  intros Hd Hs. unfold encode. rewrite Hd. simpl. unfold einsum_d. now rewrite Hs.
Qed.

(** Claim C4, evaluated on the code.  For a trained [LinearProbe] with
    [output_size = 2], [get_direction] returns the 2 x 2 matrix of
    directions, and [encode] on activations of shape [1, 2] raises the
    einsum error about the number of subscripts instead of returning two
    scores; the contraction [ProbeSet.encode] uses accepts the same
    operands and returns one score per direction. *)
Theorem C4_encode_multi_output :
  exists d,
    get_direction two_output_probe = Ok d /\ shape d = [2; 2] /\
    encode two_output_probe one_row = Raise einsum_shape_error /\
    exists r, einsum_nd one_row d = Ok r /\ shape r = [1; 2].
Proof.
  destruct (gradient_direction_matrix two_output_probe
              {| weight := Tensor [2; 2] [3%R; 4%R; 0%R; 5%R]; bias := None |}
              (Tensor [2; 2] [3%R; 4%R; 0%R; 5%R]) 2 2 true)
    as (d & Hd & Hs); try reflexivity; [lia|].
  exists d. split; [exact Hd|]. split; [exact Hs|]. split.
  - now apply (encode_matrix_direction two_output_probe d one_row 2 2).
  - unfold einsum_nd. rewrite Hs. simpl. eexists. split; reflexivity.
Qed.

(* ===================================================================== *)
(** ** C3: the legacy JSON shapes                                          *)
(* ===================================================================== *)

(** Without a bound [metadata], the second half of [load_json] raises. *)
Lemma install_vector_unbound (k : probe_class) (init : nat -> R) (vector : tensor)
    (config : ProbeConfig) :
  exists e, install_vector k init vector None config = Raise e.
Proof.
  unfold install_vector.
  destruct (new k init config) as [probe|e]; simpl; [|eauto].
  destruct (linear probe) as [lin|]; simpl.
  - destruct (bias lin); simpl; eauto.
  - eauto.
Qed.

(** The branch of the legacy shapes leaves [metadata] unbound. *)
Lemma parse_document_legacy (cuda : bool) (k : probe_class) (doc : json)
    (config : option ProbeConfig) (vector : tensor) (md : option json) (c : ProbeConfig) :
  parse_document cuda k doc config = Ok (vector, md, c) ->
  md = None \/
  (py_in "vector" doc = Ok true /\ py_in "metadata" doc = Ok true).
Proof.
  unfold parse_document. intros H.
  apply bind_ok in H as (hv & Hhv & H).
  apply bind_ok in H as (nf & Hnf & H).
  destruct nf.
  - right. destruct hv; [now split|discriminate].
  - left.
    repeat (apply bind_ok in H as (? & _ & H)).
    now injection H as _ <- _.
Qed.

(** [load_json] returns a probe only on a document of the current format,
    one with both a ["vector"] and a ["metadata"] entry. *)
Lemma load_json_needs_metadata (cuda : bool) (k : probe_class) (init : nat -> R)
    (doc : json) (config : option ProbeConfig) (p : probe) :
  load_json cuda k init doc config = Ok p ->
  py_in "vector" doc = Ok true /\ py_in "metadata" doc = Ok true.
Proof.
  unfold load_json. intros H.
  apply bind_ok in H as ([[vector md] c] & Hparse & H).
  destruct (parse_document_legacy cuda k doc config vector md c Hparse) as [->|Hnew].
  - destruct (install_vector_unbound k init vector c) as [e He]. congruence.
  - exact Hnew.
Qed.

(** Claim C3, evaluated on the code.  On each of the three legacy shapes,
    [load_json] with no configuration raises for every probe class: the
    classes that read a field the minimal [ProbeConfig] lacks raise
    AttributeError in their constructor, and [MeanDifferenceProbe], whose
    constructor succeeds, raises UnboundLocalError at the first read of
    [metadata]. *)
Theorem C3_legacy_shapes (cuda : bool) (init : nat -> R) (k : probe_class) :
  let failure :=
    match k with
    | LinearProbe | LogisticProbe => no_attribute "output_size"
    | KMeansProbe => no_attribute "n_clusters"
    | PCAProbe => no_attribute "n_components"
    | MeanDifferenceProbe => Exn UnboundLocalError "metadata"
    end in
  load_json cuda k init legacy_vectors None = Raise failure /\
  load_json cuda k init legacy_direction None = Raise failure /\
  load_json cuda k init legacy_bare None = Raise failure.
Proof.
  destruct k; repeat split; reflexivity.
Qed.

(* ===================================================================== *)
(** ** C2: the binary round trip                                           *)
(* ===================================================================== *)

Lemma new_closed_form_state (k : probe_class) (init : nat -> R) (c : ProbeConfig)
    (p : probe) :
  gradient_based k = false -> new k init c = Ok p -> p = base_init k c.
Proof.
  intros Hk Hnew. destruct k; try discriminate; simpl in Hnew.
  - destruct (cfg_kmeans c); simpl in Hnew; [|discriminate]. now injection Hnew.
  - destruct (cfg_n_components c); simpl in Hnew; [|discriminate]. now injection Hnew.
  - now injection Hnew.
Qed.

(** [save] always writes the ["state_dict"] entry. *)
Lemma save_writes_state_dict (p p' : probe) (ck : checkpoint) :
  save p = Ok (p', ck) ->
  ck_state_dict ck = Some (get_state_dict p) /\ ck_direction ck <> None /\
  ck_config ck = config p'.
Proof.
  unfold save. intros H. apply bind_ok in H as (d & _ & H).
  injection H as <- <-. simpl. repeat split. discriminate.
Qed.

(** For the three closed-form classes the saved state dictionary is empty,
    [load] takes the branch of the state dictionary, and the stored
    direction is never assigned: the loaded probe is not fitted. *)
Lemma load_save_closed_form (cuda : bool) (init : nat -> R) (path : string)
    (p p' q : probe) (ck : checkpoint) :
  gradient_based (cls p) = false ->
  linear p = None -> feature_mean p = None -> feature_std p = None ->
  save p = Ok (p', ck) ->
  load cuda (cls p) init path (Pickled ck) = Ok q ->
  direction q = None /\ raises_not_fitted (get_direction q).
Proof.
  intros Hk Hlin Hmean Hstd Hsave Hload.
  destruct (save_writes_state_dict p p' ck Hsave) as (Hsd & _ & _).
  unfold load in Hload. destruct (endswith path ".json"); [discriminate|].
  apply bind_ok in Hload as (fresh & Hnew & Hload).
  apply (new_closed_form_state _ _ _ _ Hk) in Hnew. subst fresh.
  rewrite Hsd in Hload. unfold load_state_dict, get_state_dict in Hload.
  rewrite Hlin, Hmean, Hstd in Hload. simpl in Hload. injection Hload as <-.
  split; [reflexivity|].
  exists (not_fitted "get_direction"). split; [|reflexivity].
  unfold get_direction. simpl. now rewrite Hk.
Qed.

(** After a forward pass in training mode has filled the standardisation
    buffers of a gradient-based probe, the saved state dictionary holds
    keys a freshly constructed probe does not expect: [load] raises. *)
Lemma load_save_standardised (cuda : bool) (init : nat -> R) (path : string)
    (p p' : probe) (ck : checkpoint) (std : tensor) :
  gradient_based (cls p) = true ->
  feature_std p = Some std ->
  save p = Ok (p', ck) ->
  exists e, load cuda (cls p) init path (Pickled ck) = Raise e.
Proof.
  intros Hk Hstd Hsave.
  destruct (save_writes_state_dict p p' ck Hsave) as (Hsd & _ & _).
  unfold load. destruct (endswith path ".json"); [eauto|].
  destruct (new (cls p) init (ck_config ck)) as [fresh|e] eqn:Hnew; simpl; [|eauto].
  destruct (new_gradient _ _ _ _ Hk Hnew) as (_ & _ & Hfstd & _).
  rewrite Hsd. unfold load_state_dict, get_state_dict. simpl.
  rewrite Hfstd, Hstd.
  repeat match goal with
         | |- context [bind (load_entry ?a ?b) _] =>
             destruct (load_entry a b); simpl; [|eauto]
         end.
  eauto.
Qed.

(** Claim C2, evaluated on the code.  A fitted [MeanDifferenceProbe] with
    direction [(1, 2)] is saved with its direction and its configuration,
    and [load] on that file returns a probe with the same configuration
    whose direction is unset: [get_direction] raises the not-fitted
    error. *)
Theorem C2_binary_round_trip (cuda : bool) (init : nat -> R) :
  exists p' ck q,
    save (fitted_with [1%R; 2%R]) = Ok (p', ck) /\
    ck_direction ck = Some (vec [1%R; 2%R]) /\
    get_direction (fitted_with [1%R; 2%R]) = Ok (vec [1%R; 2%R]) /\
    load cuda MeanDifferenceProbe init "probe.pt" (Pickled ck) = Ok q /\
    config q = config (fitted_with [1%R; 2%R]) /\
    direction q = None /\
    get_direction q = Raise (not_fitted "get_direction").
Proof.
  eexists _, _, _. split; [reflexivity|]. repeat split.
Qed.

(* ===================================================================== *)
(** ** C6: what save changes                                               *)
(* ===================================================================== *)

Lemma collect_lookup_other (p : probe) (k : string) :
  ~ In k saved_keys ->
  collect_additional_info p !! k = additional_info (config p) !! k.
Proof.
  intros Hk. unfold saved_keys in Hk. simpl in Hk.
  unfold collect_additional_info.
  destruct (linear p) as [[w [b|]]|];
    destruct (feature_std p); destruct (feature_mean p);
    repeat (rewrite lookup_insert_ne by (intros E; apply Hk; subst k; auto 6));
    reflexivity.
Qed.

Lemma collect_nothing (p : probe) :
  feature_mean p = None -> feature_std p = None ->
  (forall lin, linear p = Some lin -> bias lin = None) ->
  collect_additional_info p = additional_info (config p).
Proof.
  intros Hm Hs Hb. unfold collect_additional_info. rewrite Hm, Hs.
  destruct (linear p) as [[w [b|]]|]; try reflexivity.
  specialize (Hb _ eq_refl). discriminate.
Qed.

Lemma set_additional_info_same (c : ProbeConfig) :
  set_additional_info c (additional_info c) = c.
Proof. now destruct c. Qed.

(** [get_direction] reads the two flags of [additional_info] only. *)
Lemma get_direction_frame (p : probe) (ai : gmap string json) :
  ai !! "is_unscaled" = additional_info (config p) !! "is_unscaled" ->
  ai !! "is_normalized" = additional_info (config p) !! "is_normalized" ->
  get_direction (set_config p (set_additional_info (config p) ai)) = get_direction p.
Proof.
  intros Hu Hn. unfold get_direction. simpl.
  destruct (gradient_based (cls p)); [|reflexivity].
  unfold gradient_get_direction, unscale, normalize_direction, flag,
    cfg_normalize_weights, cfg_output_size. simpl.
  now rewrite Hu, Hn.
Qed.

(** Claim C6, as amended.  [save] returns for every probe whose
    [get_direction] returns.  It leaves the class, the name, the linear
    layer, the buffers and the stored direction unchanged, and so the value
    of [get_direction]; of the configuration it replaces [additional_info]
    by a copy in which ["feature_mean"], ["feature_std"] and ["bias"] are
    set from the buffers and the bias that are present, every other key
    keeping its value.  When there is no buffer and no bias the
    configuration is unchanged. *)
Theorem C6_save_frame (p : probe) (d : tensor) :
  get_direction p = Ok d ->
  exists p' ck,
    save p = Ok (p', ck) /\ ck_direction ck = Some d /\
    cls p' = cls p /\ probe_name p' = probe_name p /\ linear p' = linear p /\
    feature_mean p' = feature_mean p /\ feature_std p' = feature_std p /\
    direction p' = direction p /\
    config p' = set_additional_info (config p) (collect_additional_info p) /\
    get_direction p' = Ok d /\
    (forall k, ~ In k saved_keys ->
       additional_info (config p') !! k = additional_info (config p) !! k) /\
    (feature_mean p = None -> feature_std p = None ->
     (forall lin, linear p = Some lin -> bias lin = None) ->
     config p' = config p).
Proof.
  intros Hd. unfold save. rewrite Hd. simpl.
  eexists _, _. split; [reflexivity|]. simpl. repeat split.
  - rewrite get_direction_frame; [exact Hd| |];
      apply collect_lookup_other; unfold saved_keys; simpl;
      intros [H|[H|[H|[]]]]; discriminate.
  - intros k Hk. now apply collect_lookup_other.
  - intros Hm Hs Hb. rewrite collect_nothing by assumption.
    apply set_additional_info_same.
Qed.

Lemma C6_save_frame_witness :
  exists p' ck,
    save (fitted_with [1%R; 2%R]) = Ok (p', ck) /\
    config p' = config (fitted_with [1%R; 2%R]) /\
    get_direction p' = Ok (vec [1%R; 2%R]).
Proof.
  destruct (C6_save_frame (fitted_with [1%R; 2%R]) (vec [1%R; 2%R]) eq_refl)
    as (p' & ck & Hsave & _ & _ & _ & _ & _ & _ & _ & _ & Hdir & _ & Hcfg).
  exists p', ck. split; [exact Hsave|]. split; [|exact Hdir].
  apply Hcfg; try reflexivity. discriminate.
Defined.

(** Counterexample to claim C6 as stated: [save] on a trained
    [LogisticProbe] adds the key ["bias"] to [config.additional_info]. *)
Lemma C6_counterexample :
  exists p' ck,
    save trained_logistic = Ok (p', ck) /\
    additional_info (config trained_logistic) !! "bias" = None /\
    additional_info (config p') !! "bias" = Some (JList [JNum 0%R]) /\
    additional_info (config p') <> additional_info (config trained_logistic).
Proof.
  eexists _, _. split; [reflexivity|]. split; [reflexivity|]. split; [reflexivity|].
  intros H. apply (f_equal (fun m => m !! "bias")) in H. discriminate.
Qed.

(* ===================================================================== *)
(** ** C1: the JSON round trip                                             *)
(* ===================================================================== *)

Lemma trained_3_4_direction :
  get_direction trained_3_4 = Ok (Tensor [2] [(3 / (5 + eps))%R; (4 / (5 + eps))%R]).
Proof.
  unfold get_direction. simpl gradient_based. cbv iota.
  rewrite (gradient_get_direction_single trained_3_4
             {| weight := Tensor [1; 2] [3%R; 4%R]; bias := None |}
             (Tensor [1; 2] [3%R; 4%R]) 2 true); try reflexivity.
  cbn [data]. rewrite l2_3_4. reflexivity.
Qed.

Lemma far_from_raw :
  ~ close_within 1e-5 [3%R; 4%R] [(3 / (5 + eps))%R; (4 / (5 + eps))%R].
Proof.
  intros [_ H]. specialize (H 0 ltac:(simpl; lia)). unfold at_ in H. simpl in H.
  assert (H1 : (3 / (5 + eps) <= 3 / 5)%R).
  { unfold Rdiv. apply Rmult_le_compat_l; [lra|].
    apply Rinv_le_contravar; unfold eps; lra. }
  pose proof (Rle_abs (3 - 3 / (5 + eps))). lra.
Qed.

(** Claim C1, evaluated on the code.  For the trained probe above,
    [get_direction] is [(3, 4) / (5 + 1e-8)]; [save_json] writes the raw
    weight row [(3, 4)] as ["vector"], together with both flags set to
    true; [load_json] on that document returns a probe whose flags are
    true and whose [get_direction] is the raw row [(3, 4)], which differs
    from the direction of the saved probe by more than [1e-5]. *)
Theorem C1_json_round_trip (cuda : bool) (init : nat -> R) :
  exists doc p',
    get_direction trained_3_4
      = Ok (Tensor [2] [(3 / (5 + eps))%R; (4 / (5 + eps))%R]) /\
    save_json trained_3_4 "out/probe" = Ok ("out/probe.json", doc) /\
    py_item "vector" doc = Ok (JList [JNum 3%R; JNum 4%R]) /\
    load_json cuda LinearProbe init doc None = Ok p' /\
    additional_info (config p') !! "is_normalized" = Some (JBool true) /\
    additional_info (config p') !! "is_unscaled" = Some (JBool true) /\
    get_direction p' = Ok (Tensor [2] [3%R; 4%R]) /\
    ~ close_within 1e-5 [3%R; 4%R] [(3 / (5 + eps))%R; (4 / (5 + eps))%R].
Proof.
  eexists _, _. split; [apply trained_3_4_direction|].
  split; [reflexivity|]. split; [reflexivity|]. split; [reflexivity|].
  split; [reflexivity|]. split; [reflexivity|]. split; [reflexivity|].
  apply far_from_raw.
Qed.

(* ===================================================================== *)
(** ** Further properties of the persistence paths                         *)
(* ===================================================================== *)

(** What [save] returns on a probe whose direction is [d]. *)
Lemma save_returns (p : probe) (d : tensor) :
  get_direction p = Ok d ->
  exists p' ck,
    save p = Ok (p', ck) /\
    p' = set_config p (set_additional_info (config p) (collect_additional_info p)) /\
    ck = {| ck_state_dict := Some (get_state_dict p');
            ck_config := config p';
            ck_direction := Some d;
            ck_probe_type := class_name (cls p') |} /\
    get_direction p' = Ok d.
Proof.
  intros Hd. unfold save. rewrite Hd. simpl. eexists _, _.
  split; [reflexivity|]. split; [reflexivity|]. split; [reflexivity|].
  rewrite get_direction_frame; [exact Hd| |];
    apply collect_lookup_other; unfold saved_keys; simpl;
    intros [H|[H|[H|[]]]]; discriminate.
Qed.

(** [load_json] returns a probe only on a document of the current format:
    whatever the class and whether or not a configuration is passed, a
    document without both a ["vector"] and a ["metadata"] entry makes it
    raise. *)
Theorem load_json_only_current_format (cuda : bool) (k : probe_class)
    (init : nat -> R) (doc : json) (config : option ProbeConfig) (p : probe) :
  load_json cuda k init doc config = Ok p ->
  py_in "vector" doc = Ok true /\ py_in "metadata" doc = Ok true.
Proof. apply load_json_needs_metadata. Qed.

Lemma load_json_only_current_format_witness :
  py_in "vector" minimal_document = Ok true /\
  py_in "metadata" minimal_document = Ok true.
Proof.
  eapply (load_json_only_current_format false LinearProbe (fun _ => 0%R)
            minimal_document None).
  reflexivity.
Defined.

(** Whatever [save] wrote for a [KMeansProbe], [PCAProbe] or
    [MeanDifferenceProbe], the probe [load] returns from it has no
    direction: [get_direction] raises the not-fitted error. *)
Theorem closed_form_load_is_unfitted (cuda : bool) (init : nat -> R) (path : string)
    (p p' q : probe) (ck : checkpoint) :
  gradient_based (cls p) = false ->
  linear p = None -> feature_mean p = None -> feature_std p = None ->
  save p = Ok (p', ck) ->
  load cuda (cls p) init path (Pickled ck) = Ok q ->
  direction q = None /\ raises_not_fitted (get_direction q).
Proof. apply load_save_closed_form. Qed.

Lemma closed_form_load_is_unfitted_witness :
  exists q,
    load false MeanDifferenceProbe (fun _ => 0%R) "probe.pt"
         (Pickled {| ck_state_dict := Some (get_state_dict (fitted_with [1%R; 2%R]));
                     ck_config := config (fitted_with [1%R; 2%R]);
                     ck_direction := Some (vec [1%R; 2%R]);
                     ck_probe_type := "MeanDifferenceProbe" |}) = Ok q /\
    direction q = None.
Proof.
  eexists. split; [reflexivity|].
  eapply (closed_form_load_is_unfitted false (fun _ => 0%R) "probe.pt"
            (fitted_with [1%R; 2%R]));
    reflexivity.
Defined.

(** Once the standardisation buffers of a gradient-based probe are set,
    the file [save] writes cannot be loaded: the state dictionary holds
    the buffers, which a freshly constructed probe registers as [None],
    and [load_state_dict] rejects the unexpected keys. *)
Theorem standardised_probe_cannot_be_loaded (cuda : bool) (init : nat -> R)
    (path : string) (p p' : probe) (ck : checkpoint) (std : tensor) :
  gradient_based (cls p) = true ->
  feature_std p = Some std ->
  save p = Ok (p', ck) ->
  exists e, load cuda (cls p) init path (Pickled ck) = Raise e.
Proof. apply load_save_standardised. Qed.

Lemma standardised_probe_cannot_be_loaded_witness :
  exists p' ck e,
    save standardised_probe = Ok (p', ck) /\
    load false LinearProbe (fun _ => 0%R) "probe.pt" (Pickled ck) = Raise e.
Proof.
  eexists _, _.
  destruct (standardised_probe_cannot_be_loaded false (fun _ => 0%R) "probe.pt"
              standardised_probe _ _ (Tensor [1; 2] [1%R; 2%R])
              eq_refl eq_refl eq_refl) as [e He].
  exists e. split; [reflexivity|exact He].
Defined.

(** For a gradient-based probe whose state agrees with its configuration
    and whose standardisation buffers are not set, [load] after [save]
    returns the saved probe (named after its configuration), so with the
    same direction. *)
Theorem binary_round_trip_gradient (cuda : bool) (init : nat -> R) (path : string)
    (p : probe) (lin : Linear) (o : nat) (d : tensor) :
  state_matches_config p lin o ->
  feature_mean p = None -> feature_std p = None ->
  endswith path ".json" = false ->
  get_direction p = Ok d ->
  exists p' ck q,
    save p = Ok (p', ck) /\
    load cuda (cls p) init path (Pickled ck) = Ok q /\
    q = set_name p' (name (config p')) /\
    get_direction q = Ok d.
Proof.
  intros (Hk & Hlin & Hdir & Ho & Hw & Hb) Hm Hs Hpath Hd.
  destruct (save_returns p d Hd) as (p' & ck & Hsave & Hp' & Hck & Hd').
  exists p', ck. eexists. split; [exact Hsave|].
  assert (Hload : load cuda (cls p) init path (Pickled ck)
                  = Ok (set_name p' (name (config p')))).
  { unfold load. rewrite Hpath, Hck. subst p'. simpl.
    destruct p as [k c nm l fm fs dr]. simpl in *. subst l fm fs dr.
    destruct lin as [w b]. simpl in *.
    destruct k; try discriminate; simpl;
      unfold cfg_output_size, cfg_bias in *; simpl in *;
      destruct (ext c); try discriminate; simpl in *;
      injection Ho as ->;
      (destruct b as [b|]; [destruct Hb as [Hb Hsb]|]; injection Hb as ->); simpl;
      unfold load_state_dict, get_state_dict, load_entry; simpl;
      rewrite ?Hw, ?Hsb; simpl;
      rewrite ?bool_decide_eq_true_2 by reflexivity; reflexivity. }
  split; [exact Hload|]. split; [reflexivity|].
  rewrite <- Hd'. unfold get_direction, gradient_get_direction, unscale,
    normalize_direction, flag. reflexivity.
Qed.

Lemma binary_round_trip_gradient_witness :
  exists p' ck q,
    save trained_3_4 = Ok (p', ck) /\
    load false LinearProbe (fun _ => 0%R) "probe.pt" (Pickled ck) = Ok q /\
    get_direction q = Ok (Tensor [2] [(3 / (5 + eps))%R; (4 / (5 + eps))%R]).
Proof.
  destruct (binary_round_trip_gradient false (fun _ => 0%R) "probe.pt" trained_3_4
              {| weight := Tensor [1; 2] [3%R; 4%R]; bias := None |} 1
              (Tensor [2] [(3 / (5 + eps))%R; (4 / (5 + eps))%R]))
    as (p' & ck & q & Hsave & Hload & _ & Hd).
  - repeat split.
  - reflexivity.
  - reflexivity.
  - reflexivity.
  - apply trained_3_4_direction.
  - exists p', ck, q. repeat split; assumption.
Defined.

(* ===================================================================== *)
(** ** Further properties of encode and of the fits                        *)
(* ===================================================================== *)

(** [encode] raises on every gradient-based probe with several outputs
    whose weights have the shape of its configuration: the direction is
    then a matrix, which the contraction of [encode] does not accept. *)
Theorem encode_raises_with_several_outputs (p : probe) (lin : Linear) (u : tensor)
    (o n : nat) (nw : bool) (acts : tensor) :
  gradient_based (cls p) = true ->
  linear p = Some lin ->
  unscale p (weight lin) = Ok u ->
  shape u = [o; n] -> wf u -> 1 < o ->
  cfg_output_size (config p) = Ok o ->
  cfg_normalize_weights (config p) = Ok nw ->
  encode p acts = Raise einsum_shape_error.
Proof.
  intros Hk Hlin Hu Hs Hwf Ho Hos Hnw.
  destruct (gradient_direction_matrix p lin u o n nw Hlin Hu Hs Hwf Ho Hos Hnw)
    as (d & Hd & Hsd).
  apply (encode_matrix_direction p d acts o n); [|exact Hsd].
  unfold get_direction. now rewrite Hk.
Qed.

Lemma encode_raises_with_several_outputs_witness :
  encode two_output_probe one_row = Raise einsum_shape_error.
Proof.
  apply (encode_raises_with_several_outputs two_output_probe
           {| weight := Tensor [2; 2] [3%R; 4%R; 0%R; 5%R]; bias := None |}
           (Tensor [2; 2] [3%R; 4%R; 0%R; 5%R]) 2 2 true one_row);
    try reflexivity. lia.
Defined.

(** [ProbeSet.encode] raises as soon as the direction of one member is not
    a vector (a gradient-based probe with several outputs): the stacked
    directions are then not a matrix. *)
Theorem probeset_encode_needs_vectors (s : ProbeSet) (acts : tensor) (j : nat)
    (p : probe) (d : tensor) :
  probes s !! j = Some p ->
  get_direction p = Ok d ->
  length (shape d) <> 1 ->
  exists e, ProbeSet_encode s acts = Raise e.
Proof.
  intros Hj Hd Hnd. unfold ProbeSet_encode.
  destruct (traverse get_direction (probes s)) as [ds|e] eqn:Hds; simpl; [|eauto].
  assert (Hin : In d ds).
  { clear Hnd. revert j ds Hj Hds. induction (probes s) as [|q qs IH]; intros j ds Hj Hds.
    - discriminate.
    - simpl in Hds. apply bind_ok in Hds as (dq & Hdq & Hds).
      apply bind_ok in Hds as (ds' & Hds' & Hds). injection Hds as <-.
      destruct j as [|j]; simpl in Hj.
      + injection Hj as ->. left. congruence.
      + right. now apply (IH j). }
  unfold stack. destruct ds as [|t ts]; [contradiction|].
  destruct (forallb (same_shape (shape t)) (t :: ts)) eqn:Hall; simpl; [|eauto].
  rewrite forallb_forall in Hall. specialize (Hall d Hin).
  unfold same_shape in Hall. apply bool_decide_eq_true in Hall.
  unfold einsum_nd. simpl. rewrite <- Hall.
  destruct (shape d) as [|a [|b rest]]; simpl in Hnd; try lia; eauto.
Qed.

Lemma probeset_encode_needs_vectors_witness :
  exists e,
    ProbeSet_encode {| probes := [two_output_probe]; set_model_name := None;
                       set_hook_point := None; set_hook_layer := None |}
                    one_row = Raise e.
Proof.
  destruct (gradient_direction_matrix two_output_probe
              {| weight := Tensor [2; 2] [3%R; 4%R; 0%R; 5%R]; bias := None |}
              (Tensor [2; 2] [3%R; 4%R; 0%R; 5%R]) 2 2 true)
    as (d & Hd & Hs); try reflexivity; [lia|].
  apply (probeset_encode_needs_vectors _ one_row 0 two_output_probe d);
    [reflexivity|exact Hd|]. rewrite Hs. simpl. lia.
Defined.




Lemma argmax_from_const (v : R) (l : list R) (i0 i : nat) :
  Forall (fun w => w = v) l -> argmax_from i0 v i l = i0.
Proof.
  intros H. revert i. induction H as [|w l -> _ IH]; intros i; simpl; [reflexivity|].
  destruct (Rlt_dec v v) as [Hlt|_]; [lra|apply IH].
Qed.

Lemma argmin_from_const (v : R) (l : list R) (i0 i : nat) :
  Forall (fun w => w = v) l -> argmin_from i0 v i l = i0.
Proof.
  intros H. revert i. induction H as [|w l -> _ IH]; intros i; simpl; [reflexivity|].
  destruct (Rlt_dec v v) as [Hlt|_]; [lra|apply IH].
Qed.

Lemma map_const_repeat {A B : Type} (b : B) (l : list A) :
  map (fun _ => b) l = repeat b (length l).
Proof. induction l as [|a l IH]; simpl; [reflexivity|]. now rewrite IH. Qed.

(** A tensor minus itself is zero. *)
Lemma tsub_self (t : tensor) : tsub t t = Ok (zeros (shape t)).
Proof.
  unfold tsub, broadcast2. rewrite bcast_rev_same, rev_involutive.
  unfold zeros. do 2 f_equal.
  transitivity (map (fun _ : nat => 0%R) (seq 0 (numel (rev (shape t))))).
  - apply map_ext. intros i. lra.
  - now rewrite map_const_repeat, length_seq, numel_rev.
Qed.

(** Normalising the zero tensor leaves it zero. *)
Lemma normalize_zeros (s : list nat) :
  tdiv (zeros s) (add_scalar (norm (zeros s)) eps) = Ok (zeros s).
Proof.
  rewrite normalize_by_norm by apply wf_zeros. unfold zeros. simpl. do 2 f_equal.
  rewrite map_repeat. f_equal. unfold Rdiv. apply Rmult_0_l.
Qed.

(** When every cluster has the same mean label (one cluster, or labels
    that do not separate the clusters), [np.argmax] and [np.argmin] both
    return the first cluster, and [KMeansProbe.fit] stores the zero
    direction instead of failing, with or without normalisation. *)
Theorem kmeans_equal_cluster_labels
    (kmeans : tensor -> result (tensor * list nat)) (p : probe) (x y : tensor)
    (centroids : tensor) (labels : list nat) (cfg : nat * nat * Z)
    (v : R) (ls : list R) (c : nat) (rest : list nat) :
  cls p = KMeansProbe ->
  kmeans x = Ok (centroids, labels) ->
  cfg_kmeans (config p) = Ok cfg ->
  traverse (cluster_label labels y) (seq 0 (fst (fst cfg))) = Ok (v :: ls) ->
  Forall (fun w => w = v) ls ->
  shape centroids = S c :: rest ->
  exists p',
    KMeansProbe_fit kmeans p x y = Ok p' /\
    get_direction p' = Ok (zeros rest).
Proof.
  intros Hcls Hkm Hcfg Hls Hall Hshape.
  assert (Hnw : exists nw, cfg_normalize_weights (config p) = Ok nw).
  { unfold cfg_kmeans, cfg_normalize_weights in *.
    destruct (ext (config p)); try discriminate; eauto. }
  destruct Hnw as [nw Hnw].
  unfold KMeansProbe_fit. rewrite Hkm. simpl. rewrite Hcfg. simpl.
  rewrite Hls. simpl.
  rewrite (argmax_from_const v ls 0 1 Hall), (argmin_from_const v ls 0 1 Hall).
  unfold index0. rewrite Hshape. simpl.
  rewrite (tsub_self (Tensor rest _)). simpl. rewrite Hnw. simpl.
  assert (Hd : (if nw then tdiv (zeros rest) (add_scalar (norm (zeros rest)) eps)
                else Ok (zeros rest)) = Ok (zeros rest)).
  { destruct nw; [apply normalize_zeros|reflexivity]. }
  rewrite Hd. simpl. eexists. split; [reflexivity|].
  unfold get_direction. simpl. now rewrite Hcls.
Qed.

Lemma kmeans_equal_cluster_labels_witness :
  exists p',
    KMeansProbe_fit example_kmeans
      (base_init KMeansProbe (example_config (KMeansCfg 2 10 true 42)))
      identity_rows (Tensor [2] [0%R; 0%R]) = Ok p' /\
    get_direction p' = Ok (zeros [2]).
Proof.
  eapply (kmeans_equal_cluster_labels example_kmeans _ identity_rows
            (Tensor [2] [0%R; 0%R]) _ _ (2, 10, 42%Z)); try reflexivity.
  repeat constructor.
Defined.

(* ===================================================================== *)
(** ** Round trips through JSON                                            *)
(* ===================================================================== *)
















Lemma set_feature_mean_same (q : probe) :
  set_feature_mean q (feature_mean q) = q.
Proof. now destruct q. Qed.

Lemma set_feature_std_same (q : probe) :
  set_feature_std q (feature_std q) = q.
Proof. now destruct q. Qed.


Lemma weight_row (w : tensor) (n : nat) :
  shape w = [1; n] -> w = Tensor [1; n] (data w).
Proof. destruct w as [s d]. simpl. now intros ->. Qed.





(* ===================================================================== *)
(** ** Normalisation in place                                              *)
(* ===================================================================== *)

Lemma fibre_vector (l : list R) (n : nat) :
  length l = n -> fibre l n 1 0 0 = l.
Proof.
  intros Hl. unfold fibre.
  transitivity (map (fun i => at_ l i) (seq 0 n)); [|now apply map_at_seq].
  apply map_seq_ext. intros i _. f_equal. lia.
Qed.

(** [F.normalize] along the only dimension of a vector. *)
Lemma F_normalize_vector (d : tensor) (n : nat) :
  shape d = [n] -> wf d ->
  F_normalize 0 d =
    Ok (Tensor [n] (map (fun v => (v / Rmax (l2 (data d)) 1e-12)%R) (data d))).
Proof.
  intros Hs Hwf. unfold wf in Hwf. rewrite Hs in Hwf. simpl in Hwf.
  rewrite Nat.mul_1_r in Hwf.
  unfold F_normalize. rewrite Hs. cbn [split_dim skipn firstn numel fold_right].
  rewrite Nat.mul_1_r. do 2 f_equal.
  transitivity (map (fun v => (v / Rmax (l2 (data d)) 1e-12)%R)
                    (map (fun i => at_ (data d) i) (seq 0 n))).
  - rewrite map_map. apply map_seq_ext. intros i Hi. f_equal. f_equal.
    unfold l2. do 2 f_equal.
    rewrite Nat.div_small by lia. rewrite Nat.mod_1_r.
    now apply fibre_vector.
  - now rewrite map_at_seq.
Qed.

Lemma map_div_one (l : list R) : map (fun v => (v / 1)%R) l = l.
Proof.
  rewrite <- (map_id l) at 2. apply map_ext. intros v. unfold Datatypes.id. field.
Qed.

Lemma l2_unit (l : list R) :
  (0 < l2 l)%R -> l2 (map (fun v => (v / l2 l)%R) l) = 1%R.
Proof. intros H. rewrite l2_scale by exact H. field. lra. Qed.

(** [normalize_vector] on a fitted closed-form probe whose direction is a
    vector. *)
Lemma normalize_vector_closed_form (p : probe) (d : tensor) (n : nat) :
  gradient_based (cls p) = false -> linear p = None ->
  direction p = Some d -> shape d = [n] -> wf d ->
  normalize_vector p =
    Ok (set_direction p
          (Some (Tensor [n] (map (fun v => (v / Rmax (l2 (data d)) 1e-12)%R) (data d))))).
Proof.
  intros Hk Hlin Hd Hs Hwf. unfold normalize_vector, get_direction, fitted_get_direction.
  rewrite Hk, Hd, Hlin. cbn [bind]. rewrite (F_normalize_vector d n Hs Hwf).
  reflexivity.
Qed.

(** [normalize_vector] makes the direction of a fitted [KMeansProbe],
    [PCAProbe] or [MeanDifferenceProbe] a unit vector, provided its norm
    is at least the [1e-12] below which [F.normalize] stops dividing by
    the norm; a second call then changes nothing.  A direction of smaller
    norm is divided by [1e-12] instead, so that a zero direction stays
    zero. *)
Theorem normalize_vector_unit_direction (p : probe) (d : tensor) (n : nat) :
  gradient_based (cls p) = false -> linear p = None ->
  direction p = Some d -> shape d = [n] -> wf d ->
  exists p' d',
    normalize_vector p = Ok p' /\
    get_direction p' = Ok d' /\ shape d' = [n] /\
    ((1e-12 <= l2 (data d))%R ->
       l2 (data d') = 1%R /\ normalize_vector p' = Ok p') /\
    ((l2 (data d) <= 1e-12)%R ->
       data d' = map (fun v => (v / 1e-12)%R) (data d)).
Proof.
  intros Hk Hlin Hd Hs Hwf.
  eexists _, _. split; [exact (normalize_vector_closed_form p d n Hk Hlin Hd Hs Hwf)|].
  split; [unfold get_direction; cbn [cls set_direction]; rewrite Hk; reflexivity|].
  split; [reflexivity|]. cbn [data]. split.
  - intros Hn. rewrite Rmax_left by exact Hn.
    assert (Hpos : (0 < l2 (data d))%R) by lra.
    split; [exact (l2_unit (data d) Hpos)|].
    erewrite normalize_vector_closed_form;
      [| exact Hk | exact Hlin | reflexivity | reflexivity
       | unfold wf; cbn [data shape numel fold_right]; rewrite length_map;
         unfold wf in Hwf; rewrite Hs in Hwf; exact Hwf ].
    cbn [data]. rewrite (l2_unit (data d) Hpos).
    rewrite Rmax_left by lra. rewrite map_div_one. reflexivity.
  - intros Hn. now rewrite Rmax_right by exact Hn.
Qed.

Lemma normalize_vector_unit_direction_witness :
  exists p' d',
    normalize_vector (fitted_with [3%R; 4%R]) = Ok p' /\
    get_direction p' = Ok d' /\ l2 (data d') = 1%R.
Proof.
  destruct (normalize_vector_unit_direction (fitted_with [3%R; 4%R]) (vec [3%R; 4%R]) 2)
    as (p' & d' & Hn & Hd & _ & Hunit & _); try reflexivity.
  exists p', d'. split; [exact Hn|]. split; [exact Hd|].
  apply Hunit. change (data (vec [3%R; 4%R])) with [3%R; 4%R].
  rewrite l2_3_4. lra.
Defined.

Lemma at_map_seq (f : nat -> R) (n i : nat) :
  i < n -> at_ (map f (seq 0 n)) i = f i.
Proof. apply nth_map_seq. Qed.

(** [F.normalize] along the rows of a matrix. *)
Lemma F_normalize_rows (w : tensor) (o n : nat) :
  shape w = [o; n] -> wf w ->
  F_normalize 1 w =
    Ok (Tensor [o; n]
          (map (fun i => (at_ (data w) i / at_ (clamped_row_norms o n w) (i / n))%R)
               (seq 0 (o * n)))).
Proof.
  intros Hs Hwf. unfold wf in Hwf. rewrite Hs in Hwf. simpl in Hwf.
  rewrite Nat.mul_1_r in Hwf.
  unfold F_normalize. rewrite Hs. cbn [split_dim skipn firstn numel fold_right].
  rewrite !Nat.mul_1_r. do 2 f_equal.
  apply map_seq_ext. intros i Hi. f_equal.
  assert (Hq : i / n < o) by (apply Nat.Div0.div_lt_upper_bound; lia).
  unfold clamped_row_norms. rewrite at_map_seq by exact Hq.
  f_equal. unfold l2, row. do 2 f_equal.
  rewrite Nat.mod_1_r. unfold fibre.
  rewrite (slice_as_map (data w) (i / n) n o Hwf Hq).
  apply map_seq_ext. intros j _. f_equal. lia.
Qed.

(** On a gradient-based probe whose direction can be computed,
    [normalize_vector] replaces the weights and nothing else: every weight
    row is divided by its norm, raised to [1e-12] where it is smaller, so
    that every row of norm at least [1e-12] becomes a unit vector. *)
Theorem normalize_vector_unit_rows (p : probe) (lin : Linear) (o n : nat) (dir : tensor) :
  linear p = Some lin -> shape (weight lin) = [o; n] -> wf (weight lin) ->
  get_direction p = Ok dir ->
  exists w',
    normalize_vector p = Ok (set_linear p (Some {| weight := w'; bias := bias lin |})) /\
    shape w' = [o; n] /\ wf w' /\
    forall r, r < o ->
      row n r w' = map (fun v => (v / Rmax (l2 (row n r (weight lin))) 1e-12)%R)
                       (row n r (weight lin)) /\
      ((1e-12 <= l2 (row n r (weight lin)))%R -> l2 (row n r w') = 1%R).
Proof.
  intros Hlin Hs Hwf Hd.
  eexists. split.
  { unfold normalize_vector. rewrite Hd, Hlin. cbn [bind].
    rewrite (F_normalize_rows (weight lin) o n Hs Hwf). reflexivity. }
  split; [reflexivity|]. split.
  { unfold wf. cbn [data shape numel fold_right]. rewrite length_map, length_seq. lia. }
  intros r Hr.
  assert (Hlen : length (data (weight lin)) = o * n).
  { unfold wf in Hwf. rewrite Hs in Hwf. simpl in Hwf. lia. }
  assert (Hrow : row n r
            (Tensor [o; n]
               (map (fun i => (at_ (data (weight lin)) i
                               / at_ (clamped_row_norms o n (weight lin)) (i / n))%R)
                    (seq 0 (o * n))))
          = map (fun v => (v / Rmax (l2 (row n r (weight lin))) 1e-12)%R)
                (row n r (weight lin))).
  { unfold row at 1. cbn [data].
    rewrite (row_of_quotient _ _ r o n Hlen Hr).
    unfold clamped_row_norms. rewrite at_map_seq by exact Hr.
    reflexivity. }
  split; [exact Hrow|].
  intros Hn. rewrite Hrow. rewrite Rmax_left by exact Hn.
  apply l2_unit. lra.
Qed.

Lemma normalize_vector_unit_rows_witness :
  exists w',
    normalize_vector trained_3_4
      = Ok (set_linear trained_3_4 (Some {| weight := w'; bias := None |})) /\
    l2 (row 2 0 w') = 1%R.
Proof.
  destruct (normalize_vector_unit_rows trained_3_4
              {| weight := Tensor [1; 2] [3%R; 4%R]; bias := None |} 1 2
              (Tensor [2] [(3 / (5 + eps))%R; (4 / (5 + eps))%R]))
    as (w' & Hn & _ & _ & Hrows); try reflexivity.
  - apply trained_3_4_direction.
  - exists w'. split; [exact Hn|].
    destruct (Hrows 0 ltac:(lia)) as [_ Hunit]. apply Hunit.
    change (row 2 0 (weight {| weight := Tensor [1; 2] [3%R; 4%R]; bias := None |}))
      with [3%R; 4%R].
    rewrite l2_3_4. lra.
Defined.

(* ===================================================================== *)
(** ** Forward passes                                                      *)
(* ===================================================================== *)

(** The standardisation statistics are those of the first batch seen in
    training mode and are never recomputed: after any sequence of forward
    passes, in whatever modes and on whatever batches (and whether or not
    a pass raised), a [LinearProbe] or [LogisticProbe] that started
    without buffers holds the mean and the standard deviation plus [1e-8]
    of that first batch; in every other case, and for the three
    closed-form classes, the state is the one before the passes. *)
Theorem forward_statistics_frozen (p : probe) (calls : list (bool * tensor)) :
  after_forward_passes p calls =
    match gradient_based (cls p), feature_mean p, first_training_batch calls with
    | true, None, Some x =>
        set_feature_std (set_feature_mean p (Some (mean0_keepdim x)))
                        (Some (add_scalar (std0_keepdim x) eps))
    | _, _, _ => p
    end.
Proof.
  revert p. induction calls as [|[tr x] calls IH]; intros p.
  - simpl. now destruct (gradient_based (cls p)), (feature_mean p).
  - change (after_forward_passes p ((tr, x) :: calls))
      with (after_forward_passes (fst (forward tr p x)) calls).
    rewrite IH. unfold forward, gradient_forward. cbn [fst snd].
    destruct (gradient_based (cls p)) eqn:Hk.
    + destruct (feature_mean p) eqn:Hm; cbn [fst].
      * rewrite Hk, Hm. reflexivity.
      * destruct tr; cbn [fst cls set_feature_std set_feature_mean feature_mean].
        -- rewrite Hk. reflexivity.
        -- rewrite Hk, Hm. reflexivity.
    + cbn [fst]. rewrite Hk. reflexivity.
Qed.

(** An operation between a matrix and a row that is broadcast over it. *)
Lemma broadcast2_rows (f : R -> R -> R) (x m : tensor) (n d : nat) :
  shape x = [n; d] -> shape m = [1; d] ->
  broadcast2 f x m =
    Ok (Tensor [n; d]
          (map (fun i => f (at_ (data x) i) (at_ (data m) (i mod d))) (seq 0 (n * d)))).
Proof.
  intros Hx Hm. unfold broadcast2. rewrite Hx, Hm. simpl rev.
  assert (Hb : bcast_rev [d; n] [d; 1] = Some [d; n]).
  { simpl. rewrite Nat.eqb_refl. destruct (Nat.eqb n 1); reflexivity. }
  rewrite Hb. simpl rev. simpl numel. rewrite Nat.mul_1_r.
  replace (d * n) with (n * d) by lia. do 2 f_equal.
  apply map_seq_ext. intros i Hi.
  rewrite offset_rev_id by (simpl; lia). f_equal. f_equal.
  simpl. destruct (Nat.eqb_spec d 1) as [->|Hd].
  - rewrite Nat.mod_1_r. lia.
  - lia.
Qed.

Lemma bdot_sum (d : nat) (a b : list R) :
  bdot d d a b = rsum (map (fun j => (at_ a j * at_ b j)%R) (seq 0 d)).
Proof.
  unfold bdot. rewrite Nat.max_id. f_equal. apply map_seq_ext. intros j Hj.
  destruct (Nat.eqb_spec d 1) as [->|Hd]; [|reflexivity].
  now replace j with 0 by lia.
Qed.

Lemma rsum_map_minus (f g : nat -> R) (l : list nat) :
  rsum (map (fun j => (f j - g j)%R) l) = (rsum (map f l) - rsum (map g l))%R.
Proof. induction l as [|a l IH]; simpl; [lra|]. rewrite IH. lra. Qed.

Lemma at_slice (l : list R) (i d n j : nat) :
  length l = n * d -> i < n -> j < d -> at_ (slice i d l) j = at_ l (i * d + j).
Proof.
  intros Hl Hi Hj. rewrite (slice_as_map l i d n Hl Hi).
  exact (at_map_seq (fun j => at_ l (i * d + j)) d j Hj).
Qed.

(** [self.linear(x)] on a batch of rows. *)
Lemma linear_apply_rows (lin : Linear) (x : tensor) (n d o : nat) :
  shape (weight lin) = [o; d] -> shape x = [n; d] ->
  match bias lin with Some b => shape b = [o] | None => True end ->
  linear_apply lin x =
    Ok (Tensor [n; o]
          (flat_map (fun i =>
             map (fun j => (bdot d d (slice i d (data x)) (slice j d (data (weight lin)))
                            + bias_entry lin j)%R)
                 (seq 0 o))
             (seq 0 n))).
Proof.
  intros Hw Hx Hb. unfold linear_apply, bias_entry. rewrite Hw, Hx. simpl rev.
  cbv iota. rewrite Nat.eqb_refl. simpl numel. rewrite Nat.mul_1_r.
  destruct (bias lin) as [b|].
  - rewrite bool_decide_eq_true_2 by exact Hb. reflexivity.
  - reflexivity.
Qed.

Lemma linear_set_buffers (p : probe) (m s : option tensor) :
  linear (set_feature_std (set_feature_mean p m) s) = linear p.
Proof. reflexivity. Qed.

(** The first forward pass in training mode, on a batch [x] of at least
    two rows (the unbiased standard deviation needs two) whose width is
    the input size: the pass returns one output row per input row, and
    the probe keeps the mean of the batch and a standard deviation whose
    entries are all at least [1e-8], so that standardising never divides
    by zero. *)
Theorem first_training_pass (p : probe) (lin : Linear) (o n : nat) (x : tensor) :
  state_matches_config p lin o ->
  feature_mean p = None ->
  shape x = [n; input_size (config p)] -> 2 <= n ->
  exists q y s,
    forward true p x = (q, Ok y) /\ shape y = [n; o] /\
    linear q = linear p /\
    feature_mean q = Some (mean0_keepdim x) /\
    feature_std q = Some s /\ shape s = [1; input_size (config p)] /\
    Forall (fun v => (1e-8 <= v)%R) (data s).
Proof.
  intros (Hk & Hlin & Hdir & Ho & Hw & Hb) Hm Hx Hn.
  unfold forward, gradient_forward. rewrite Hk, Hm.
  cbn [feature_mean feature_std set_feature_std set_feature_mean].
  set (d := input_size (config p)) in *.
  assert (Hsm : shape (mean0_keepdim x) = [1; d])
    by (unfold mean0_keepdim; rewrite Hx; reflexivity).
  assert (Hss : shape (add_scalar (std0_keepdim x) eps) = [1; d])
    by (unfold add_scalar, std0_keepdim; rewrite Hx; reflexivity).
  unfold tsub. rewrite (broadcast2_rows Rminus x _ n d Hx Hsm). cbn [bind].
  unfold tdiv. erewrite (broadcast2_rows Rdiv _ _ n d); [|reflexivity|exact Hss].
  cbn [bind]. unfold self_linear. rewrite linear_set_buffers, Hlin. cbn [bind].
  erewrite (linear_apply_rows lin _ n d o);
    [|exact Hw|reflexivity|destruct (bias lin); [apply Hb|exact I]].
  eexists _, _, _. split; [reflexivity|]. split; [reflexivity|].
  split; [exact Hlin|]. split; [reflexivity|].
  split; [reflexivity|]. split; [exact Hss|].
  unfold add_scalar, std0_keepdim. rewrite Hx. cbn [data].
  rewrite map_map. apply Forall_forall. intros v Hv.
  apply list_elem_of_In, in_map_iff in Hv. destruct Hv as (j & <- & _).
  pose proof (sqrt_pos
    (sumsq (map (fun v => (v - mean_list (fibre (data x) n (numel [d]) 0 j))%R)
                (fibre (data x) n (numel [d]) 0 j)) / INR (n - 1))).
  unfold eps. lra.
Qed.

Lemma first_training_pass_witness :
  exists q y s,
    forward true trained_3_4 identity_rows = (q, Ok y) /\ shape y = [2; 1] /\
    feature_std q = Some s /\ Forall (fun v => (1e-8 <= v)%R) (data s).
Proof.
  destruct (first_training_pass trained_3_4
              {| weight := Tensor [1; 2] [3%R; 4%R]; bias := None |} 1 2 identity_rows)
    as (q & y & s & Hf & Hy & _ & _ & Hs & _ & Hpos).
  - repeat split.
  - reflexivity.
  - reflexivity.
  - lia.
  - exists q, y, s. repeat split; assumption.
Defined.

(** The unscaling step of [get_direction] for one weight row. *)
Lemma tdiv_squeezed_row (w s : tensor) (d : nat) :
  shape w = [1; d] -> shape s = [1; d] ->
  tdiv w (squeeze s) =
    Ok (Tensor [1; d] (map (fun j => (at_ (data w) j / at_ (data s) j)%R) (seq 0 d))).
Proof.
  intros Hw Hs. unfold tdiv, broadcast2, squeeze. rewrite Hw, Hs. cbn [shape data].
  destruct (decide (d = 1)) as [->|Hd].
  - reflexivity.
  - rewrite filter_cons_False by (intros X; apply X; reflexivity).
    rewrite filter_cons_True by exact Hd.
    change (filter (fun n => n <> 1) []) with (@nil nat). simpl rev.
    assert (Hb : bcast_rev [d; 1] [d] = Some [d; 1])
      by (simpl; now rewrite Nat.eqb_refl).
    rewrite Hb. simpl rev. simpl numel. rewrite !Nat.mul_1_r. do 2 f_equal.
    apply map_seq_ext. intros i Hi.
    rewrite offset_rev_id by (simpl; lia). f_equal. f_equal.
    simpl. destruct (Nat.eqb_spec d 1) as [->|_]; [lia|].
    rewrite Nat.mod_small by lia. lia.
Qed.

(** What [forward] computes and what [encode] computes differ by a
    constant.  For a single-output [LinearProbe] or [LogisticProbe] with
    [normalize_weights = False] whose standardisation buffers are rows of
    the input width, without a zero in the standard deviation, [forward]
    leaves the probe as it is, and its output for each row of a batch is
    the [encode] score of that row, minus the [encode] score of the stored
    mean, plus the bias: the division by the standard deviation in
    [get_direction] is what makes the direction act on raw activations as
    the weights act on standardised ones. *)
Theorem forward_is_encode_up_to_a_constant (training : bool) (p : probe) (lin : Linear)
    (m s x : tensor) (n d : nat) :
  state_matches_config p lin 1 -> wf (weight lin) ->
  cfg_normalize_weights (config p) = Ok false ->
  flag (config p) "is_unscaled" = false ->
  feature_mean p = Some m -> feature_std p = Some s ->
  input_size (config p) = d ->
  shape m = [1; d] -> wf m -> shape s = [1; d] ->
  Forall (fun v => v <> 0%R) (data s) ->
  shape x = [n; d] -> wf x ->
  exists y e e0,
    forward training p x = (p, Ok y) /\ encode p x = Ok e /\ encode p m = Ok e0 /\
    shape y = [n; 1] /\ shape e = [n] /\ shape e0 = [1] /\
    forall i, i < n ->
      at_ (data y) i = (at_ (data e) i - at_ (data e0) 0 + bias_entry lin 0)%R.
Proof.
  intros (Hk & Hlin & Hdir & Ho & Hw & Hb) Hwf Hnw Hflag Hmean Hstd Hd Hm Hwfm Hs _ Hx Hwfx.
  rewrite Hd in Hw.
  assert (Hlw : length (data (weight lin)) = 1 * d)
    by (unfold wf in Hwf; rewrite Hw in Hwf; simpl in *; lia).
  assert (Hlm : length (data m) = 1 * d)
    by (unfold wf in Hwfm; rewrite Hm in Hwfm; simpl in *; lia).
  assert (Hlx : length (data x) = n * d)
    by (unfold wf in Hwfx; rewrite Hx in Hwfx; simpl in *; lia).
  set (u := map (fun j => (at_ (data (weight lin)) j / at_ (data s) j)%R) (seq 0 d)).
  assert (Hdir' : get_direction p = Ok (Tensor [d] u)).
  { unfold get_direction. rewrite Hk.
    rewrite (gradient_get_direction_single p lin (Tensor [1; d] u) d false Hlin);
      [reflexivity| |reflexivity| |exact Ho|exact Hnw].
    - unfold unscale. rewrite Hstd, Hflag. cbn [negb].
      exact (tdiv_squeezed_row (weight lin) s d Hw Hs).
    - unfold wf, u. cbn [data shape numel fold_right].
      rewrite length_map, length_seq. lia. }
  set (z := map (fun k =>
                   (at_ (map (fun k0 => (at_ (data x) k0 - at_ (data m) (k0 mod d))%R)
                             (seq 0 (n * d))) k
                    / at_ (data s) (k mod d))%R)
                (seq 0 (n * d))).
  exists (Tensor [n; 1]
            (map (fun i => (bdot d d (slice i d z) (slice 0 d (data (weight lin)))
                            + bias_entry lin 0)%R) (seq 0 n))).
  exists (Tensor [n] (map (fun i => bdot d d (slice i d (data x)) u) (seq 0 n))).
  exists (Tensor [1] (map (fun i => bdot d d (slice i d (data m)) u) (seq 0 1))).
  split.
  { unfold forward, gradient_forward. rewrite Hk, Hmean. cbv iota. rewrite Hmean, Hstd.
    f_equal. unfold tsub.
    rewrite (broadcast2_rows Rminus x m n d Hx Hm). cbn [bind].
    unfold tdiv. erewrite (broadcast2_rows Rdiv _ s n d); [|reflexivity|exact Hs].
    cbn [bind data]. unfold self_linear. rewrite Hlin. cbn [bind].
    erewrite (linear_apply_rows lin _ n d 1);
      [|exact Hw|reflexivity|destruct (bias lin); [apply Hb|exact I]].
    reflexivity. }
  split.
  { unfold encode. rewrite Hdir'. cbn [bind].
    rewrite (einsum_d_vector x (Tensor [d] u) [n] d eq_refl Hx).
    simpl numel. now rewrite Nat.mul_1_r. }
  split.
  { unfold encode. rewrite Hdir'. cbn [bind].
    rewrite (einsum_d_vector m (Tensor [d] u) [1] d eq_refl Hm).
    reflexivity. }
  split; [reflexivity|]. split; [reflexivity|]. split; [reflexivity|].
  intros i Hi. cbn [data].
  rewrite !at_map_seq by lia. f_equal.
  rewrite !bdot_sum, <- rsum_map_minus. f_equal.
  apply map_seq_ext. intros j Hj.
  assert (Hz : length z = n * d) by (unfold z; now rewrite length_map, length_seq).
  rewrite (at_slice z i d n j Hz Hi) by lia.
  rewrite (at_slice (data (weight lin)) 0 d 1 j Hlw) by lia.
  rewrite (at_slice (data x) i d n j Hlx Hi) by lia.
  rewrite (at_slice (data m) 0 d 1 j Hlm) by lia.
  unfold z, u. rewrite !at_map_seq by nia.
  replace ((i * d + j) mod d) with j
    by (rewrite Nat.add_comm, Nat.Div0.mod_add, Nat.mod_small; lia).
  simpl Nat.add. unfold Rdiv. ring.
Qed.

Lemma forward_is_encode_up_to_a_constant_witness :
  exists y e e0,
    forward false standardised_probe identity_rows = (standardised_probe, Ok y) /\
    encode standardised_probe identity_rows = Ok e /\
    encode standardised_probe (Tensor [1; 2] [0%R; 0%R]) = Ok e0 /\
    at_ (data y) 1 = (at_ (data e) 1 - at_ (data e0) 0 + 0)%R.
Proof.
  destruct (forward_is_encode_up_to_a_constant false standardised_probe
              {| weight := Tensor [1; 2] [3%R; 4%R]; bias := None |}
              (Tensor [1; 2] [0%R; 0%R]) (Tensor [1; 2] [1%R; 2%R]) identity_rows 2 2)
    as (y & e & e0 & Hf & He & He0 & _ & _ & _ & Hrows); try reflexivity.
  - repeat split.
  - repeat constructor; lra.
  - exists y, e, e0. repeat split; try assumption.
    apply (Hrows 1). lia.
Defined.

(* ===================================================================== *)
(** ** The compatibility shim                                              *)
(* ===================================================================== *)

(** What [get_direction] reads of a probe. *)
Lemma get_direction_depends (p q : probe) :
  cls p = cls q -> linear p = linear q -> feature_std p = feature_std q ->
  direction p = direction q -> ext (config p) = ext (config q) ->
  flag (config p) "is_unscaled" = flag (config q) "is_unscaled" ->
  flag (config p) "is_normalized" = flag (config q) "is_normalized" ->
  get_direction p = get_direction q.
Proof.
  intros Hc Hl Hs Hd He Hu Hn.
  unfold get_direction, gradient_get_direction, fitted_get_direction, self_linear,
    unscale, normalize_direction, cfg_normalize_weights, cfg_output_size.
  now rewrite Hc, Hl, Hs, Hd, He, Hu, Hn.
Qed.

Lemma to_probe_vector_lookup (p : probe) (a b : option string) (c : option Z)
    (nm : option string) (extra : option (gmap string json)) (k : string) :
  k <> "feature_mean" -> k <> "feature_std" ->
  (forall m, extra = Some m -> m !! k = None) ->
  additional_info (config (to_probe_vector p a b c nm extra)) !! k
  = additional_info (config p) !! k.
Proof.
  intros Hm Hs Hextra. unfold to_probe_vector. cbn [config additional_info].
  destruct (feature_std p); [rewrite lookup_insert_ne by congruence|];
    (destruct (feature_mean p); [rewrite lookup_insert_ne by congruence|]);
    (destruct extra as [m|]; [apply lookup_union_r, Hextra; reflexivity|reflexivity]).
Qed.

Lemma shim_direction (p : probe) (a b : option string) (c : option Z)
    (nm : option string) (extra : option (gmap string json)) :
  (forall m, extra = Some m ->
     m !! "is_unscaled" = None /\ m !! "is_normalized" = None) ->
  get_direction (to_probe_vector p a b c nm extra) = get_direction p.
Proof.
  intros Hflags.
  apply get_direction_depends; try reflexivity; unfold flag;
    rewrite to_probe_vector_lookup; try reflexivity; try discriminate;
    intros m Hm; apply (Hflags m Hm).
Qed.

(** [to_probe_vector] changes the metadata of the configuration and
    nothing that [get_direction] reads: whatever the arguments, as long as
    the [additional_info] passed sets neither of the two flags, the
    direction after the call is the direction before it, and the weights,
    the buffers and the stored direction are untouched. *)
Theorem to_probe_vector_keeps_direction (p : probe) (arg_model_name arg_hook_point : option string)
    (arg_hook_layer : option Z) (kw_name : option string)
    (kw_additional_info : option (gmap string json)) :
  (forall m, kw_additional_info = Some m ->
     m !! "is_unscaled" = None /\ m !! "is_normalized" = None) ->
  let q := to_probe_vector p arg_model_name arg_hook_point arg_hook_layer kw_name
             kw_additional_info in
  get_direction q = get_direction p /\
  linear q = linear p /\ direction q = direction p /\
  feature_mean q = feature_mean p /\ feature_std q = feature_std p.
Proof.
  intros Hflags q. split; [|repeat split].
  now apply shim_direction.
Qed.

Lemma to_probe_vector_keeps_direction_witness :
  get_direction (to_probe_vector standardised_probe (Some "gpt2") None (Some 3%Z)
                   (Some "probe") (Some (<["note" := JStr "v1"]> ∅)))
  = get_direction standardised_probe.
Proof.
  apply (to_probe_vector_keeps_direction standardised_probe (Some "gpt2") None (Some 3%Z)
           (Some "probe") (Some (<["note" := JStr "v1"]> ∅))).
  intros m [= <-]. split; reflexivity.
Defined.

Lemma collect_after_shim (p : probe) :
  collect_additional_info (to_probe_vector p None None None None None)
  = collect_additional_info p.
Proof.
  unfold collect_additional_info, to_probe_vector.
  cbn [config additional_info feature_mean feature_std linear].
  destruct (feature_mean p), (feature_std p);
    rewrite ?(insert_insert_ne _ "feature_mean" "feature_std") by discriminate;
    rewrite ?insert_insert_eq; reflexivity.
Qed.

(** Calling [to_probe_vector()] without arguments before [save] changes
    neither the file that [save] writes nor the state it leaves: the
    entries the shim adds to [additional_info] are those [save] sets
    itself. *)
Theorem save_after_to_probe_vector (p : probe) :
  save (to_probe_vector p None None None None None) = save p.
Proof.
  assert (Hd : get_direction (to_probe_vector p None None None None None)
               = get_direction p).
  { apply shim_direction. intros m [=]. }
  unfold save. rewrite Hd, collect_after_shim.
  destruct (get_direction p) as [d|e]; [|reflexivity]. cbn [bind].
  assert (Hp : set_config (to_probe_vector p None None None None None)
                 (set_additional_info
                    (config (to_probe_vector p None None None None None))
                    (collect_additional_info p))
               = set_config p (set_additional_info (config p) (collect_additional_info p))).
  { destruct p as [k c nm l fm fs dr]. destruct c. reflexivity. }
  rewrite Hp. reflexivity.
Qed.

(* ===================================================================== *)
(** ** Losses                                                              *)
(* ===================================================================== *)

(** The constructor of a [LinearProbe] accepts every loss type, and
    [get_loss_fn] on the probe it builds returns a loss exactly for
    ["mse"], ["hinge"] and ["cosine"]; for every other loss type it raises
    [ValueError].  The type ["l1"], which the configuration declares, is
    among the rejected ones, and ["hinge"], which it does not declare,
    among the accepted ones. *)
Theorem linear_loss_types (cosine_embedding_loss : tensor -> tensor -> tensor -> result R)
    (init : nat -> R) (c : ProbeConfig) (lt : string) (nw b : bool) (o : nat) :
  ext c = LinearCfg lt nw b o ->
  exists p,
    new LinearProbe init c = Ok p /\
    ((exists f, LinearProbe_get_loss_fn cosine_embedding_loss p = Ok f) <->
     (lt = "mse" \/ lt = "hinge" \/ lt = "cosine")) /\
    (lt <> "mse" -> lt <> "hinge" -> lt <> "cosine" ->
     LinearProbe_get_loss_fn cosine_embedding_loss p
     = Raise (Exn ValueError "Unknown loss type")).
Proof.
  intros He. eexists. split.
  { unfold new, cfg_output_size, cfg_bias. rewrite He. reflexivity. }
  unfold LinearProbe_get_loss_fn, cfg_loss_type.
  cbn [config set_linear base_init]. rewrite He. cbn [bind].
  destruct (String.eqb_spec lt "mse") as [->|H1].
  { split; [split; eauto|]. intros H. now destruct H. }
  destruct (String.eqb_spec lt "hinge") as [->|H2].
  { split; [split; eauto|]. intros _ H. now destruct H. }
  destruct (String.eqb_spec lt "cosine") as [->|H3].
  { split; [split; eauto|]. intros _ _ H. now destruct H. }
  split; [|reflexivity]. split.
  - intros [f Hf]. discriminate.
  - intros [H|[H|H]]; contradiction.
Qed.

Lemma linear_loss_types_witness :
  exists p,
    new LinearProbe (fun _ => 0%R) l1_config = Ok p /\
    LinearProbe_get_loss_fn example_cosine_loss p
    = Raise (Exn ValueError "Unknown loss type").
Proof.
  destruct (linear_loss_types example_cosine_loss (fun _ => 0%R) l1_config
              "l1" true false 1 eq_refl) as (p & Hnew & _ & Hraise).
  exists p. split; [exact Hnew|]. apply Hraise; discriminate.
Defined.

(** An elementwise operation between two tensors of one shape. *)
Lemma broadcast2_same (f : R -> R -> R) (a b : tensor) (s : list nat) :
  shape a = s -> shape b = s ->
  broadcast2 f a b =
    Ok (Tensor s (map (fun i => f (at_ (data a) i) (at_ (data b) i)) (seq 0 (numel s)))).
Proof.
  intros Ha Hb. unfold broadcast2. rewrite Ha, Hb, bcast_rev_same, rev_involutive.
  rewrite numel_rev. do 2 f_equal. apply map_seq_ext. intros i Hi.
  rewrite offset_rev_id by (rewrite numel_rev; lia). reflexivity.
Qed.

Lemma at_map (g : R -> R) (l : list R) (i : nat) :
  i < length l -> at_ (map g l) i = g (at_ l i).
Proof.
  intros Hi. unfold at_. rewrite (nth_indep _ 0%R (g 0%R)) by now rewrite length_map.
  apply map_nth.
Qed.

Lemma rsum_map_nonneg (h : nat -> R) (l : list nat) :
  (forall i, In i l -> (0 <= h i)%R) -> (0 <= rsum (map h l))%R.
Proof.
  induction l as [|a l IH]; intros H; simpl; [lra|].
  pose proof (H a (or_introl eq_refl)).
  assert (0 <= rsum (map h l))%R by (apply IH; intros; apply H; now right). lra.
Qed.

Lemma rsum_map_zero (h : nat -> R) (l : list nat) :
  (forall i, In i l -> (0 <= h i)%R) -> rsum (map h l) = 0%R ->
  forall i, In i l -> h i = 0%R.
Proof.
  induction l as [|a l IH]; intros H Hz i Hi; [destruct Hi|].
  simpl in Hz. pose proof (H a (or_introl eq_refl)).
  assert (0 <= rsum (map h l))%R
    by (apply rsum_map_nonneg; intros; apply H; now right).
  destruct Hi as [<-|Hi]; [lra|].
  apply IH; [intros; apply H; now right|lra|exact Hi].
Qed.

Lemma rsum_map_all_zero (h : nat -> R) (l : list nat) :
  (forall i, In i l -> h i = 0%R) -> rsum (map h l) = 0%R.
Proof.
  induction l as [|a l IH]; intros H; simpl; [reflexivity|].
  rewrite (H a (or_introl eq_refl)), IH; [lra|]. intros; apply H; now right.
Qed.

Lemma l2_reg_penalty (p : probe) (lin : Linear) :
  linear p = Some lin -> l2_reg p = Ok (penalty lin).
Proof.
  intros Hlin. unfold l2_reg, self_linear, penalty. rewrite Hlin. cbn [bind].
  rewrite sqrt_sqrt by apply sumsq_nonneg. reflexivity.
Qed.

(** The ["mse"] loss of a [LinearProbe], for predictions and targets of
    one non-empty shape: the targets 0 and 1 are moved to -1 and 1, and
    the loss is the mean squared difference plus the penalty
    [0.01 * ||W||^2] on the weights the probe has when the loss is called.
    It is never below the penalty and equals it exactly when every
    prediction is [2 * target - 1]. *)
Theorem mse_loss_at_least_penalty
    (cosine_embedding_loss : tensor -> tensor -> tensor -> result R)
    (p self : probe) (lin : Linear) (pred target : tensor) (s : list nat) :
  cfg_loss_type (config p) = Ok "mse" ->
  linear self = Some lin ->
  shape pred = s -> shape target = s -> wf pred -> wf target -> numel s <> 0 ->
  exists f v,
    LinearProbe_get_loss_fn cosine_embedding_loss p = Ok f /\
    f self pred target = Ok (scalar v) /\
    (penalty lin <= v)%R /\
    (v = penalty lin <-> data pred = map (fun t => (2 * t - 1)%R) (data target)).
Proof.
  intros Hlt Hlin Hp Ht Hwp Hwt Hs.
  unfold wf in Hwp, Hwt. rewrite Hp in Hwp. rewrite Ht in Hwt.
  set (N := numel s) in *.
  set (h := fun i => ((at_ (data pred) i - (2 * at_ (data target) i - 1))
                      * (at_ (data pred) i - (2 * at_ (data target) i - 1)))%R).
  assert (Hh : forall i, In i (seq 0 N) -> (0 <= h i)%R).
  { intros i _. unfold h. apply Rle_0_sqr. }
  assert (HN : (0 < INR N)%R) by (apply lt_0_INR; lia).
  exists (fun self pred target =>
            let target := rescale_target target in
            mse <- mse_loss pred target;;
            reg <- l2_reg self;;
            Ok (scalar (mse + reg))).
  exists (rsum (map h (seq 0 N)) / INR N + penalty lin)%R.
  split.
  { unfold LinearProbe_get_loss_fn. rewrite Hlt. reflexivity. }
  split.
  { cbn zeta. unfold mse_loss.
    rewrite (broadcast2_same _ pred (rescale_target target) s Hp Ht). cbn [bind].
    rewrite (l2_reg_penalty self lin Hlin). cbn [bind].
    do 3 f_equal. unfold mean_all. cbn [data].
    rewrite length_map, length_seq. fold N. f_equal. f_equal.
    apply map_seq_ext. intros i Hi. unfold h, rescale_target. cbn [data].
    rewrite at_map by lia. reflexivity. }
  assert (Hsum : (0 <= rsum (map h (seq 0 N)))%R) by now apply rsum_map_nonneg.
  split.
  { assert (0 <= rsum (map h (seq 0 N)) / INR N)%R
      by (apply Rmult_le_pos; [exact Hsum|left; now apply Rinv_0_lt_compat]).
    lra. }
  split.
  - intros Hv.
    assert (Hz : rsum (map h (seq 0 N)) = 0%R).
    { assert (Hq : (rsum (map h (seq 0 N)) / INR N = 0)%R) by lra.
      apply (Rmult_eq_compat_r (INR N)) in Hq. unfold Rdiv in Hq.
      rewrite Rmult_assoc, Rinv_l, Rmult_1_r, Rmult_0_l in Hq by lra. exact Hq. }
    apply (nth_ext _ _ 0%R 0%R); [rewrite length_map; lia|].
    intros i Hi.
    pose proof (rsum_map_zero h (seq 0 N) Hh Hz i) as Hi0.
    assert (Hin : In i (seq 0 N)) by (apply in_seq; lia).
    specialize (Hi0 Hin). unfold h in Hi0.
    change (nth i (map (fun t => (2 * t - 1)%R) (data target)) 0%R)
      with (at_ (map (fun t => (2 * t - 1)%R) (data target)) i).
    rewrite at_map by lia. change (nth i (data pred) 0%R) with (at_ (data pred) i).
    apply Rsqr_0_uniq in Hi0. lra.
  - intros Heq.
    assert (Hz : rsum (map h (seq 0 N)) = 0%R).
    { apply rsum_map_all_zero. intros i Hi. apply in_seq in Hi. unfold h.
      rewrite Heq, at_map by lia. ring. }
    rewrite Hz. unfold Rdiv. ring.
Qed.

Lemma mse_loss_at_least_penalty_witness :
  exists f v,
    LinearProbe_get_loss_fn example_cosine_loss trained_3_4 = Ok f /\
    f trained_3_4 (Tensor [2] [1%R; (-1)%R]) (Tensor [2] [1%R; 0%R]) = Ok (scalar v) /\
    v = penalty {| weight := Tensor [1; 2] [3%R; 4%R]; bias := None |}.
Proof.
  destruct (mse_loss_at_least_penalty example_cosine_loss trained_3_4 trained_3_4
              {| weight := Tensor [1; 2] [3%R; 4%R]; bias := None |}
              (Tensor [2] [1%R; (-1)%R]) (Tensor [2] [1%R; 0%R]) [2])
    as (f & v & Hf & Hv & _ & Heq); try reflexivity.
  - simpl. lia.
  - exists f, v. split; [exact Hf|]. split; [exact Hv|].
    apply Heq. simpl. f_equal; [lra|]. f_equal. lra.
Defined.

Lemma skipn_repeat (c : R) (N k : nat) : skipn k (repeat c N) = repeat c (N - k).
Proof.
  revert N. induction k as [|k IH]; intros N.
  - now rewrite Nat.sub_0_r.
  - destruct N; [reflexivity|]. simpl. apply IH.
Qed.

Lemma firstn_repeat (c : R) (N k : nat) : firstn k (repeat c N) = repeat c (Nat.min k N).
Proof.
  revert N. induction k as [|k IH]; intros N; [reflexivity|].
  destruct N; [reflexivity|]. simpl. now rewrite IH.
Qed.

Lemma at_slice_zeros (N i d k : nat) : at_ (slice i d (repeat 0%R N)) k = 0%R.
Proof.
  unfold at_, slice. rewrite skipn_repeat, firstn_repeat. apply nth_repeat.
Qed.

Lemma sumsq_zeros (N : nat) : sumsq (repeat 0%R N) = 0%R.
Proof.
  unfold sumsq. induction N as [|N IH]; simpl; [reflexivity|].
  simpl in IH. rewrite IH. ring.
Qed.

Lemma flat_map_const (E : nat -> nat -> R) (c : R) (o : nat) :
  (forall i j, E i j = c) ->
  forall a n, flat_map (fun i => map (fun j => E i j) (seq 0 o)) (seq a n)
              = repeat c (n * o).
Proof.
  intros HE a n. revert a. induction n as [|n IH]; intros a; [reflexivity|].
  simpl. rewrite IH, repeat_app. f_equal.
  rewrite (map_ext _ (fun _ => c)) by (intros; apply HE).
  now rewrite map_const_repeat, length_seq.
Qed.

(** [self.linear] with zero weights and a zero bias returns zeros. *)
Lemma linear_apply_zero (lin : Linear) (z : tensor) (n d o : nat) :
  shape z = [n; d] -> weight lin = zeros [o; d] ->
  bias lin = None \/ bias lin = Some (zeros [o]) ->
  linear_apply lin z = Ok (zeros [n; o]).
Proof.
  intros Hz Hw Hb.
  rewrite (linear_apply_rows lin z n d o);
    [|rewrite Hw; reflexivity|exact Hz|destruct Hb as [->| ->]; [exact I|reflexivity]].
  unfold zeros. do 2 f_equal. simpl numel. rewrite Nat.mul_1_r.
  apply flat_map_const. intros i j.
  rewrite bdot_sum, rsum_map_all_zero.
  - unfold bias_entry. destruct Hb as [->| ->]; [lra|].
    unfold zeros, at_. cbn [data]. rewrite nth_repeat. lra.
  - intros k _. rewrite Hw. unfold zeros. cbn [data].
    rewrite at_slice_zeros. ring.
Qed.

(** A forward pass of a probe without buffers: [self.linear] applied to
    the batch, standardised in training mode. *)
Lemma forward_fresh (training : bool) (p : probe) (lin : Linear) (o n : nat) (x : tensor) :
  state_matches_config p lin o -> feature_mean p = None ->
  shape x = [n; input_size (config p)] ->
  exists q z,
    forward training p x = (q, linear_apply lin z) /\
    shape z = [n; input_size (config p)] /\ linear q = Some lin.
Proof.
  intros (Hk & Hlin & _) Hm Hx.
  unfold forward, gradient_forward. rewrite Hk, Hm. destruct training.
  - cbn [feature_mean feature_std set_feature_std set_feature_mean].
    set (d := input_size (config p)) in *.
    assert (Hsm : shape (mean0_keepdim x) = [1; d])
      by (unfold mean0_keepdim; rewrite Hx; reflexivity).
    assert (Hss : shape (add_scalar (std0_keepdim x) eps) = [1; d])
      by (unfold add_scalar, std0_keepdim; rewrite Hx; reflexivity).
    unfold tsub. rewrite (broadcast2_rows Rminus x _ n d Hx Hsm). cbn [bind].
    unfold tdiv. erewrite (broadcast2_rows Rdiv _ _ n d); [|reflexivity|exact Hss].
    cbn [bind]. unfold self_linear. rewrite linear_set_buffers, Hlin. cbn [bind].
    eexists _, _. split; [reflexivity|]. split; [reflexivity|exact Hlin].
  - rewrite Hm. cbn [bind]. unfold self_linear. rewrite Hlin. cbn [bind].
    exists p, x. split; [reflexivity|]. split; [exact Hx|exact Hlin].
Qed.

Lemma zip_with_zeros (g : R -> R -> R) (c : R) (l : list R) :
  (forall t, g 0%R t = c) ->
  zip_with g (repeat 0%R (length l)) l = repeat c (length l).
Proof.
  intros Hg. induction l as [|t l IH]; simpl; [reflexivity|]. now rewrite Hg, IH.
Qed.

Lemma rsum_repeat (c : R) (N : nat) : rsum (repeat c N) = (INR N * c)%R.
Proof.
  induction N as [|N IH]; [simpl; lra|].
  change (rsum (repeat c (S N))) with (c + rsum (repeat c N))%R.
  rewrite IH, S_INR. lra.
Qed.

(** The loss of a [LogisticProbe] before any optimisation step is
    [ln 2], whatever the batch and the targets: the constructor sets the
    weights and the bias to zero, so the forward pass (in either mode, on
    a batch of at least two rows of the input size) returns zeros, on
    which the binary cross-entropy is [ln 2] for every target, and the
    penalty vanishes. *)
Theorem logistic_initial_loss (init : nat -> R) (c : ProbeConfig) (nw b : bool)
    (o n : nat) (training : bool) (x target : tensor) :
  ext c = LogisticCfg nw b o ->
  shape x = [n; input_size c] -> 2 <= n -> 1 <= o ->
  shape target = [n; o] -> wf target ->
  exists p q y f,
    new LogisticProbe init c = Ok p /\
    forward training p x = (q, Ok y) /\
    LogisticProbe_get_loss_fn q = Ok f /\
    f q y target = Ok (scalar (ln 2)).
Proof.
  intros He Hx Hn Ho Ht Hwt.
  set (lin := {| weight := zeros [o; input_size c];
                 bias := if b then Some (zeros [o]) else None |}).
  set (p := set_linear (base_init LogisticProbe c) (Some lin)).
  assert (Hnew : new LogisticProbe init c = Ok p).
  { unfold new, cfg_output_size, cfg_bias. rewrite He. reflexivity. }
  assert (Hstate : state_matches_config p lin o).
  { unfold state_matches_config, p, cfg_output_size, cfg_bias.
    cbn [cls config linear direction set_linear base_init]. rewrite He.
    repeat split. unfold lin. cbn [bias]. destruct b; [split|]; reflexivity. }
  destruct (forward_fresh training p lin o n x Hstate eq_refl Hx)
    as (q & z & Hf & Hz & Hq).
  assert (Hy : linear_apply lin z = Ok (zeros [n; o])).
  { apply (linear_apply_zero lin z n (input_size c) o Hz eq_refl).
    unfold lin. cbn [bias]. destruct b; [now right|now left]. }
  rewrite Hy in Hf.
  exists p, q, (zeros [n; o]).
  eexists. split; [exact Hnew|]. split; [exact Hf|]. split; [reflexivity|].
  cbn beta. unfold bce_with_logits. rewrite Ht.
  rewrite bool_decide_eq_true_2 by reflexivity. cbn [bind].
  rewrite (l2_reg_penalty q lin Hq). cbn [bind]. do 2 f_equal.
  unfold wf in Hwt. rewrite Ht in Hwt.
  unfold zeros, mean_all, penalty. cbn [data shape weight lin].
  rewrite <- Hwt.
  rewrite (zip_with_zeros _ (ln 2) (data target)).
  - change (data (zeros [o; input_size c]))
      with (repeat 0%R (numel [o; input_size c])).
    rewrite sumsq_zeros, rsum_repeat, repeat_length.
    assert (HN : (0 < INR (length (data target)))%R).
    { apply lt_0_INR. rewrite Hwt. simpl. nia. }
    field. lra.
  - intros t. rewrite Ropp_0, exp_0. replace (1 + 1)%R with 2%R by lra. ring.
Qed.

Lemma logistic_initial_loss_witness :
  exists p q y f,
    new LogisticProbe (fun _ => 0%R) (example_config (LogisticCfg true true 1)) = Ok p /\
    forward true p identity_rows = (q, Ok y) /\
    LogisticProbe_get_loss_fn q = Ok f /\
    f q y (Tensor [2; 1] [1%R; 0%R]) = Ok (scalar (ln 2)).
Proof.
  apply (logistic_initial_loss (fun _ => 0%R) (example_config (LogisticCfg true true 1))
           true true 1 2 true identity_rows (Tensor [2; 1] [1%R; 0%R]));
    try reflexivity; lia.
Defined.

(* ===================================================================== *)
(** ** Collection of activations                                           *)
(* ===================================================================== *)

Lemma batch_indices_nat (n s k : nat) :
  batch_indices n (Z.of_nat s) (k * s) = seq (k * s) (Nat.min (k * s + s) n - k * s).
Proof. unfold batch_indices. f_equal. lia. Qed.

Lemma concat_batches (s n K : nat) :
  concat (map (fun k => seq (k * s) (Nat.min (k * s + s) n - k * s)) (seq 0 K))
  = seq 0 (Nat.min (K * s) n).
Proof.
  induction K as [|K IH]; [reflexivity|].
  rewrite seq_S, map_app, concat_app, IH. cbn [map concat Nat.add].
  rewrite app_nil_r.
  destruct (Nat.le_gt_cases (K * s) n) as [Hle|Hgt].
  - rewrite (Nat.min_l (K * s) n) by exact Hle.
    rewrite <- seq_app. f_equal. lia.
  - rewrite (Nat.min_r (K * s) n) by lia.
    replace (Nat.min (K * s + s) n - K * s) with 0 by lia.
    rewrite app_nil_r. f_equal. lia.
Qed.

Lemma batches_reach (n s : nat) : 1 <= s -> n <= ((n + s - 1) / s) * s.
Proof.
  intros Hs. pose proof (Nat.div_mod_eq (n + s - 1) s) as Hdm.
  pose proof (Nat.mod_upper_bound (n + s - 1) s ltac:(lia)). nia.
Qed.

Lemma batches_start_inside (n s k : nat) :
  1 <= s -> k < (n + s - 1) / s -> k * s < n.
Proof.
  intros Hs Hk.
  assert (Hq : (n + s - 1) / s * s <= n + s - 1).
  { pose proof (Nat.div_mod_eq (n + s - 1) s). nia. }
  nia.
Qed.

Lemma range_step_positive (n : nat) (batch_size : Z) :
  (0 < batch_size)%Z ->
  exists starts,
    range_step n batch_size = Ok starts /\
    starts = map (fun k => k * Z.to_nat batch_size)
                 (seq 0 ((n + Z.to_nat batch_size - 1) / Z.to_nat batch_size)).
Proof.
  intros Hbs. eexists. split; [|reflexivity]. unfold range_step.
  destruct (Z.eqb_spec batch_size 0) as [H|_]; [lia|].
  destruct (Z.ltb_spec batch_size 0) as [H|_]; [lia|]. reflexivity.
Qed.

Lemma batches_cover (n : nat) (batch_size : Z) :
  (0 < batch_size)%Z ->
  exists starts,
    range_step n batch_size = Ok starts /\
    concat (map (batch_indices n batch_size) starts) = seq 0 n /\
    Forall (fun b => b <> [] /\ (Z.of_nat (length b) <= batch_size)%Z)
           (map (batch_indices n batch_size) starts).
Proof.
  intros Hbs. set (s := Z.to_nat batch_size).
  assert (Hs : 1 <= s) by (unfold s; lia).
  assert (Hz : batch_size = Z.of_nat s) by (unfold s; lia).
  exists (map (fun k => k * s) (seq 0 ((n + s - 1) / s))).
  split.
  { unfold range_step.
    destruct (Z.eqb_spec batch_size 0) as [H|_]; [lia|].
    destruct (Z.ltb_spec batch_size 0) as [H|_]; [lia|]. reflexivity. }
  rewrite map_map, Hz.
  rewrite (map_ext _ (fun k => seq (k * s) (Nat.min (k * s + s) n - k * s)))
    by (intros k; apply batch_indices_nat).
  split.
  - rewrite concat_batches. f_equal. pose proof (batches_reach n s Hs). lia.
  - apply Forall_forall. intros b Hb.
    apply list_elem_of_In, in_map_iff in Hb. destruct Hb as (k & <- & Hk).
    apply in_seq in Hk.
    pose proof (batches_start_inside n s k Hs ltac:(lia)) as Hin.
    rewrite length_seq. split; [|lia].
    intros Hnil. apply (f_equal (@length nat)) in Hnil.
    rewrite length_seq in Hnil. simpl in Hnil. lia.
Qed.

(** The batches of [collect] cut the dataset into consecutive pieces: for
    a positive batch size they are never empty, none is longer than the
    batch size, and put one after the other they are the indices of all
    the examples, each once and in order. *)
Theorem batches_partition_the_dataset (n : nat) (batch_size : Z) :
  (0 < batch_size)%Z ->
  exists starts,
    range_step n batch_size = Ok starts /\
    concat (map (batch_indices n batch_size) starts) = seq 0 n /\
    Forall (fun b => b <> [] /\ (Z.of_nat (length b) <= batch_size)%Z)
           (map (batch_indices n batch_size) starts).
Proof. apply batches_cover. Qed.

Lemma batches_partition_the_dataset_witness :
  exists starts,
    range_step 5 2 = Ok starts /\
    concat (map (batch_indices 5 2) starts) = [0; 1; 2; 3; 4].
Proof.
  destruct (batches_partition_the_dataset 5 2 ltac:(lia)) as (starts & Hr & Hc & _).
  exists starts. split; [exact Hr|exact Hc].
Defined.



Lemma append_activation_at (front : activations) (h : string) (ts : list tensor)
    (back : activations) (t : tensor) :
  (forall e, In e front -> fst e <> h) ->
  append_activation (front ++ (h, ts) :: back) h t = front ++ (h, ts ++ [t]) :: back.
Proof.
  induction front as [|[k v] front IH]; intros Hf; simpl.
  - now rewrite String.eqb_refl.
  - destruct (String.eqb_spec k h) as [->|_].
    + now destruct (Hf (h, v) (or_introl eq_refl)).
    + rewrite IH; [reflexivity|]. intros e He. apply Hf. now right.
Qed.

Lemma append_activation_new (d : activations) (h : string) (t : tensor) :
  (forall e, In e d -> fst e <> h) ->
  append_activation d h t = d ++ [(h, [t])].
Proof.
  induction d as [|[k v] d IH]; intros Hd; simpl; [reflexivity|].
  destruct (String.eqb_spec k h) as [->|_].
  - now destruct (Hd (h, v) (or_introl eq_refl)).
  - rewrite IH; [reflexivity|]. intros e He. apply Hd. now right.
Qed.

Lemma keys_differ {B : Type} (g : string -> B) (hs : list string) (h : string) :
  ~ In h hs -> forall e, In e (map (fun k => (k, g k)) hs) -> fst e <> h.
Proof.
  intros Hh e He. apply in_map_iff in He. destruct He as (k & <- & Hk).
  simpl. intros ->. contradiction.
Qed.

(** The first batch creates the entries of the dictionary, in the order of
    the hook points. *)
Lemma store_batch_first (cache : gmap string tensor) (t : string -> tensor) :
  forall hs2 hs1, List.NoDup (hs1 ++ hs2) ->
  (forall h, In h hs2 -> cache !! h = Some (t h)) ->
  store_batch cache hs2 (map (fun h => (h, [t h])) hs1)
  = Ok (map (fun h => (h, [t h])) (hs1 ++ hs2)).
Proof.
  induction hs2 as [|h hs2 IH]; intros hs1 Hnd Hc; simpl.
  - now rewrite app_nil_r.
  - unfold cache_item. rewrite (Hc h (or_introl eq_refl)). cbn [bind].
    rewrite append_activation_new.
    + change (map (fun h0 => (h0, [t h0])) hs1 ++ [(h, [t h])])
        with (map (fun h0 => (h0, [t h0])) hs1 ++ map (fun h0 => (h0, [t h0])) [h]).
      rewrite <- map_app.
      replace (hs1 ++ h :: hs2) with ((hs1 ++ [h]) ++ hs2) by now rewrite <- app_assoc.
      apply IH.
      * now rewrite <- app_assoc.
      * intros k Hk. apply Hc. now right.
    + apply keys_differ. apply NoDup_remove_2 in Hnd. intros Hin. apply Hnd.
      apply in_or_app. now left.
Qed.

(** Every later batch appends one tensor to every entry. *)
Lemma store_batch_next (cache : gmap string tensor) (acc : string -> list tensor)
    (t : string -> tensor) :
  forall hs2 hs1, List.NoDup (hs1 ++ hs2) ->
  (forall h, In h hs2 -> cache !! h = Some (t h)) ->
  store_batch cache hs2 (map (fun h => (h, acc h ++ [t h])) hs1
                         ++ map (fun h => (h, acc h)) hs2)
  = Ok (map (fun h => (h, acc h ++ [t h])) (hs1 ++ hs2)).
Proof.
  induction hs2 as [|h hs2 IH]; intros hs1 Hnd Hc; simpl.
  - now rewrite !app_nil_r.
  - unfold cache_item. rewrite (Hc h (or_introl eq_refl)). cbn [bind].
    rewrite append_activation_at.
    + replace (hs1 ++ h :: hs2) with ((hs1 ++ [h]) ++ hs2) by now rewrite <- app_assoc.
      rewrite <- IH.
      * f_equal. rewrite map_app. now rewrite <- app_assoc.
      * now rewrite <- app_assoc.
      * intros k Hk. apply Hc. now right.
    + apply keys_differ. apply NoDup_remove_2 in Hnd. intros Hin. apply Hnd.
      apply in_or_app. now left.
Qed.

Lemma collect_batches_next (run_with_cache : list nat -> result (gmap string tensor))
    (hook_points : list string) (batch_size : Z) (dataset : Dataset)
    (act : string -> list nat -> tensor) :
  List.NoDup hook_points -> model_returns run_with_cache hook_points act ->
  forall starts acc,
    collect_batches run_with_cache hook_points batch_size dataset starts
      (map (fun h => (h, acc h)) hook_points)
    = Ok (map (fun h =>
                 (h, acc h ++ map (fun st => act h (batch_indices (n_examples dataset)
                                                      batch_size st)) starts))
              hook_points).
Proof.
  intros Hnd Hrun. induction starts as [|st starts IH]; intros acc; simpl.
  - f_equal. apply map_ext. intros h. now rewrite app_nil_r.
  - destruct (Hrun (batch_indices (n_examples dataset) batch_size st))
      as (cache & -> & Hc). cbn [bind].
    pose proof (store_batch_next cache acc
                  (fun h => act h (batch_indices (n_examples dataset) batch_size st))
                  hook_points [] Hnd Hc) as Hsb.
    cbn [map app] in Hsb. rewrite Hsb.
    cbn [bind]. rewrite IH. f_equal. apply map_ext. intros h.
    now rewrite <- app_assoc.
Qed.

(** The dictionary after the loop: nothing when there is no batch, and
    otherwise every hook point, in order, with its tensor of every batch. *)
Lemma collect_activations_returns (run_with_cache : list nat -> result (gmap string tensor))
    (hook_points : list string) (batch_size : Z) (dataset : Dataset)
    (act : string -> list nat -> tensor) :
  (0 < batch_size)%Z ->
  List.NoDup hook_points -> model_returns run_with_cache hook_points act ->
  collect_activations run_with_cache hook_points batch_size dataset
  = Ok (match batches_of (n_examples dataset) batch_size with
        | [] => []
        | batches => map (fun h => (h, map (act h) batches)) hook_points
        end).
Proof.
  intros Hbs Hnd Hrun. unfold collect_activations, batches_of.
  destruct (range_step_positive (n_examples dataset) batch_size Hbs)
    as (starts & -> & _). cbn [bind].
  destruct starts as [|st starts]; [reflexivity|]. simpl.
  destruct (Hrun (batch_indices (n_examples dataset) batch_size st))
    as (cache & -> & Hc). cbn [bind].
  pose proof (store_batch_first cache
                (fun h => act h (batch_indices (n_examples dataset) batch_size st))
                hook_points [] Hnd Hc) as Hsb.
  cbn [map app] in Hsb. rewrite Hsb.
  cbn [bind].
  rewrite (collect_batches_next run_with_cache hook_points batch_size dataset act Hnd Hrun).
  f_equal. apply map_ext. intros h. simpl. now rewrite map_map.
Qed.

Lemma filter_all {A : Type} (P : A -> Prop) `{forall a, Decision (P a)} (l : list A) :
  Forall P l -> filter P l = l.
Proof.
  induction 1 as [|a l Ha _ IH]; [reflexivity|].
  rewrite filter_cons_True by exact Ha. now rewrite IH.
Qed.

(** Concatenation of tensors that differ in their leading dimension only,
    none of them empty. *)
Lemma cat0_rows (ts : list tensor) (rest : list nat) :
  ts <> [] ->
  Forall (fun t => exists l, shape t = l :: rest /\ l <> 0) ts ->
  cat0 ts = Ok (Tensor (fold_right Nat.add 0 (map (fun u => hd 0 (shape u)) ts) :: rest)
                       (flat_map data ts)).
Proof.
  intros Hne Hts. unfold cat0. destruct ts as [|t ts]; [contradiction|].
  assert (Hex : existsb (fun u => bool_decide (shape u = [])) (t :: ts) = false).
  { apply not_true_is_false. intros Hex. apply existsb_exists in Hex.
    destruct Hex as (u & Hu & Hs). apply bool_decide_eq_true_1 in Hs.
    rewrite Forall_forall in Hts. apply list_elem_of_In in Hu.
    destruct (Hts u Hu) as (l & Hl & _). congruence. }
  rewrite Hex.
  assert (Ht : exists l', shape t = l' :: rest).
  { rewrite Forall_forall in Hts.
    destruct (Hts t ltac:(constructor)) as (l' & Hl' & _). eauto. }
  destruct Ht as [l' Ht].
  rewrite (filter_all (fun u => shape u <> [0]) (t :: ts)).
  - assert (Hall : forallb (fun u => bool_decide (tail (shape u) = tail (shape t)))
                     (t :: ts) = true).
    { apply forallb_forall. intros u Hu. apply bool_decide_eq_true_2.
      rewrite Forall_forall in Hts. apply list_elem_of_In in Hu.
      destruct (Hts u Hu) as (l & -> & _). rewrite Ht. reflexivity. }
    rewrite Hall, Ht. reflexivity.
  - eapply Forall_impl; [exact Hts|]. intros u (l & -> & Hl) [=]. contradiction.
Qed.

Lemma sum_lengths {A : Type} (ls : list (list A)) :
  fold_right Nat.add 0 (map (@length A) ls) = length (concat ls).
Proof.
  induction ls as [|l ls IH]; simpl; [reflexivity|]. now rewrite length_app, IH.
Qed.

Lemma last_default (l : list nat) (x a b : nat) :
  List.last (x :: l) a = List.last (x :: l) b.
Proof.
  revert x. induction l as [|y l IH]; intros x; [reflexivity|].
  change (List.last (y :: l) a = List.last (y :: l) b). apply IH.
Qed.

Lemma last_dimension (a : nat) (r : list nat) :
  match rev (a :: r) with
  | h :: _ => Ok h
  | [] => Raise (Exn IndexError "tuple index out of range")
  end = Ok (List.last r a).
Proof.
  revert a. induction r as [|x r IH]; intros a; [reflexivity|].
  specialize (IH x). change (rev (a :: x :: r)) with (rev (x :: r) ++ [a]).
  destruct (rev (x :: r)) as [|h tl] eqn:Hr; [discriminate|].
  simpl. rewrite IH. f_equal. destruct r as [|y r]; [reflexivity|].
  change (List.last (y :: r) x = List.last (y :: r) a). apply last_default.
Qed.

Lemma traverse_map_in {A B C : Type} (g : A -> B) (f : B -> result C) (r : A -> C)
    (l : list A) :
  (forall a, In a l -> f (g a) = Ok (r a)) ->
  traverse f (map g l) = Ok (map r l).
Proof.
  induction l as [|a l IH]; intros H; simpl; [reflexivity|].
  rewrite (H a (or_introl eq_refl)). cbn [bind].
  rewrite IH by (intros; apply H; now right). reflexivity.
Qed.

Lemma flat_map_map {A B C : Type} (g : A -> B) (f : B -> list C) (l : list A) :
  flat_map f (map g l) = flat_map (fun a => f (g a)) l.
Proof. induction l as [|a l IH]; simpl; [reflexivity|]. now rewrite IH. Qed.

(** [collect] on a dataset that is not empty, with a positive batch size
    and hook points that are all different, when the model succeeds on
    every batch and returns, for every hook point, one leading row per
    example of the batch and the same trailing shape for every batch:
    the result has one store per hook point, in the order of the hook
    points, whose raw activations are the activations of the batches one
    after the other, with one leading row per example of the dataset. *)
Theorem collect_returns_one_store_per_hook
    (run_with_cache : list nat -> result (gmap string tensor))
    (hook_points : list string) (batch_size : Z) (dataset : Dataset)
    (act : string -> list nat -> tensor) (rest : string -> list nat)
    (lengths labels : tensor) (texts : list string) :
  (0 < batch_size)%Z -> 0 < n_examples dataset ->
  List.NoDup hook_points ->
  model_returns run_with_cache hook_points act ->
  (forall h b, In h hook_points -> shape (act h b) = length b :: rest h) ->
  token_lengths dataset = Ok lengths ->
  example_labels dataset = Ok labels ->
  example_label_texts dataset = Ok texts ->
  collect run_with_cache hook_points batch_size dataset
  = Ok (map (fun h => (h, collected_store dataset batch_size act rest
                             lengths labels texts h))
            hook_points).
Proof.
  intros Hbs Hn Hnd Hrun Hshape Hlen Hlab Htxt.
  unfold collect.
  rewrite (collect_activations_returns run_with_cache hook_points batch_size dataset act
             Hbs Hnd Hrun).
  cbn [bind].
  destruct (batches_cover (n_examples dataset) batch_size Hbs)
    as (starts & Hstarts & Hconcat & Hall).
  assert (Hb : batches_of (n_examples dataset) batch_size
               = map (batch_indices (n_examples dataset) batch_size) starts)
    by (unfold batches_of; now rewrite Hstarts).
  unfold collected_store. rewrite Hb.
  set (batches := map (batch_indices (n_examples dataset) batch_size) starts) in *.
  destruct batches as [|b1 bs] eqn:Hbatches.
  { simpl in Hconcat. destruct (n_examples dataset); [lia|discriminate]. }
  rewrite <- Hbatches in *. clear Hb.
  apply traverse_map_in. intros h Hh. unfold make_store. cbn [fst snd].
  rewrite (cat0_rows (map (act h) batches) (rest h)).
  - cbn [bind]. rewrite Hlen. cbn [bind].
    rewrite Hbatches at 1. cbn [map]. rewrite (Hshape h b1 Hh), last_dimension.
    cbn [bind]. rewrite Hlab, Htxt. cbn [bind].
    do 3 f_equal.
    + f_equal.
      * f_equal. rewrite map_map.
        rewrite (map_ext _ (@length nat)) by (intros b; now rewrite (Hshape h b Hh)).
        rewrite sum_lengths, Hconcat. apply length_seq.
      * apply flat_map_map.
    + rewrite Hbatches. reflexivity.
  - rewrite Hbatches. discriminate.
  - apply Forall_forall. intros t Ht.
    apply list_elem_of_In, in_map_iff in Ht. destruct Ht as (b & <- & Hin).
    exists (length b). split; [exact (Hshape h b Hh)|].
    rewrite Forall_forall in Hall.
    destruct (Hall b (proj2 (list_elem_of_In _ _) Hin)) as [Hne _].
    destruct b; [contradiction|discriminate].
Qed.

Lemma collect_returns_one_store_per_hook_witness :
  exists store,
    collect example_model ["resid"] 2 example_dataset = Ok [("resid", store)] /\
    store_raw_activations store = Tensor [3; 1] [INR 0; INR 1; INR 2].
Proof.
  eexists. split.
  - apply (collect_returns_one_store_per_hook example_model ["resid"] 2 example_dataset
             example_act (fun _ => [1])).
    + lia.
    + simpl. lia.
    + repeat constructor. intros H. inversion H.
    + intros b. eexists. split; [reflexivity|].
      intros h [<-|[]]. apply lookup_insert_eq.
    + reflexivity.
    + reflexivity.
    + reflexivity.
    + reflexivity.
  - reflexivity.
Defined.

(** [collect] without a batch.  A batch size of zero makes it raise
    [ValueError]; with a negative batch size, or on a dataset without
    examples, the loop has no iteration: the model is not run and the
    result is empty, whatever the hook points. *)
Theorem collect_without_batches
    (run_with_cache : list nat -> result (gmap string tensor))
    (hook_points : list string) (batch_size : Z) (dataset : Dataset) :
  (batch_size <= 0)%Z \/ n_examples dataset = 0 ->
  collect run_with_cache hook_points batch_size dataset
  = if Z.eqb batch_size 0
    then Raise (Exn ValueError "range() arg 3 must not be zero")
    else Ok [].
Proof.
  intros H. unfold collect, collect_activations, range_step.
  destruct (Z.eqb_spec batch_size 0) as [_|Hz]; [reflexivity|].
  destruct (Z.ltb_spec batch_size 0) as [_|Hpos]; [reflexivity|].
  destruct H as [H|H]; [lia|]. rewrite H.
  rewrite Nat.div_small by lia. reflexivity.
Qed.

Lemma collect_without_batches_witness :
  collect example_model ["resid"] (-4) example_dataset = Ok [].
Proof.
  apply (collect_without_batches example_model ["resid"] (-4) example_dataset).
  left. lia.
Defined.

(* ===================================================================== *)
(** ** Paths and file names                                                *)
(* ===================================================================== *)



























(* ===================================================================== *)
(** ** Persistence of a ProbeSet                                           *)
(* ===================================================================== *)























(* ===================================================================== *)
(** ** The orientation of the PCA direction                                *)
(* ===================================================================== *)

Lemma rsum_scale (l : list R) (q : R) :
  rsum (map (fun v => (v * q)%R) l) = (rsum l * q)%R.
Proof. induction l as [|a l IH]; simpl; [lra|]. rewrite IH. lra. Qed.

Lemma sumsq_mult (l : list R) (q : R) :
  sumsq (map (fun v => (v * q)%R) l) = (sumsq l * (q * q))%R.
Proof.
  unfold sumsq. induction l as [|a l IH]; simpl; [lra|]. rewrite IH. lra.
Qed.

Lemma mean_list_scale (l : list R) (q : R) :
  mean_list (map (fun v => (v * q)%R) l) = (mean_list l * q)%R.
Proof.
  unfold mean_list. rewrite rsum_scale, length_map. unfold Rdiv. ring.
Qed.

Lemma rsum_products_scale (a b : list R) (q : R) :
  rsum (zip_with Rmult (map (fun v => (v * q)%R) a) b)
  = (rsum (zip_with Rmult a b) * q)%R.
Proof.
  revert b. induction a as [|x a IH]; intros [|y b]; simpl; try lra.
  rewrite IH. lra.
Qed.

Lemma sign_times (r : R) : (sign r * r)%R = Rabs r.
Proof.
  unfold sign. destruct (Rlt_dec r 0) as [H|H].
  - rewrite Rabs_left by exact H. lra.
  - destruct (Rlt_dec 0 r) as [H'|H'].
    + rewrite Rabs_right by lra. lra.
    + assert (r = 0%R) by lra. subst r. rewrite Rabs_R0. lra.
Qed.

Lemma clip_sign (s v : R) :
  s = 1%R \/ s = (-1)%R ->
  Rmax (-1) (Rmin 1 (s * v)) = (s * Rmax (-1) (Rmin 1 v))%R.
Proof.
  intros [-> | ->]; unfold Rmin;
    match goal with |- context [Rle_dec 1 (?s * v)] => destruct (Rle_dec 1 (s * v)) end;
    destruct (Rle_dec 1 v); unfold Rmax;
    repeat (match goal with |- context [Rle_dec ?a ?b] => destruct (Rle_dec a b) end);
    lra.
Qed.

(** Scaling the first argument of a correlation by [q] multiplies the
    correlation by the sign of [q]. *)
Lemma corrcoef_scale (a b : list R) (q : R) :
  q <> 0%R ->
  corrcoef01 (map (fun v => (v * q)%R) a) b = (sign q * corrcoef01 a b)%R.
Proof.
  intros Hq. unfold corrcoef01. rewrite mean_list_scale, length_map.
  set (da := map (fun v => (v - mean_list a)%R) a).
  set (db := map (fun v => (v - mean_list b)%R) b).
  set (ddof := INR (length a - 1)).
  assert (Hda : map (fun v => (v - mean_list a * q)%R) (map (fun v => (v * q)%R) a)
                = map (fun v => (v * q)%R) da).
  { unfold da. rewrite !map_map. apply map_ext. intros v. ring. }
  rewrite Hda, sumsq_mult, rsum_products_scale.
  assert (Hsq : sqrt (sumsq da * (q * q) / ddof) = (sqrt (sumsq da / ddof) * Rabs q)%R).
  { replace (sumsq da * (q * q) / ddof)%R with ((sumsq da / ddof) * Rsqr q)%R
      by (unfold Rsqr, Rdiv; ring).
    destruct (Rle_dec 0 (sumsq da / ddof)) as [Hpos|Hneg].
    - rewrite sqrt_mult by (try exact Hpos; apply Rle_0_sqr).
      now rewrite sqrt_Rsqr_abs.
    - assert (Hn : (sumsq da / ddof < 0)%R) by lra.
      rewrite (sqrt_neg_0 (sumsq da / ddof)) by lra.
      rewrite sqrt_neg_0; [ring|].
      pose proof (Rle_0_sqr q). nra. }
  rewrite Hsq.
  assert (Hs : sign q = 1%R \/ sign q = (-1)%R).
  { unfold sign. destruct (Rlt_dec q 0); [now right|].
    destruct (Rlt_dec 0 q); [now left|]. lra. }
  rewrite <- clip_sign by exact Hs. f_equal. f_equal.
  assert (Hratio : (q * / Rabs q)%R = sign q).
  { unfold sign. destruct (Rlt_dec q 0) as [H|H].
    - rewrite Rabs_left by exact H. field. lra.
    - destruct (Rlt_dec 0 q) as [H'|H']; [|lra].
      rewrite Rabs_right by lra. field. lra. }
  rewrite <- Hratio. unfold Rdiv. rewrite Rinv_mult. ring.
Qed.

(** An operation between a matrix and a column that is broadcast over it. *)
Lemma broadcast2_column (f : R -> R -> R) (u c : tensor) (o n : nat) :
  shape u = [o; n] -> shape c = [o; 1] ->
  broadcast2 f u c =
    Ok (Tensor [o; n]
          (map (fun i => f (at_ (data u) i) (at_ (data c) (i / n))) (seq 0 (o * n)))).
Proof.
  intros Hu Hc. unfold broadcast2. rewrite Hu, Hc. simpl rev.
  assert (Hb : bcast_rev [n; o] [1; o] = Some [n; o]).
  { simpl. rewrite Nat.eqb_refl. destruct (Nat.eqb n 1); reflexivity. }
  rewrite Hb. simpl rev. simpl numel. rewrite Nat.mul_1_r.
  replace (n * o) with (o * n) by lia. do 2 f_equal.
  apply map_seq_ext. intros i Hi.
  rewrite offset_rev_id by (simpl; lia). f_equal. f_equal.
  simpl. assert (Hn : n <> 0) by (intros ->; lia).
  assert (Hq : i / n < o) by (apply Nat.Div0.div_lt_upper_bound; lia).
  destruct (Nat.eqb_spec o 1) as [->|Ho].
  - assert (i / n = 0) by lia. lia.
  - rewrite Nat.mod_small by exact Hq. lia.
Qed.

Lemma row_of_scaled (u c : list R) (r o n : nat) :
  length u = o * n -> r < o ->
  slice r n (map (fun i => (at_ u i * at_ c (i / n))%R) (seq 0 (o * n)))
  = map (fun v => (v * at_ c r)%R) (slice r n u).
Proof.
  intros Hu Hr. unfold slice at 1. rewrite slice_map_seq by exact Hr.
  rewrite (slice_as_map u r n o Hu Hr), map_map, (seq_as_map (r * n) n), map_map.
  apply map_seq_ext. intros j Hj. f_equal. f_equal.
  assert (Hn : n <> 0) by lia.
  rewrite Nat.div_add_l by exact Hn. rewrite Nat.div_small by lia. lia.
Qed.

(** The columns of the projections computed by [PCAProbe.fit]. *)
Lemma projection_column (x components : tensor) (n d c j : nat) :
  j < c ->
  column (Tensor [n; c]
            (flat_map (fun i =>
               map (fun j => bdot d d (slice i d (data x)) (slice j d (data components)))
                   (seq 0 c))
               (seq 0 n))) j
  = map (fun i => bdot d d (slice i d (data x)) (slice j d (data components))) (seq 0 n).
Proof.
  intros Hj. unfold column. cbn [shape data]. apply map_seq_ext. intros i Hi.
  unfold at_.
  rewrite (nth_flat_map_rows _ c) by (try lia; intros; now rewrite length_map, length_seq).
  simpl Nat.add. now rewrite nth_map_seq.
Qed.

Lemma signs_of_columns (y proj : tensor) (n c : nat) :
  shape y = [n] -> shape proj = [n; c] ->
  traverse (fun j => correlation_sign y (column proj j)) (seq 0 c)
  = Ok (map (fun j => sign (corrcoef01 (column proj j) (data y))) (seq 0 c)).
Proof.
  intros Hy Hp. apply traverse_Forall2.
  apply Forall2_fmap_r, Forall_Forall2_diag, Forall_forall. intros j _.
  unfold correlation_sign. rewrite Hy.
  assert (Hl : length (column proj j) = n)
    by (unfold column; rewrite Hp; now rewrite length_map, length_seq).
  rewrite Hl, Nat.eqb_refl. reflexivity.
Qed.

(** The first half of [PCAProbe.fit]: the first component, multiplied by
    the sign of the correlation of its projections with the labels. *)
Lemma signed_first_component (pca : tensor -> result tensor) (x y components : tensor)
    (n d c : nat) :
  pca x = Ok components ->
  shape components = [S c; d] -> wf components ->
  shape x = [n; d] -> shape y = [n] ->
  signed_component pca x y
  = Ok (Tensor [d]
          (map (fun v => (v * sign (corrcoef01 (first_projection x components n d)
                                               (data y)))%R)
               (slice 0 d (data components)))).
Proof.
  intros Hpca Hc Hwf Hx Hy. unfold signed_component. rewrite Hpca. cbn [bind].
  unfold dot_transposed. rewrite Hx, Hc, Nat.eqb_refl. cbn [bind].
  unfold shape0 at 1. rewrite Hc. cbn [bind].
  erewrite (signs_of_columns y _ n (S c)); [|exact Hy|reflexivity]. cbn [bind].
  rewrite length_map, length_seq.
  unfold tmul. erewrite (broadcast2_column Rmult components _ (S c) d); [|exact Hc|reflexivity].
  cbn [bind data]. unfold index0. cbn [shape data]. cbn [Nat.ltb Nat.leb].
  f_equal. f_equal. simpl numel. rewrite Nat.mul_1_r.
  assert (Hlen : length (data components) = S c * d)
    by (unfold wf in Hwf; rewrite Hc in Hwf; simpl in *; lia).
  rewrite (row_of_scaled (data components) _ 0 (S c) d Hlen) by lia.
  apply map_ext. intros v. f_equal.
  rewrite at_map_seq by lia.
  rewrite (projection_column x components n d (S c) 0) by lia. reflexivity.
Qed.

Lemma rsum_map_scale (f : nat -> R) (l : list nat) (q : R) :
  rsum (map (fun j => (f j * q)%R) l) = (rsum (map f l) * q)%R.
Proof. induction l as [|a l IH]; simpl; [lra|]. rewrite IH. lra. Qed.

Lemma bdot_scale (d : nat) (a b : list R) (q : R) :
  length b = d ->
  bdot d d a (map (fun v => (v * q)%R) b) = (bdot d d a b * q)%R.
Proof.
  intros Hb. rewrite !bdot_sum, <- rsum_map_scale. f_equal.
  apply map_seq_ext. intros j Hj. rewrite at_map by lia. ring.
Qed.

Lemma sign_of_sign (r : R) : r <> 0%R -> sign r = 1%R \/ sign r = (-1)%R.
Proof.
  intros Hr. unfold sign. destruct (Rlt_dec r 0); [now right|].
  destruct (Rlt_dec 0 r); [now left|]. lra.
Qed.

Lemma sign_scaled (s k : R) :
  s = 1%R \/ s = (-1)%R -> (0 < k)%R -> sign (s / k) = s.
Proof.
  intros Hs Hk. assert (Hik : (0 < / k)%R) by now apply Rinv_0_lt_compat.
  unfold sign, Rdiv. destruct Hs as [-> | ->].
  - destruct (Rlt_dec (1 * / k) 0); [lra|]. destruct (Rlt_dec 0 (1 * / k)); lra.
  - destruct (Rlt_dec (-1 * / k) 0); lra.
Qed.

(** [PCAProbe.fit] orients the direction towards the positive labels.
    When the projections of the activations on the first principal
    component are correlated with the labels (a correlation [r0] that is
    not zero), the fit succeeds, and the outputs of [forward] on the same
    activations have with the labels the correlation [|r0|], which is
    positive: the sign of the component has been flipped where needed,
    with or without normalisation. *)
Theorem pca_direction_is_oriented (pca : tensor -> result tensor) (p : probe)
    (x y components : tensor) (n d c : nat) (nw : bool) :
  cfg_normalize_weights (config p) = Ok nw ->
  pca x = Ok components ->
  shape components = [S c; d] -> wf components ->
  shape x = [n; d] -> shape y = [n] ->
  corrcoef01 (first_projection x components n d) (data y) <> 0%R ->
  exists p' out,
    PCAProbe_fit pca p x y = Ok p' /\
    fitted_forward p' x = Ok out /\ shape out = [n] /\
    corrcoef01 (data out) (data y)
    = Rabs (corrcoef01 (first_projection x components n d) (data y)) /\
    (0 < corrcoef01 (data out) (data y))%R.
Proof.
  intros Hnw Hpca Hc Hwf Hx Hy Hr0.
  set (r0 := corrcoef01 (first_projection x components n d) (data y)) in *.
  set (row0 := slice 0 d (data components)).
  assert (Hrow : length row0 = d).
  { apply (length_slice (data components) 0 d (S c)); [|lia].
    unfold wf in Hwf. rewrite Hc in Hwf. simpl in *. lia. }
  assert (Hs0 : sign r0 = 1%R \/ sign r0 = (-1)%R) by now apply sign_of_sign.
  set (delta := Tensor [d] (map (fun v => (v * sign r0)%R) row0)).
  set (q := if nw then (sign r0 / (l2 (data delta) + eps))%R else sign r0).
  assert (Hq : q <> 0%R /\ sign q = sign r0).
  { unfold q. destruct nw.
    - assert (Hk : (0 < l2 (data delta) + eps)%R)
        by (pose proof (l2_nonneg (data delta)); pose proof eps_pos; lra).
      split; [|now apply sign_scaled].
      assert (Hik : (0 < / (l2 (data delta) + eps))%R) by now apply Rinv_0_lt_compat.
      unfold Rdiv. destruct Hs0 as [-> | ->]; lra.
    - split; [destruct Hs0 as [-> | ->]; lra|].
      destruct Hs0 as [H|H]; rewrite H; unfold sign;
        repeat (match goal with |- context [Rlt_dec ?a ?b] => destruct (Rlt_dec a b) end);
        lra. }
  destruct Hq as [Hq0 Hsq].
  assert (Hfit : PCAProbe_fit pca p x y
                 = Ok (set_direction p
                         (Some (Tensor [d] (map (fun v => (v * q)%R) row0))))).
  { rewrite pca_fit_split.
    rewrite (signed_first_component pca x y components n d c Hpca Hc Hwf Hx Hy).
    cbn [bind]. fold r0 row0 delta. unfold store_direction. rewrite Hnw. cbn [bind].
    unfold q. destruct nw.
    - rewrite normalize_by_norm
        by (unfold wf, delta; cbn [data shape numel fold_right];
            rewrite length_map, Hrow; lia).
      cbn [bind]. do 3 f_equal. unfold delta. cbn [shape data].
      rewrite map_map. f_equal. apply map_ext. intros v. unfold Rdiv. ring.
    - reflexivity. }
  eexists _, (Tensor [n] (map (fun v => (v * q)%R) (first_projection x components n d))).
  split; [exact Hfit|].
  assert (Hcorr : corrcoef01
                    (map (fun v => (v * q)%R) (first_projection x components n d))
                    (data y) = Rabs r0).
  { rewrite corrcoef_scale by exact Hq0. fold r0. rewrite Hsq. apply sign_times. }
  split; [|split; [reflexivity|split]].
  - unfold fitted_forward. cbn [direction set_direction].
    unfold matmul_vec. cbn [shape data]. rewrite Hx. simpl rev. cbv iota.
    rewrite Nat.eqb_refl. simpl numel. rewrite Nat.mul_1_r. do 2 f_equal.
    unfold first_projection. rewrite map_map. apply map_seq_ext. intros i _.
    now apply bdot_scale.
  - exact Hcorr.
  - cbn [data]. rewrite Hcorr. now apply Rabs_pos_lt.
Qed.

Lemma pca_direction_is_oriented_witness :
  exists p' out,
    PCAProbe_fit example_pca (base_init PCAProbe (example_config (PCACfg 1 true)))
      identity_rows (Tensor [2] [0%R; 1%R]) = Ok p' /\
    fitted_forward p' identity_rows = Ok out /\
    (0 < corrcoef01 (data out) [0%R; 1%R])%R.
Proof.
  destruct (pca_direction_is_oriented example_pca
              (base_init PCAProbe (example_config (PCACfg 1 true)))
              identity_rows (Tensor [2] [0%R; 1%R]) (Tensor [1; 2] [3%R; 4%R])
              2 2 0 true) as (p' & out & Hfit & Hout & _ & _ & Hpos);
    try reflexivity.
  - unfold first_projection, corrcoef01, bdot, mean_list, sumsq, at_, slice. simpl.
    match goal with
    | |- Rmax _ (Rmin _ (?a / sqrt ?b / sqrt ?c)) <> _ =>
        replace a with 0.5%R by lra; replace b with 0.5%R by lra;
        replace c with 0.5%R by lra
    end.
    assert (Hs : (0 < sqrt 0.5)%R) by (apply sqrt_lt_R0; lra).
    assert (Hv : (0.5 / sqrt 0.5 / sqrt 0.5 = 1)%R).
    { unfold Rdiv. rewrite Rmult_assoc, <- Rinv_mult, sqrt_sqrt by lra. lra. }
    rewrite Hv. unfold Rmin, Rmax.
    destruct (Rle_dec 1 1); [|lra]. destruct (Rle_dec (-1) 1); lra.
  - exists p', out. repeat split; assumption.
Defined.

(* ===================================================================== *)
(** ** C9: use before fitting                                              *)
(* ===================================================================== *)

(** The first transform of [get_direction] on one weight row. *)
Lemma unscale_row (p : probe) (lin : Linear) (n : nat) :
  shape (weight lin) = [1; n] -> usable_std p n ->
  unscale p (weight lin) = Ok (Tensor [1; n] (unscaled_row p lin n)).
Proof.
  intros Hw Hstd. unfold unscale, unscaled_row.
  destruct (feature_std p) as [s|] eqn:Hs.
  - destruct (flag (config p) "is_unscaled"); cbn [negb].
    + now rewrite <- (weight_row (weight lin) n Hw).
    + destruct (Hstd s Hs) as [Hss _].
      exact (tdiv_squeezed_row (weight lin) s n Hw Hss).
  - now rewrite <- (weight_row (weight lin) n Hw).
Qed.

Lemma length_unscaled_row (p : probe) (lin : Linear) (n : nat) :
  shape (weight lin) = [1; n] -> wf (weight lin) ->
  length (unscaled_row p lin n) = n.
Proof.
  intros Hw Hwf. unfold wf in Hwf. rewrite Hw in Hwf. simpl in Hwf.
  unfold unscaled_row.
  destruct (feature_std p); [destruct (flag (config p) "is_unscaled")|];
    rewrite ?length_map, ?length_seq; lia.
Qed.

(** The direction of a probe with one output, from its current weights. *)
Lemma single_output_direction (p : probe) (lin : Linear) (n : nat) (nw : bool) :
  gradient_based (cls p) = true -> linear p = Some lin ->
  shape (weight lin) = [1; n] -> wf (weight lin) ->
  cfg_output_size (config p) = Ok 1 ->
  cfg_normalize_weights (config p) = Ok nw ->
  usable_std p n ->
  get_direction p = Ok (Tensor [n] (current_direction p lin n nw)).
Proof.
  intros Hk Hlin Hw Hwf Ho Hnw Hstd. unfold get_direction. rewrite Hk.
  rewrite (gradient_get_direction_single p lin (Tensor [1; n] (unscaled_row p lin n))
             n nw Hlin (unscale_row p lin n Hw Hstd) eq_refl);
    [reflexivity| |exact Ho|exact Hnw].
  unfold wf. cbn [data shape numel fold_right].
  rewrite (length_unscaled_row p lin n Hw Hwf). lia.
Qed.

(** Claim C9, evaluated on the code.  On a [KMeansProbe], [PCAProbe] or
    [MeanDifferenceProbe] whose direction has not been set (the state
    right after construction), [get_direction], [encode] and [forward]
    raise the not-fitted error.  On a [LinearProbe] or [LogisticProbe],
    [encode] raises no not-fitted error in any state.  With one output, in
    every state in which the weight is one row of [n] entries (the
    standard deviation, once a forward pass in training mode has set it,
    being a row of [n] entries without a zero), [encode] returns the dot
    products of the activation rows with the direction computed from the
    current weights; right after construction these are the initial
    weights, zero for a [LogisticProbe].  With several outputs, in every
    state in the shape of the configuration, [encode] raises the
    RuntimeError of [einsum] instead of returning scores. *)
Theorem C9_not_fitted_errors :
  (forall k init c p,
     gradient_based k = false -> new k init c = Ok p ->
     cls p = k /\ direction p = None)
  /\
  (forall p x,
     gradient_based (cls p) = false -> direction p = None ->
     raises_not_fitted (get_direction p) /\
     raises_not_fitted (encode p x) /\
     raises_not_fitted (fitted_forward p x))
  /\
  (forall p x, gradient_based (cls p) = true -> never_not_fitted (encode p x))
  /\
  (forall p lin n nw x lead,
     gradient_based (cls p) = true -> linear p = Some lin ->
     shape (weight lin) = [1; n] -> wf (weight lin) ->
     cfg_output_size (config p) = Ok 1 ->
     cfg_normalize_weights (config p) = Ok nw ->
     usable_std p n ->
     shape x = lead ++ [n] ->
     get_direction p = Ok (Tensor [n] (current_direction p lin n nw)) /\
     encode p x = Ok (scores x lead n (Tensor [n] (current_direction p lin n nw))))
  /\
  (forall k init c p,
     gradient_based k = true -> new k init c = Ok p ->
     exists o b,
       cfg_output_size c = Ok o /\ cfg_bias c = Ok b /\
       cls p = k /\ config p = c /\ feature_std p = None /\
       linear p =
         Some {| weight := match k with
                           | LogisticProbe => zeros [o; input_size c]
                           | _ => Tensor [o; input_size c]
                                    (map init (seq 0 (o * input_size c)))
                           end;
                 bias := if b then Some (zeros [o]) else None |})
  /\
  (forall p lin u o n nw x,
     gradient_based (cls p) = true -> linear p = Some lin ->
     unscale p (weight lin) = Ok u ->
     shape u = [o; n] -> wf u -> 1 < o ->
     cfg_output_size (config p) = Ok o ->
     cfg_normalize_weights (config p) = Ok nw ->
     encode p x = Raise einsum_shape_error /\
     exn_cls einsum_shape_error = RuntimeError /\
     is_not_fitted einsum_shape_error = false).
Proof.
  split; [|split; [|split; [|split; [|split]]]].
  - intros k init c p Hk Hnew.
    destruct (new_closed_form k init c p Hk Hnew) as (? & ? & ?). now split.
  - intros p x Hk Hd.
    assert (Hg : get_direction p = Raise (not_fitted "get_direction")).
    { unfold get_direction, fitted_get_direction. now rewrite Hk, Hd. }
    repeat split.
    + exists (not_fitted "get_direction"). now split.
    + exists (not_fitted "get_direction"). unfold encode. rewrite Hg. now split.
    + exists (not_fitted "forward"). unfold fitted_forward. rewrite Hd. now split.
  - intros p x Hk. unfold encode, get_direction. rewrite Hk.
    apply nnf_bind; [apply nnf_gradient_get_direction|].
    intros d. apply nnf_einsum_d.
  - intros p lin n nw x lead Hk Hlin Hw Hwf Ho Hnw Hstd Hx.
    pose proof (single_output_direction p lin n nw Hk Hlin Hw Hwf Ho Hnw Hstd) as Hd.
    split; [exact Hd|].
    unfold encode. rewrite Hd. cbn [bind].
    erewrite einsum_d_vector; [reflexivity|reflexivity|exact Hx].
  - intros k init c p Hk Hnew. destruct k; try discriminate; simpl in Hnew.
    + destruct (cfg_output_size c) as [o|]; simpl in Hnew; [|discriminate].
      destruct (cfg_bias c) as [b|]; simpl in Hnew; [|discriminate].
      injection Hnew as <-. exists o, b. repeat split.
    + destruct (cfg_output_size c) as [o|]; simpl in Hnew; [|discriminate].
      destruct (cfg_bias c) as [b|]; simpl in Hnew; [|discriminate].
      injection Hnew as <-. exists o, b. repeat split.
  - intros p lin u o n nw x Hk Hlin Hu Hs Hwf Ho Hos Hnw.
    split; [|split; reflexivity].
    destruct (gradient_direction_matrix p lin u o n nw Hlin Hu Hs Hwf Ho Hos Hnw)
      as (d & Hd & Hsd).
    apply (encode_matrix_direction p d x o n); [|exact Hsd].
    unfold get_direction. now rewrite Hk.
Qed.

Lemma C9_not_fitted_errors_witness :
  raises_not_fitted
    (encode (base_init MeanDifferenceProbe (example_config (MeanDiffCfg true))) one_row)
  /\ never_not_fitted (encode trained_3_4 one_row)
  /\ encode trained_3_4 one_row
     = Ok (Tensor [1] [(1 * (3 / (l2 [3; 4] + eps)) + (2 * (4 / (l2 [3; 4] + eps)) + 0))%R])
  /\ encode two_output_probe one_row = Raise einsum_shape_error.
Proof.
  destruct C9_not_fitted_errors as (_ & H2 & H3 & H4 & _ & H6).
  split; [|split; [|split]].
  - apply (H2 (base_init MeanDifferenceProbe (example_config (MeanDiffCfg true)))
              one_row); reflexivity.
  - apply (H3 trained_3_4). reflexivity.
  - refine (proj2 (H4 trained_3_4 {| weight := Tensor [1; 2] [3%R; 4%R]; bias := None |}
                      2 true one_row [1] eq_refl eq_refl eq_refl eq_refl eq_refl eq_refl
                      _ eq_refl)).
    intros s Hs. discriminate.
  - apply (H6 two_output_probe
              {| weight := Tensor [2; 2] [3%R; 4%R; 0%R; 5%R]; bias := None |}
              (Tensor [2; 2] [3%R; 4%R; 0%R; 5%R]) 2 2 true one_row);
      try reflexivity. lia.
Defined.

(* ===================================================================== *)
(** ** C10: construction of a ProbeSet                                     *)
(* ===================================================================== *)

Lemma leading_dims (ps : list probe) (ds : list tensor) :
  Forall2 (fun p d => get_direction p = Ok d /\ shape d <> []) ps ds ->
  traverse (fun p => d <- get_direction p;; shape0 d) ps = Ok (map leading_dim ds).
Proof.
  intros H. apply traverse_Forall2. apply Forall2_fmap_r.
  eapply Forall2_impl; [exact H|].
  intros p d [Hd Hs]. simpl. rewrite Hd. simpl.
  unfold shape0, leading_dim. destruct (shape d); [contradiction|reflexivity].
Qed.

(** The direction of the example with several outputs is its weight
    matrix. *)
Lemma multi_output_direction (o n : nat) :
  1 < o -> get_direction (multi_output o n) = Ok (zeros [o; n]).
Proof.
  intros Ho. unfold get_direction, multi_output. cbn [cls set_linear base_init gradient_based].
  unfold gradient_get_direction, self_linear, unscale, normalize_direction.
  cbn [linear set_linear base_init feature_std weight bind config
       cfg_normalize_weights cfg_output_size ext default_config andb].
  destruct (Nat.eqb_spec o 1) as [->|_]; [lia|reflexivity].
Qed.

(** Claim C10, evaluated on the code.  [ProbeSet(probes)] compares the
    leading dimensions [shape[0]] of the directions: it raises the
    ValueError about dimensions when they are not all equal, and
    otherwise returns a set holding the probes, whose [model_name],
    [hook_point] and [hook_layer] are those of the configuration of the
    first probe when there is one.  For probes whose directions are
    vectors the leading dimension is the length of the direction, and the
    claim holds.  For a [LinearProbe] or [LogisticProbe] with several
    outputs the direction is a matrix whose leading dimension is the
    output size: two probes with two outputs for activations of width 4
    and 5 are accepted, and two probes for activations of width 4 with
    two and three outputs are rejected. *)
Theorem C10_probeset_init :
  (forall ps ns,
     Forall2 (fun p n => exists d, has_direction p d n) ps ns ->
     (~ all_equal ns ->
        exists e, ProbeSet_init ps = Raise e /\ exn_cls e = ValueError)
     /\
     (all_equal ns ->
        exists s, ProbeSet_init ps = Ok s /\ probes s = ps /\
          forall p rest, ps = p :: rest ->
            set_model_name s = Some (model_name (config p)) /\
            set_hook_point s = Some (hook_point (config p)) /\
            set_hook_layer s = Some (hook_layer (config p))))
  /\
  (forall ps ds,
     Forall2 (fun p d => get_direction p = Ok d /\ shape d <> []) ps ds ->
     (~ all_equal (map leading_dim ds) ->
        ProbeSet_init ps
        = Raise (Exn ValueError "All probes must have the same input dimension"))
     /\
     (all_equal (map leading_dim ds) ->
        exists s, ProbeSet_init ps = Ok s /\ probes s = ps /\
          forall p rest, ps = p :: rest ->
            set_model_name s = Some (model_name (config p)) /\
            set_hook_point s = Some (hook_point (config p)) /\
            set_hook_layer s = Some (hook_layer (config p))))
  /\
  (forall p lin u o n nw,
     gradient_based (cls p) = true -> linear p = Some lin ->
     unscale p (weight lin) = Ok u ->
     shape u = [o; n] -> wf u -> 1 < o ->
     cfg_output_size (config p) = Ok o ->
     cfg_normalize_weights (config p) = Ok nw ->
     exists d, get_direction p = Ok d /\ shape d = [o; n] /\ leading_dim d = o)
  /\
  (exists d4 d5 s,
     get_direction (multi_output 2 4) = Ok d4 /\ shape d4 = [2; 4] /\
     get_direction (multi_output 2 5) = Ok d5 /\ shape d5 = [2; 5] /\
     ProbeSet_init [multi_output 2 4; multi_output 2 5] = Ok s)
  /\
  (exists d2 d3,
     get_direction (multi_output 2 4) = Ok d2 /\ shape d2 = [2; 4] /\
     get_direction (multi_output 3 4) = Ok d3 /\ shape d3 = [3; 4] /\
     ProbeSet_init [multi_output 2 4; multi_output 3 4]
     = Raise (Exn ValueError "All probes must have the same input dimension")).
Proof.
  assert (Hgen : forall ps dims,
            traverse (fun p => d <- get_direction p;; shape0 d) ps = Ok dims ->
            (~ all_equal dims ->
               ProbeSet_init ps
               = Raise (Exn ValueError "All probes must have the same input dimension"))
            /\
            (all_equal dims ->
               exists s, ProbeSet_init ps = Ok s /\ probes s = ps /\
                 forall p rest, ps = p :: rest ->
                   set_model_name s = Some (model_name (config p)) /\
                   set_hook_point s = Some (hook_point (config p)) /\
                   set_hook_layer s = Some (hook_layer (config p)))).
  { intros ps dims Hdims. unfold ProbeSet_init. rewrite Hdims. cbn [bind]. split.
    - intros Hne. destruct (Nat.ltb_spec 1 (length (remove_dups dims))) as [_|Hle].
      + reflexivity.
      + exfalso. apply Hne. now apply all_equal_remove_dups.
    - intros Heq. apply all_equal_remove_dups in Heq.
      destruct (Nat.ltb_spec 1 (length (remove_dups dims))) as [Hlt|_]; [lia|].
      eexists. split; [reflexivity|]. split; [reflexivity|].
      intros p rest ->. simpl. now repeat split. }
  split; [|split; [|split; [|split]]].
  - intros ps ns H.
    destruct (Hgen ps ns (dims_of_directions ps ns H)) as [Hbad Hgood].
    split; [|exact Hgood].
    intros Hne. eexists. split; [exact (Hbad Hne)|reflexivity].
  - intros ps ds H. exact (Hgen ps _ (leading_dims ps ds H)).
  - intros p lin u o n nw Hk Hlin Hu Hs Hwf Ho Hos Hnw.
    destruct (gradient_direction_matrix p lin u o n nw Hlin Hu Hs Hwf Ho Hos Hnw)
      as (d & Hd & Hsd).
    exists d. split; [unfold get_direction; now rewrite Hk|]. split; [exact Hsd|].
    unfold leading_dim. now rewrite Hsd.
  - exists (zeros [2; 4]), (zeros [2; 5]).
    destruct (Hgen [multi_output 2 4; multi_output 2 5] [2; 2]) as [_ Hgood].
    { cbn [traverse]. rewrite !multi_output_direction by lia. reflexivity. }
    destruct Hgood as (s & Hs & _).
    { intros a b Ha Hb. simpl in Ha, Hb. lia. }
    exists s. split; [apply multi_output_direction; lia|]. split; [reflexivity|].
    split; [apply multi_output_direction; lia|]. split; [reflexivity|exact Hs].
  - exists (zeros [2; 4]), (zeros [3; 4]).
    split; [apply multi_output_direction; lia|]. split; [reflexivity|].
    split; [apply multi_output_direction; lia|]. split; [reflexivity|].
    destruct (Hgen [multi_output 2 4; multi_output 3 4] [2; 3]) as [Hbad _].
    { cbn [traverse]. rewrite !multi_output_direction by lia. reflexivity. }
    apply Hbad. intros H. specialize (H 2 3). simpl in H.
    assert (2 = 3) by (apply H; tauto). lia.
Qed.

Lemma C10_probeset_init_witness :
  (exists e, ProbeSet_init [fitted_example 4; fitted_example 4; fitted_example 5] = Raise e
             /\ exn_cls e = ValueError)
  /\
  (exists s, ProbeSet_init [fitted_example 4; fitted_example 4; fitted_example 4] = Ok s
             /\ set_model_name s = Some "unknown_model").
Proof.
  destruct C10_probeset_init as (Hvec & _).
  split.
  - apply (Hvec [fitted_example 4; fitted_example 4; fitted_example 5] [4; 4; 5]).
    + repeat constructor; apply fitted_example_direction.
    + intros H. specialize (H 4 5). simpl in H. assert (4 = 5) by (apply H; tauto). lia.
  - destruct (Hvec [fitted_example 4; fitted_example 4; fitted_example 4] [4; 4; 4])
      as [_ H].
    + repeat constructor; apply fitted_example_direction.
    + destruct H as (s & Hs & _ & Hmeta).
      * intros a b Ha Hb. simpl in Ha, Hb. lia.
      * exists s. split; [exact Hs|]. now destruct (Hmeta _ _ eq_refl) as (-> & _).
Defined.

(* ===================================================================== *)
(** ** C5: the norm of a normalised direction                              *)
(* ===================================================================== *)

(** After [fit], the model of a [SklearnLogisticProbe] has its [coef_],
    and its scaler, if it has one, its [scale_]. *)
Lemma sklearn_fit_state (fit_transform : tensor -> result (tensor * tensor))
    (logistic_regression : tensor -> tensor -> result tensor)
    (p p' : SklearnLogisticProbe) (x y : tensor) :
  SklearnLogisticProbe_fit fit_transform logistic_regression p x y = Ok p' ->
  sk_config p' = sk_config p /\ scaler p' <> Some None /\
  exists coef, coef_ p' = Some coef.
Proof.
  unfold SklearnLogisticProbe_fit. intros H.
  apply bind_ok in H as (scaled & Hscaled & H).
  apply bind_ok in H as (coef & _ & H). injection H as <-. cbn.
  split; [reflexivity|]. split; [|eauto].
  destruct (scaler p).
  - apply bind_ok in Hscaled as (r & _ & Hscaled). injection Hscaled as <-. discriminate.
  - injection Hscaled as <-. discriminate.
Qed.

(** The unscaling step of [SklearnLogisticProbe.get_direction]. *)
Lemma sklearn_unscaled (p : SklearnLogisticProbe) (coef : tensor) (k n : nat) :
  coef_ p = Some coef -> shape coef = [S k; n] ->
  scaler p <> Some None ->
  (forall s, fitted_scale p = Some s -> shape s = [n]) ->
  (coefs <- get_attr (coef_ p) "coef_";;
   row <- index0 coefs 0;;
   match scaler p with
   | Some fitted => scale <- get_attr fitted "scale_";; np_divide row scale
   | None => Ok row
   end) = Ok (unscaled_coef coef (fitted_scale p) n).
Proof.
  intros Hc Hs Hsc Hscale. rewrite Hc. cbn [get_attr bind].
  unfold index0. rewrite Hs. cbn [Nat.ltb Nat.leb bind numel fold_right].
  rewrite Nat.mul_1_r. unfold unscaled_coef, fitted_scale in *.
  destruct (scaler p) as [[s|]|]; [|contradiction|reflexivity].
  cbn [get_attr bind]. unfold np_divide.
  erewrite (broadcast2_same Rdiv _ s [n]); [|reflexivity|now apply Hscale].
  cbn [numel fold_right data]. now rewrite Nat.mul_1_r.
Qed.

Lemma wf_unscaled_coef (coef : tensor) (scale : option tensor) (k n : nat) :
  shape coef = [S k; n] -> wf coef -> wf (unscaled_coef coef scale n).
Proof.
  intros Hs Hwf. unfold wf in *. rewrite Hs in Hwf. simpl in Hwf.
  unfold unscaled_coef. cbn [shape data numel fold_right].
  destruct scale.
  - rewrite length_map, length_seq. lia.
  - rewrite (length_slice _ 0 n (S k)); lia.
Qed.

(** The direction of a fitted [SklearnLogisticProbe] that normalises. *)
Lemma sklearn_direction (p : SklearnLogisticProbe) (coef : tensor) (k n : nat) :
  sk_normalize_weights (sk_config p) = true ->
  coef_ p = Some coef -> shape coef = [S k; n] -> wf coef ->
  scaler p <> Some None ->
  (forall s, fitted_scale p = Some s -> shape s = [n]) ->
  let raw := unscaled_coef coef (fitted_scale p) n in
  SklearnLogisticProbe_get_direction p
  = Ok (Tensor [n] (map (fun v => (v / (l2 (data raw) + eps))%R) (data raw))).
Proof.
  intros Hnw Hc Hs Hwf Hsc Hscale raw.
  pose proof (sklearn_unscaled p coef k n Hc Hs Hsc Hscale) as Hraw.
  unfold SklearnLogisticProbe_get_direction.
  rewrite Hc in Hraw |- *. cbn [get_attr bind] in Hraw |- *.
  destruct (index0 coef 0) as [row|e]; [|discriminate]. cbn [bind] in Hraw |- *.
  destruct (match scaler p with
            | Some fitted => scale <- get_attr fitted "scale_";; np_divide row scale
            | None => Ok row
            end) as [u|e]; [|discriminate].
  injection Hraw as ->. cbn [bind]. rewrite Hnw. fold raw.
  rewrite normalize_by_norm by (apply (wf_unscaled_coef coef _ k n Hs Hwf)).
  reflexivity.
Qed.

(** Claim C5, as amended.  With [normalize_weights = true] the direction is
    the un-normalised one divided by its L2 norm plus [1e-8], so its norm is
    [n / (n + 1e-8)] for the norm [n] of the un-normalised direction, and is
    within [1e-4] of 1 as soon as [n >= 1e-4].  This holds after the [fit]
    of a [MeanDifferenceProbe] on labels among which both 0 and 1 occur,
    after the [fit] of a [KMeansProbe], after the [fit] of a [PCAProbe]
    when the correlation of the first projection with the labels is
    defined, for the direction of a [LinearProbe] or [LogisticProbe] with
    one output whose [additional_info] does not flag [is_normalized], for
    every row of the direction of one with several outputs (the standard
    deviation, when there is one, being without a zero), and after the
    [fit] of a [SklearnLogisticProbe] whose scale is without a zero.  The
    scikit-learn estimators are arbitrary. *)
Theorem C5_normalized_norm :
  (forall p x y p',
     cls p = MeanDifferenceProbe ->
     cfg_normalize_weights (config p) = Ok true ->
     both_classes y ->
     MeanDifferenceProbe_fit p x y = Ok p' ->
     exists delta d,
       class_mean_difference x y = Ok delta /\
       get_direction p' = Ok d /\ normalized_from delta d)
  /\
  (forall kmeans p x y p',
     cls p = KMeansProbe ->
     cfg_normalize_weights (config p) = Ok true ->
     KMeansProbe_fit kmeans p x y = Ok p' ->
     exists delta d,
       centroid_difference kmeans p x y = Ok delta /\
       get_direction p' = Ok d /\ normalized_from delta d)
  /\
  (forall pca p x y components n d c,
     cls p = PCAProbe ->
     cfg_normalize_weights (config p) = Ok true ->
     pca x = Ok components ->
     shape components = [S c; d] -> wf components ->
     shape x = [n; d] -> shape y = [n] ->
     correlation_defined (first_projection x components n d) (data y) ->
     exists p' delta dir,
       PCAProbe_fit pca p x y = Ok p' /\
       signed_component pca x y = Ok delta /\
       get_direction p' = Ok dir /\ normalized_from delta dir)
  /\
  (forall p lin u n,
     gradient_based (cls p) = true ->
     linear p = Some lin -> unscale p (weight lin) = Ok u ->
     shape u = [1; n] -> wf u ->
     (forall s, feature_std p = Some s -> Forall (fun v => v <> 0%R) (data s)) ->
     cfg_output_size (config p) = Ok 1 ->
     cfg_normalize_weights (config p) = Ok true ->
     flag (config p) "is_normalized" = false ->
     exists d, get_direction p = Ok d /\ normalized_from u d)
  /\
  (forall p lin u o n,
     gradient_based (cls p) = true ->
     linear p = Some lin -> unscale p (weight lin) = Ok u ->
     shape u = [o; n] -> wf u -> 1 < o ->
     (forall s, feature_std p = Some s -> Forall (fun v => v <> 0%R) (data s)) ->
     cfg_output_size (config p) = Ok o ->
     cfg_normalize_weights (config p) = Ok true ->
     flag (config p) "is_normalized" = false ->
     exists d,
       get_direction p = Ok d /\ shape d = [o; n] /\
       forall r, r < o ->
         l2 (row n r d) = (l2 (row n r u) / (l2 (row n r u) + eps))%R /\
         ((1e-4 <= l2 (row n r u))%R -> (Rabs (l2 (row n r d) - 1) <= 1e-4)%R))
  /\
  (forall fit_transform logistic_regression p x y p' coef k n,
     sk_normalize_weights (sk_config p) = true ->
     SklearnLogisticProbe_fit fit_transform logistic_regression p x y = Ok p' ->
     coef_ p' = Some coef -> shape coef = [S k; n] -> wf coef ->
     (forall s, fitted_scale p' = Some s ->
        shape s = [n] /\ Forall (fun v => v <> 0%R) (data s)) ->
     exists d,
       SklearnLogisticProbe_get_direction p' = Ok d /\
       normalized_from (unscaled_coef coef (fitted_scale p') n) d).
Proof.
  split; [|split; [|split; [|split; [|split]]]].
  - intros p x y p' Hcls Hnw _ Hfit. rewrite mean_difference_fit_split in Hfit.
    apply (closed_form_fit_norm _ p p'); try assumption.
    + now rewrite Hcls.
    + apply class_mean_difference_wf.
  - intros kmeans p x y p' Hcls Hnw Hfit. rewrite kmeans_fit_split in Hfit.
    apply (closed_form_fit_norm _ p p'); try assumption.
    + now rewrite Hcls.
    + apply centroid_difference_wf.
  - intros pca p x y components n d c Hcls Hnw Hpca Hc Hwf Hx Hy _.
    pose proof (signed_first_component pca x y components n d c Hpca Hc Hwf Hx Hy)
      as Hsc.
    pose proof (signed_component_wf pca x y _ Hsc) as Hwfd.
    assert (Hfit : exists p', PCAProbe_fit pca p x y = Ok p').
    { rewrite pca_fit_split, Hsc. cbn [bind]. unfold store_direction.
      rewrite Hnw. cbn [bind]. rewrite normalize_by_norm by exact Hwfd.
      cbn [bind]. eauto. }
    destruct Hfit as [p' Hfit]. exists p'.
    destruct (closed_form_fit_norm (signed_component pca x y) p p')
      as (delta & dir & Hdelta & Hdir & Hnorm).
    + now rewrite Hcls.
    + exact Hnw.
    + apply signed_component_wf.
    + now rewrite <- pca_fit_split.
    + exists delta, dir. split; [exact Hfit|]. split; [exact Hdelta|].
      split; [exact Hdir|exact Hnorm].
  - intros p lin u n Hg Hlin Hu Hs Hwf _ Ho Hnw Hflag.
    eexists. split.
    + unfold get_direction. rewrite Hg.
      rewrite (gradient_get_direction_single p lin u n true Hlin Hu Hs Hwf Ho Hnw).
      rewrite Hflag. reflexivity.
    + unfold normalized_from. simpl.
      split; [apply l2_normalized|apply near_one_after_normalizing].
  - intros p lin u o n Hg Hlin Hu Hs Hwf Ho _ Hos Hnw Hflag.
    destruct (gradient_get_direction_multi p lin u o n Hlin Hu Hs Hwf Ho Hos Hnw Hflag)
      as (d & Hd & Hsd & Hrows).
    exists d. split; [unfold get_direction; now rewrite Hg|]. split; [exact Hsd|].
    intros r Hr. rewrite (Hrows r Hr).
    split; [apply l2_normalized|apply near_one_after_normalizing].
  - intros ft lr p x y p' coef k n Hnw Hfit Hc Hs Hwf Hscale.
    destruct (sklearn_fit_state ft lr p p' x y Hfit) as (Hcfg & Hsc & _).
    eexists. split.
    + apply (sklearn_direction p' coef k n); try assumption.
      * now rewrite Hcfg.
      * intros s Hsome. now apply Hscale.
    + unfold normalized_from. cbn [data].
      split; [apply l2_normalized|apply near_one_after_normalizing].
Qed.

Lemma l2_3_4_scaled : l2 [(3 / 1)%R; (8 / 2)%R] = 5%R.
Proof.
  unfold l2, sumsq. simpl.
  replace (3 / 1 * (3 / 1) + (8 / 2 * (8 / 2) + 0))%R with (5 * 5)%R by lra.
  apply sqrt_square. lra.
Qed.

Lemma C5_normalized_norm_witness :
  (exists d,
     get_direction (trained_linear (LinearCfg "mse" true false 1)
                                   (Tensor [1; 2] [3%R; 4%R])) = Ok d /\
     (Rabs (l2 (data d) - 1) <= 1e-4)%R)
  /\
  (exists p' d,
     SklearnLogisticProbe_fit example_scaler example_regression
       (SklearnLogisticProbe_init {| sk_standardize := true;
                                     sk_normalize_weights := true |})
       identity_rows (Tensor [2] [0%R; 1%R]) = Ok p' /\
     SklearnLogisticProbe_get_direction p' = Ok d /\
     (Rabs (l2 (data d) - 1) <= 1e-4)%R).
Proof.
  destruct C5_normalized_norm as (_ & _ & _ & H & _ & Hsk).
  split.
  - destruct (H (trained_linear (LinearCfg "mse" true false 1) (Tensor [1; 2] [3%R; 4%R]))
                {| weight := Tensor [1; 2] [3%R; 4%R]; bias := None |}
                (Tensor [1; 2] [3%R; 4%R]) 2)
      as (d & Hd & _ & Hnear); try reflexivity.
    + intros s Hs. discriminate.
    + exists d. split; [exact Hd|]. apply Hnear.
      simpl. rewrite l2_3_4. lra.
  - eexists.
    destruct (Hsk example_scaler example_regression
                (SklearnLogisticProbe_init {| sk_standardize := true;
                                              sk_normalize_weights := true |})
                identity_rows (Tensor [2] [0%R; 1%R]) _
                (Tensor [1; 2] [3%R; 8%R]) 0 2 eq_refl eq_refl eq_refl eq_refl eq_refl)
      as (d & Hd & _ & Hnear).
    + intros s Hs. injection Hs as <-. split; [reflexivity|].
      repeat constructor; lra.
    + exists d. split; [reflexivity|]. split; [exact Hd|]. apply Hnear.
      unfold unscaled_coef, fitted_scale, slice, at_. simpl.
      rewrite l2_3_4_scaled. lra.
Defined.
